(** * Car recommendation chatbot: the retrieval core

    A shallow embedding of the vector-store providers
    ([ChromaDBProvider], [QdrantDBProvider]), the ingestion pipeline
    ([DataProcessController]), the embedding-provider factory
    ([LLMProviderFactory]), the orchestration ([RAGController]), the paths
    of [DatabaseController] and the query cleaning of
    [SQL_AgentController] of the Python sources, followed by the properties
    of the specification and by further properties of the code.

    Python code mutates the vector store, writes to loggers and may raise at
    any call.  A computation is therefore a function from a [world] to a
    [result] together with the world it leaves behind: what was written
    before an exception stays written. *)

From stdpp Require Import gmap strings list pretty.
From Stdlib Require Import ZArith Lia PrimFloat Ascii.

Local Open Scope Z_scope.

(** ** Python values and exceptions *)

(** The built-in exception classes the modelled code can meet, and
    [ClientError] for whatever a vendor SDK raises on its own account. *)
Inductive exn_class :=
| TypeError | ValueError | IndexError | KeyError | AttributeError
| OSError | ClientError.

Record exn := Exn { exn_kind : exn_class; exn_text : string }.

Inductive result (A : Type) :=
| Ok (a : A)
| Raise (e : exn).
Arguments Ok {A} a.
Arguments Raise {A} e.

(** Python [float] is IEEE binary64. *)
Definition float : Type := PrimFloat.float.

(** What [embed_text] hands back: a list of floats, or [None]. *)
Definition embedding : Type := option (list float).

(** [not v] for such a value: [None] and the empty list are falsy. *)
Definition falsy {A} (v : option (list A)) : bool :=
  match v with
  | None | Some [] => true
  | Some (_ :: _) => false
  end.

(** [not s] for an optional string: [None] and [""] are falsy. *)
Definition falsy_str (s : option string) : bool :=
  match s with
  | None | Some "" => true
  | Some _ => false
  end.

(** [range(start, stop, step)], as CPython computes its length. *)
Definition py_range (start stop step : Z) : result (list Z) :=
  if decide (step = 0) then
    Raise (Exn ValueError "range() arg 3 must not be zero")
  else if decide (0 < step) then
    Ok (if decide (start < stop)
        then (λ k, start + Z.of_nat k * step) <$>
               seq 0 (Z.to_nat ((stop - start + step - 1) / step))
        else [])
  else
    Ok (if decide (stop < start)
        then (λ k, start + Z.of_nat k * step) <$>
               seq 0 (Z.to_nat ((start - stop - step - 1) / (- step)))
        else []).

(** A slice bound, clamped as [l[i:j]] clamps it: negative bounds count from
    the end, and everything is cut to [0 .. len l]. *)
Definition clamp (n : nat) (i : Z) : nat :=
  if decide (i < 0) then Z.to_nat (Z.max 0 (Z.of_nat n + i))
  else Z.to_nat (Z.min i (Z.of_nat n)).

(** [l[i:j]]. *)
Definition py_slice {A} (l : list A) (i j : Z) : list A :=
  let a := clamp (length l) i in
  let b := clamp (length l) j in
  take (b - a)%nat (drop a l).

(** [l[x]] for a non-negative [x]; out of range is an [IndexError]. *)
Definition py_index {A} (l : list A) (x : nat) : result A :=
  match l !! x with
  | Some a => Ok a
  | None => Raise (Exn IndexError "list index out of range")
  end.

(** ** The vector store *)

(** A record identifier as the providers build it: Chroma takes strings,
    Qdrant integers or strings, and [QdrantDBProvider.insert_one] wraps its
    argument in a one-element list. *)
Inductive point_id :=
| IdInt (n : Z)
| IdStr (s : string)
| IdList (l : list (option string)).

Global Instance point_id_eq_dec : EqDecision point_id.
Proof. solve_decision. Defined.

(** A stored document: id, text, vector and metadata (Qdrant's payload may
    carry [None] as metadata). *)
Record point := Point {
  pid : point_id;
  ptext : string;
  pvector : embedding;
  pmeta : option (gmap string string)
}.

(** How a collection was configured at creation: Chroma's metadata dict, or
    Qdrant's [VectorParams(size, distance)]. *)
Inductive coll_config :=
| ChromaMetadata (m : gmap string string)
| VectorParams (size : Z) (distance : string).

Record collection := Collection {
  cconfig : coll_config;
  cpoints : list point
}.

(** One request to a vendor client, with its arguments. *)
Inductive call :=
| ChromaListCollections
| ChromaGetCollection (name : string)
| ChromaDeleteCollection (name : string)
| ChromaCreateCollection (name : string) (metadata : gmap string string)
| ChromaAdd (name : string) (documents : list string)
    (metadatas : list (gmap string string)) (ids : list point_id)
    (embeddings : list embedding)
| ChromaCount (name : string)
| ChromaQuery (name : string) (query : embedding) (n_results : Z)
| QdrantCollectionExists (name : string)
| QdrantGetCollections
| QdrantGetCollection (name : string)
| QdrantDeleteCollection (name : string)
| QdrantCreateCollection (name : string) (size : Z) (distance : string)
| QdrantUploadRecords (name : string) (records : list point)
| QdrantSearch (name : string) (query : embedding) (limit : Z).

Inductive level := ERROR | WARNING | INFO.

Record log_entry := Log { log_level : level; log_text : string }.

(** The state a call runs in.
    - [store]: the collections on disk, by name;
    - [faults]: for each coming client request, whether the vendor client
      raises on it of its own accord (I/O, validation, a client that is not
      connected); an exhausted schedule means no more faults;
    - [calls]: the client requests issued so far, oldest first;
    - [logs]: the lines written to the loggers, oldest first;
    - [uuids]: how many random identifiers were drawn. *)
Record world := World {
  store : gmap string collection;
  faults : list bool;
  calls : list call;
  logs : list log_entry;
  uuids : nat
}.

(** A world on which no client request faults any more. *)
Definition healthy (w : world) : Prop := Forall (λ b, b = false) (faults w).

Global Instance healthy_dec w : Decision (healthy w).
Proof. unfold healthy. apply _. Defined.

(** ** Computations *)

Definition M (A : Type) : Type := world → result A * world.

Definition ret {A} (a : A) : M A := λ w, (Ok a, w).

Definition raise {A} (e : exn) : M A := λ w, (Raise e, w).

Definition bind {A B} (m : M A) (k : A → M B) : M B := λ w,
  match m w with
  | (Ok a, w') => k a w'
  | (Raise e, w') => (Raise e, w')
  end.

Global Instance M_ret : MRet M := @ret.
Global Instance M_bind : MBind M := λ A B k m, bind m k.

(** [try: body except Exception as e: handler e]. *)
Definition try_except {A} (body : M A) (handler : exn → M A) : M A := λ w,
  match body w with
  | (Ok a, w') => (Ok a, w')
  | (Raise e, w') => handler e w'
  end.

(** A value computed outside the store that may raise. *)
Definition lift {A} (r : result A) : M A := λ w, (r, w).

(** The world with one more log line. *)
Definition logged (l : level) (text : string) (w : world) : world :=
  World (store w) (faults w) (calls w) (logs w ++ [Log l text]) (uuids w).

Definition logger (l : level) (text : string) : M unit := λ w,
  (Ok tt, logged l text w).

(** [for x in xs: body x]. *)
Fixpoint for_each {A} (xs : list A) (body : A → M unit) : M unit :=
  match xs with
  | [] => ret tt
  | x :: rest => body x;; for_each rest body
  end.

(** Whether the next client request faults. *)
Definition next_fault (w : world) : bool :=
  match faults w with
  | true :: _ => true
  | _ => false
  end.

(** The world after one more client request [c]. *)
Definition after (c : call) (w : world) : world :=
  World (store w) (tail (faults w)) (calls w ++ [c]) (logs w) (uuids w).

(** Every client request is recorded and consumes one entry of the fault
    schedule; a scheduled fault raises before the store is touched. *)
Definition request (c : call) : M unit := λ w,
  (if next_fault w then Raise (Exn ClientError "client request failed")
   else Ok tt, after c w).

Definition get_store : M (gmap string collection) := λ w, (Ok (store w), w).

Definition with_store (s : gmap string collection) (w : world) : world :=
  World s (faults w) (calls w) (logs w) (uuids w).

Definition put_store (s : gmap string collection) : M unit := λ w,
  (Ok tt, with_store s w).

(** ** Data exchanged with the collaborators *)

(** A [pandas.DataFrame] as the pipeline reads it: the column labels, the
    row labels ([read_csv] numbers the rows from 0), and the cells of every
    row, each already rendered as [format] renders it inside an f-string. *)
Record DataFrame := {
  columns : list string;
  index : list nat;
  cells : list (list string)
}.

(** What Chroma's [collection.query] answers: a dict (or a falsy value) whose
    entries hold one list per query vector. *)
Record query_result := {
  qr_ids : option (list (list point_id));
  qr_documents : option (list (list string));
  qr_distances : option (list (list float))
}.

(** What Qdrant's [client.search] answers, one per hit; the payload may lack
    its ["text"] entry. *)
Record ScoredPoint := {
  sp_score : float;
  sp_text : option string
}.

Record RetrievedDocument := { text : string; score : float }.

(** The value of [get_collection_info]: Chroma's provider builds a dict with
    name, count and metadata (or the empty dict), Qdrant's hands back the
    client's collection description. *)
Inductive collection_info :=
| EmptyInfo
| ChromaInfo (name : string) (count : nat) (metadata : coll_config)
| QdrantInfo (points_count : nat) (config : coll_config).

(** The fields of [Settings] the modelled code reads. *)
Record Settings := {
  EMBEDDING_BACKEND : string;
  OPENAI_API_KEY : option string;
  GROQ_API_KEY : option string;
  AZURE_OPENAI_API_KEY : option string;
  AZURE_OPENAI_ENDPOINT : option string;
  API_VERSION : option string;
  EMBEDDING_MODEL_ID : option string;
  INPUT_DAFAULT_MAX_CHARACTERS : option Z;
  GENERATION_DAFAULT_MAX_TOKENS : option Z;
  GENERATION_DAFAULT_TEMPERATURE : option float;
  VECTOR_DB_BACKEND : string;
  COLLECTION_NAME : string
}.

Record generation_defaults := {
  default_input_max_characters : option Z;
  default_generation_max_output_tokens : option Z;
  default_generation_temperature : option float
}.

(** The three constructor calls [LLMProviderFactory.create] can make, with
    their keyword arguments. *)
Inductive provider_call :=
| OpenAIProvider_azure (azure_api api_version azure_endpoint : option string)
    (defaults : generation_defaults)
| OpenAIProvider_key (api_key : option string) (defaults : generation_defaults)
| GroqProvider_key (api_key : option string) (defaults : generation_defaults).

(** What lies outside the sources: the provider classes and the enumeration
    of [stores.llm], pandas, the process environment and the ranking done
    inside the vendor clients.  Each is a parameter of the development. *)
Class Externals := {
  llm_client : Type;
  construct : provider_call → result llm_client;
  set_embedding_model : llm_client → option string → result llm_client;
  embed_text : llm_client → string → result embedding;
  LLMEnums_OPENAI : string;
  LLMEnums_GROQ : string;
  read_csv : string → result DataFrame;
  get_settings : result Settings;
  chroma_query : list point → embedding → Z → result (option query_result);
  qdrant_search : list point → embedding → Z → result (list ScoredPoint);
  uuid4 : nat → string
}.

(** ** The vendor clients *)

Definition missing_collection {A} (name : string) : M A :=
  raise (Exn ValueError ("Collection " +:+ name +:+ " does not exist")).

Definition existing_collection {A} (name : string) : M A :=
  raise (Exn ValueError ("Collection " +:+ name +:+ " already exists")).

(** [chromadb.PersistentClient] and the collection objects it hands out. *)
Module chromadb.

(** A collection object: its name and the metadata read when it was
    fetched. *)
Record handle := { h_name : string; h_metadata : coll_config }.

Definition list_collections : M (list string) :=
  request ChromaListCollections;;
  s ← get_store;
  mret ((map_to_list s).*1).

Definition get_collection (name : string) : M handle :=
  request (ChromaGetCollection name);;
  s ← get_store;
  match s !! name with
  | Some c => mret {| h_name := name; h_metadata := cconfig c |}
  | None => missing_collection name
  end.

Definition delete_collection (name : string) : M unit :=
  request (ChromaDeleteCollection name);;
  s ← get_store;
  match s !! name with
  | Some _ => put_store (delete name s)
  | None => missing_collection name
  end.

Definition create_collection (name : string) (metadata : gmap string string)
  : M unit :=
  request (ChromaCreateCollection name metadata);;
  s ← get_store;
  match s !! name with
  | Some _ => existing_collection name
  | None => put_store (<[name := Collection (ChromaMetadata metadata) []]> s)
  end.

(** The records an [add] carries, position by position. *)
Definition zip_points (documents : list string)
    (metadatas : list (gmap string string)) (ids : list point_id)
    (embeddings : list embedding) : list point :=
  zip_with (λ dm ie, Point ie.1 dm.1 ie.2 (Some dm.2))
    (zip documents metadatas) (zip ids embeddings).

(** [add] keeps what is stored and skips a record whose id is taken. *)
Definition add_point (stored : list point) (p : point) : list point :=
  if decide (pid p ∈ pid <$> stored) then stored else stored ++ [p].

Definition add_points (stored new : list point) : list point :=
  foldl add_point stored new.

(** [collection.add].  The lists must be of one length.  What else the
    client checks on the values of a call is not decided here: it refuses
    an empty metadata dict, an id repeated within the call and an empty
    list of ids, and such a refusal is one of the faults of the schedule,
    raised by [request] before the store is touched. *)
Definition add (col : handle) (documents : list string)
    (metadatas : list (gmap string string)) (ids : list point_id)
    (embeddings : list embedding) : M unit :=
  request (ChromaAdd (h_name col) documents metadatas ids embeddings);;
  if negb (bool_decide (length documents = length ids
                        ∧ length metadatas = length ids
                        ∧ length embeddings = length ids))
  then raise (Exn ValueError "Unequal lengths for fields")
  else
    s ← get_store;
    match s !! h_name col with
    | Some c =>
        put_store (<[h_name col :=
          Collection (cconfig c)
            (add_points (cpoints c)
               (zip_points documents metadatas ids embeddings))]> s)
    | None => missing_collection (h_name col)
    end.

Definition count (col : handle) : M nat :=
  request (ChromaCount (h_name col));;
  s ← get_store;
  match s !! h_name col with
  | Some c => mret (length (cpoints c))
  | None => missing_collection (h_name col)
  end.

Definition query `{Externals} (col : handle) (query_embedding : embedding)
    (n_results : Z) : M (option query_result) :=
  request (ChromaQuery (h_name col) query_embedding n_results);;
  s ← get_store;
  match s !! h_name col with
  | Some c => lift (chroma_query (cpoints c) query_embedding n_results)
  | None => missing_collection (h_name col)
  end.

End chromadb.

(** [qdrant_client.QdrantClient] on a local path. *)
Module qdrant_client.

Definition collection_exists (name : string) : M bool :=
  request (QdrantCollectionExists name);;
  s ← get_store;
  mret (bool_decide (is_Some (s !! name))).

Definition get_collections : M (list string) :=
  request QdrantGetCollections;;
  s ← get_store;
  mret ((map_to_list s).*1).

Definition get_collection (name : string) : M collection_info :=
  request (QdrantGetCollection name);;
  s ← get_store;
  match s !! name with
  | Some c => mret (QdrantInfo (length (cpoints c)) (cconfig c))
  | None => missing_collection name
  end.

Definition delete_collection (name : string) : M unit :=
  request (QdrantDeleteCollection name);;
  s ← get_store;
  put_store (delete name s).

Definition create_collection (name : string) (size : Z) (distance : string)
  : M unit :=
  request (QdrantCreateCollection name size distance);;
  s ← get_store;
  match s !! name with
  | Some _ => existing_collection name
  | None => put_store (<[name := Collection (VectorParams size distance) []]> s)
  end.

(** An upload replaces the stored record of the same id. *)
Definition upsert_point (stored : list point) (p : point) : list point :=
  filter (λ q, pid q ≠ pid p) stored ++ [p].

Definition upsert_points (stored new : list point) : list point :=
  foldl upsert_point stored new.

(** [client.upload_records].  The client refuses an id that is neither an
    unsigned integer nor a UUID, among them the one-element list that
    [QdrantDBProvider.insert_one] builds; such a refusal is one of the
    faults of the schedule. *)
Definition upload_records (name : string) (records : list point) : M unit :=
  request (QdrantUploadRecords name records);;
  s ← get_store;
  match s !! name with
  | Some c =>
      put_store (<[name :=
        Collection (cconfig c) (upsert_points (cpoints c) records)]> s)
  | None => missing_collection name
  end.

Definition search `{Externals} (name : string) (query_vector : embedding)
    (limit : Z) : M (list ScoredPoint) :=
  request (QdrantSearch name query_vector limit);;
  s ← get_store;
  match s !! name with
  | Some c => lift (qdrant_search (cpoints c) query_vector limit)
  | None => missing_collection name
  end.

End qdrant_client.

(** ** Helpers on [result] *)

Definition rbind {A B} (r : result A) (k : A → result B) : result B :=
  match r with
  | Ok a => k a
  | Raise e => Raise e
  end.

(** Evaluates the elements from left to right and stops at the first that
    raises, as a list comprehension does. *)
Fixpoint collect {A} (rs : list (result A)) : result (list A) :=
  match rs with
  | [] => Ok []
  | r :: rest => rbind r (λ a, rbind (collect rest) (λ l, Ok (a :: l)))
  end.

(** [v[0]] for a value that may be [None]. *)
Definition first_of {A} (v : option (list A)) : result A :=
  match v with
  | None => Raise (Exn TypeError "'NoneType' object is not subscriptable")
  | Some l => py_index l 0
  end.

(** [str(uuid.uuid4())]. *)
Definition draw_uuid `{Externals} : M string := λ w,
  (Ok (uuid4 (uuids w)),
   World (store w) (faults w) (calls w) (logs w) (S (uuids w))).

(** ** stores/vectordb/providers/ChromaDBProvider.py *)

Module ChromaDBProvider.

Definition distance_method : string := "cosine".

Definition is_collection_existed (collection_name : string) : M bool :=
  collections ← chromadb.list_collections;
  mret (existsb (λ col, bool_decide (col = collection_name)) collections).

Definition list_all_collections : M (list string) :=
  chromadb.list_collections.

Definition get_collection_info (collection_name : string)
  : M collection_info :=
  try_except
    (collection ← chromadb.get_collection collection_name;
     n ← chromadb.count collection;
     mret (ChromaInfo (chromadb.h_name collection) n
             (chromadb.h_metadata collection)))
    (λ e,
     logger ERROR ("Error getting collection info: " +:+ exn_text e);;
     mret EmptyInfo).

Definition delete_collection (collection_name : string) : M unit :=
  existed ← is_collection_existed collection_name;
  if existed : bool then chromadb.delete_collection collection_name else mret tt.

(** [embedding_size] defaults to [None] and is not used. *)
Definition create_collection (collection_name : string)
    (embedding_size : option Z) (do_reset : bool) : M bool :=
  (if do_reset then delete_collection collection_name else mret tt);;
  existed ← is_collection_existed collection_name;
  if negb existed then
    let metadata : gmap string string := {[ "hnsw:space" := distance_method ]} in
    chromadb.create_collection collection_name metadata;;
    mret true
  else mret false.

Definition insert_one `{Externals} (collection_name : string) (text : string)
    (vector : embedding) (metadata : option (gmap string string))
    (record_id : option string) : M bool :=
  existed ← is_collection_existed collection_name;
  if negb existed then
    logger ERROR ("Cannot insert record into non-existent collection: "
                  +:+ collection_name);;
    mret false
  else
    try_except
      (collection ← chromadb.get_collection collection_name;
       record_id ← (match record_id with
                     | None => draw_uuid
                     | Some r => mret r
                     end : M string);
       let metadata := default ∅ metadata in
       chromadb.add collection [text] [metadata] [IdStr record_id] [vector];;
       mret true)
      (λ e,
       logger ERROR ("Error while inserting record: " +:+ exn_text e);;
       mret false).

(** The slices of one pass of the loop, handed to [collection.add]. *)
Definition add_batch (collection : chromadb.handle) (texts : list string)
    (vectors : list embedding) (metadata : list (gmap string string))
    (record_ids : list point_id) (batch_size : Z) (i : Z) : M unit :=
  let batch_texts := py_slice texts i (i + batch_size) in
  let batch_vectors := py_slice vectors i (i + batch_size) in
  let batch_metadata := py_slice metadata i (i + batch_size) in
  let batch_record_ids := py_slice record_ids i (i + batch_size) in
  chromadb.add collection batch_texts batch_metadata batch_record_ids
    batch_vectors.

Definition insert_many (collection_name : string) (texts : list string)
    (vectors : list embedding) (metadata : option (list (gmap string string)))
    (record_ids : option (list point_id)) (batch_size : Z) : M bool :=
  let metadata := default (replicate (length texts) ∅) metadata in
  let record_ids :=
    default ((λ i : nat, IdStr (pretty i)) <$> seq 0 (length texts))
      record_ids in
  try_except
    (collection ← chromadb.get_collection collection_name;
     starts ← lift (py_range 0 (Z.of_nat (length texts)) batch_size);
     for_each starts
       (add_batch collection texts vectors metadata record_ids batch_size);;
     mret true)
    (λ e,
     logger ERROR ("Error while inserting batch: " +:+ exn_text e);;
     mret false).

(** The pairs of [zip(results["documents"][0], results["distances"][0])]. *)
Definition retrieved (results : query_result)
  : result (list RetrievedDocument) :=
  rbind (first_of (qr_documents results)) (λ docs,
  rbind (first_of (qr_distances results)) (λ distances,
  Ok (zip_with (λ doc distance, {| text := doc; score := distance |})
        docs distances))).

Definition search_by_vector `{Externals} (collection_name : string)
    (vector : embedding) (limit : Z) : M (option (list RetrievedDocument)) :=
  try_except
    (collection ← chromadb.get_collection collection_name;
     results ← chromadb.query collection vector limit;
     match results with
     | None => mret None
     | Some r =>
         match qr_ids r with
         | None | Some [] => mret None
         | Some (first :: _) =>
             if bool_decide (length first = 0%nat) then mret None
             else docs ← lift (retrieved r); mret (Some docs)
         end
     end)
    (λ e,
     logger ERROR ("Error during search: " +:+ exn_text e);;
     mret None).

End ChromaDBProvider.

(** ** stores/vectordb/providers/QdrantDBProvider.py *)

Module QdrantDBProvider.

(** [models.Distance.COSINE]. *)
Definition distance_method : string := "Cosine".

Definition is_collection_existed (collection_name : string) : M bool :=
  qdrant_client.collection_exists collection_name.

Definition list_all_collections : M (list string) :=
  qdrant_client.get_collections.

Definition get_collection_info (collection_name : string)
  : M collection_info :=
  qdrant_client.get_collection collection_name.

Definition delete_collection (collection_name : string) : M unit :=
  existed ← is_collection_existed collection_name;
  if existed : bool then qdrant_client.delete_collection collection_name
  else mret tt.

(** [embedding_size] has no default: [None] here stands for a call that
    leaves the argument out, which Python refuses with a [TypeError] before
    the body runs. *)
Definition create_collection (collection_name : string)
    (embedding_size : option Z) (do_reset : bool) : M bool :=
  match embedding_size with
  | None =>
      raise (Exn TypeError
        "create_collection() missing 1 required positional argument: 'embedding_size'")
  | Some size =>
      (if do_reset then delete_collection collection_name else mret tt);;
      existed ← is_collection_existed collection_name;
      if negb existed then
        qdrant_client.create_collection collection_name size distance_method;;
        mret true
      else mret false
  end.

Definition insert_one (collection_name : string) (text : string)
    (vector : embedding) (metadata : option (gmap string string))
    (record_id : option string) : M bool :=
  existed ← is_collection_existed collection_name;
  if negb existed then
    logger ERROR ("Cannot insert record to non-existent collection: "
                  +:+ collection_name);;
    mret false
  else
    try_except
      (qdrant_client.upload_records collection_name
         [Point (IdList [record_id]) text vector metadata];;
       mret true)
      (λ e,
       logger ERROR ("Error while inserting record: " +:+ exn_text e);;
       mret false).

(** The list comprehension that builds one batch; an index past the end of
    a shorter slice is an [IndexError]. *)
Definition batch_records (batch_texts : list string)
    (batch_vectors : list embedding)
    (batch_metadata : list (option (gmap string string)))
    (batch_record_ids : list point_id) : result (list point) :=
  collect ((λ x,
    rbind (py_index batch_record_ids x) (λ i,
    rbind (py_index batch_vectors x) (λ v,
    rbind (py_index batch_texts x) (λ t,
    rbind (py_index batch_metadata x) (λ m,
    Ok (Point i t v m)))))) <$> seq 0 (length batch_texts)).

(** The body of the loop over the batch starts; a failed upload leaves the
    method at once with [False]. *)
Fixpoint upload_batches (collection_name : string) (texts : list string)
    (vectors : list embedding) (metadata : list (option (gmap string string)))
    (record_ids : list point_id) (batch_size : Z) (starts : list Z)
  : M bool :=
  match starts with
  | [] => mret true
  | i :: rest =>
      let batch_end := i + batch_size in
      let batch_texts := py_slice texts i batch_end in
      let batch_vectors := py_slice vectors i batch_end in
      let batch_metadata := py_slice metadata i batch_end in
      let batch_record_ids := py_slice record_ids i batch_end in
      records ← lift (batch_records batch_texts batch_vectors batch_metadata
                        batch_record_ids);
      uploaded ← try_except
        (qdrant_client.upload_records collection_name records;; mret true)
        (λ e,
         logger ERROR ("Error while inserting batch [" +:+ pretty i +:+ ":"
                       +:+ pretty batch_end +:+ "]: " +:+ exn_text e);;
         mret false);
      if uploaded : bool then
        upload_batches collection_name texts vectors metadata record_ids
          batch_size rest
      else mret false
  end.

Definition insert_many (collection_name : string) (texts : list string)
    (vectors : list embedding) (metadata : option (list (gmap string string)))
    (record_ids : option (list point_id)) (batch_size : Z) : M bool :=
  let metadata :=
    match metadata with
    | None => replicate (length texts) None
    | Some l => Some <$> l
    end in
  let record_ids :=
    default ((λ i : nat, IdInt (Z.of_nat i)) <$> seq 0 (length texts))
      record_ids in
  starts ← lift (py_range 0 (Z.of_nat (length texts)) batch_size);
  upload_batches collection_name texts vectors metadata record_ids
    batch_size starts.

Definition search_by_vector `{Externals} (collection_name : string)
    (vector : embedding) (limit : Z) : M (option (list RetrievedDocument)) :=
  results ← qdrant_client.search collection_name vector limit;
  if bool_decide (results = [] ∨ length results = 0%nat) then mret None
  else
    docs ← lift (collect ((λ r : ScoredPoint,
      match sp_text r with
      | Some t => Ok {| text := t; score := sp_score r |}
      | None => Raise (Exn KeyError "'text'")
      end) <$> results));
    mret (Some docs).

End QdrantDBProvider.

(** ** stores/vectordb/VectorDBInterface.py *)

(** The two implementations of the interface; a call on a client object is
    dispatched on its class. *)
Inductive vectordb_client := Chroma | Qdrant.

Module VectorDBInterface.

(** The default of [batch_size] in every [insert_many]. *)
Definition default_batch_size : Z := 50.

Definition is_collection_existed (self : vectordb_client) :=
  match self with
  | Chroma => ChromaDBProvider.is_collection_existed
  | Qdrant => QdrantDBProvider.is_collection_existed
  end.

Definition get_collection_info (self : vectordb_client) :=
  match self with
  | Chroma => ChromaDBProvider.get_collection_info
  | Qdrant => QdrantDBProvider.get_collection_info
  end.

Definition delete_collection (self : vectordb_client) :=
  match self with
  | Chroma => ChromaDBProvider.delete_collection
  | Qdrant => QdrantDBProvider.delete_collection
  end.

Definition create_collection (self : vectordb_client) :=
  match self with
  | Chroma => ChromaDBProvider.create_collection
  | Qdrant => QdrantDBProvider.create_collection
  end.

Definition insert_one `{Externals} (self : vectordb_client) :=
  match self with
  | Chroma => ChromaDBProvider.insert_one
  | Qdrant => QdrantDBProvider.insert_one
  end.

Definition insert_many (self : vectordb_client) :=
  match self with
  | Chroma => ChromaDBProvider.insert_many
  | Qdrant => QdrantDBProvider.insert_many
  end.

Definition search_by_vector `{Externals} (self : vectordb_client) :=
  match self with
  | Chroma => ChromaDBProvider.search_by_vector
  | Qdrant => QdrantDBProvider.search_by_vector
  end.

End VectorDBInterface.

(** ** [os.path] on POSIX *)

Module os_path.

(** [p.rfind(c)]: the last position of [c] in [p], or -1. *)
Fixpoint rfind_from (c : ascii) (p : string) (i : Z) (found : Z) : Z :=
  match p with
  | EmptyString => found
  | String a rest =>
      rfind_from c rest (i + 1) (if decide (a = c) then i else found)
  end.

Definition rfind (p : string) (c : ascii) : Z := rfind_from c p 0 (-1).

(** [p[n:]] and [p[:n]] for a non-negative [n]. *)
Fixpoint str_drop (n : nat) (p : string) : string :=
  match n, p with
  | O, _ => p
  | S _, EmptyString => EmptyString
  | S n', String _ rest => str_drop n' rest
  end.

Fixpoint str_take (n : nat) (p : string) : string :=
  match n, p with
  | O, _ => EmptyString
  | S _, EmptyString => EmptyString
  | S n', String a rest => String a (str_take n' rest)
  end.

Definition basename (p : string) : string :=
  let i := rfind p "/"%char + 1 in
  str_drop (Z.to_nat i) p.

(** Whether the loop of [_splitext] over [p[filenameIndex:dotIndex]] meets
    a character that is not the extension separator. *)
Fixpoint has_non_dot (p : string) : bool :=
  match p with
  | EmptyString => false
  | String a rest => if decide (a = "."%char) then has_non_dot rest else true
  end.

Definition splitext (p : string) : string * string :=
  let sepIndex := rfind p "/"%char in
  let dotIndex := rfind p "."%char in
  if decide (dotIndex > sepIndex) then
    let filenameIndex := sepIndex + 1 in
    if has_non_dot (str_take (Z.to_nat (dotIndex - filenameIndex))
                      (str_drop (Z.to_nat filenameIndex) p))
    then (str_take (Z.to_nat dotIndex) p, str_drop (Z.to_nat dotIndex) p)
    else (p, EmptyString)
  else (p, EmptyString).

End os_path.

(** ** stores/llm/LLMProviderFactory.py *)

Module LLMProviderFactory.

Record t := { config : Settings; azure : bool }.

Definition defaults_of (config : Settings) : generation_defaults :=
  {| default_input_max_characters := INPUT_DAFAULT_MAX_CHARACTERS config;
     default_generation_max_output_tokens :=
       GENERATION_DAFAULT_MAX_TOKENS config;
     default_generation_temperature :=
       GENERATION_DAFAULT_TEMPERATURE config |}.

Definition create `{Externals} (self : t) (provider : string)
  : M (option llm_client) :=
  if bool_decide (provider = LLMEnums_OPENAI) then
    if azure self then
      c ← lift (construct
                  (OpenAIProvider_azure
                     (AZURE_OPENAI_API_KEY (config self))
                     (API_VERSION (config self))
                     (AZURE_OPENAI_ENDPOINT (config self))
                     (defaults_of (config self))));
      mret (Some c)
    else if falsy_str (OPENAI_API_KEY (config self)) then
      logger ERROR "Missing OpenAI API key in configuration.";;
      mret None
    else
      c ← lift (construct
                  (OpenAIProvider_key (OPENAI_API_KEY (config self))
                     (defaults_of (config self))));
      mret (Some c)
  else if bool_decide (provider = LLMEnums_GROQ) then
    if falsy_str (GROQ_API_KEY (config self)) then
      logger ERROR "Missing Groq API key in configuration.";;
      mret None
    else
      c ← lift (construct
                  (GroqProvider_key (GROQ_API_KEY (config self))
                     (defaults_of (config self))));
      mret (Some c)
  else
    logger WARNING ("Unsupported provider: " +:+ provider);;
    mret None.

End LLMProviderFactory.

(** ** controllers/DataProcessController.py *)

Module DataProcessController.

Record t `{Externals} := { app_settings : Settings; client : llm_client }.

(** The constructor: settings from the environment, a client from the
    factory (never in Azure mode), and the embedding model set on it.  A
    factory that answers [None] makes the attribute access fail. *)
Definition __init__ `{Externals} : M t :=
  settings ← lift get_settings;
  let llm_provider_factory :=
    {| LLMProviderFactory.config := settings;
       LLMProviderFactory.azure := false |} in
  created ← LLMProviderFactory.create llm_provider_factory
              (EMBEDDING_BACKEND settings);
  match created with
  | None =>
      raise (Exn AttributeError
        "'NoneType' object has no attribute 'set_embedding_model'")
  | Some c =>
      c' ← lift (set_embedding_model c (EMBEDDING_MODEL_ID settings));
      mret {| app_settings := settings; client := c' |}
  end.

Definition get_file_loader `{Externals} (dataset : string)
  : M (option (DataFrame * string)) :=
  let file_names_with_extensions := os_path.basename dataset in
  let '(file_name, file_extension) :=
    os_path.splitext file_names_with_extensions in
  if bool_decide (file_extension = ".csv") then
    df ← lift (read_csv dataset);
    mret (Some (df, file_name))
  else
    logger ERROR "The selected file type is not supported";;
    mret None.

(** [row[col]]: the cell of the row under the first column labelled
    [col]. *)
Fixpoint row_get (cols : list string) (row : list string) (col : string)
  : result string :=
  match cols, row with
  | c :: cols', v :: row' =>
      if decide (c = col) then Ok v else row_get cols' row' col
  | _, _ => Raise (Exn KeyError col)
  end.

Definition newline : string := String "010"%char EmptyString.

(** The inner loop: [output_str += f"{col}: {row[col]},\n"] for every
    column label. *)
Fixpoint row_text (cols : list string) (row : list string)
    (todo : list string) (output_str : string) : result string :=
  match todo with
  | [] => Ok output_str
  | col :: rest =>
      rbind (row_get cols row col) (λ v,
      row_text cols row rest
        (output_str +:+ col +:+ ": " +:+ v +:+ "," +:+ newline))
  end.

Definition prepared : Type :=
  list string * list (gmap string string) * list string * list embedding.

(** The outer loop over [df.iterrows()], with the four lists it appends
    to. *)
Fixpoint rows_loop `{Externals} (self : t) (cols : list string)
    (file_name : string) (rows : list (nat * list string)) (acc : prepared)
  : result prepared :=
  match rows with
  | [] => Ok acc
  | (idx, row) :: rest =>
      let '(docs, metadatas, ids, embeddings) := acc in
      rbind (row_text cols row cols "") (λ output_str,
      rbind (embed_text (client self) output_str) (λ e,
      rows_loop self cols file_name rest
        (docs ++ [output_str],
         metadatas ++ [{[ "source" := file_name ]}],
         ids ++ ["id" +:+ pretty idx],
         embeddings ++ [e])))
  end.

(** The [print] of every row goes to standard output, which is not part of
    the model. *)
Definition prepare_data_for_injection `{Externals} (self : t)
    (df : DataFrame) (file_name : string) : M prepared :=
  lift (rows_loop self (columns df) file_name (zip (index df) (cells df))
          ([], [], [], [])).

End DataProcessController.

(** ** controllers/RAGController.py *)

Module RAGController.

Record t `{Externals} := {
  em : bool;
  app_settings : Settings;
  text_embedding_client : llm_client;
  vectordb_client : vectordb_client;
  data_csv : string
}.

(** [df, file_name = ...]: unpacking [None] is a [TypeError]. *)
Definition unpack {A B} (v : option (A * B)) : M (A * B) :=
  match v with
  | Some p => mret p
  | None => raise (Exn TypeError "cannot unpack non-iterable NoneType object")
  end.

Definition repr_info (info : collection_info) : string :=
  match info with
  | EmptyInfo => "{}"
  | ChromaInfo name n _ => "{'name': '" +:+ name +:+ "', 'count': "
                           +:+ pretty n +:+ "}"
  | QdrantInfo n _ => "points_count=" +:+ pretty n
  end.

Definition index_into_vector_db `{Externals} (self : t)
  : M (option collection_info) :=
  if negb (em self) then
    vectordb_info ←
      VectorDBInterface.get_collection_info (vectordb_client self)
        (COLLECTION_NAME (app_settings self));
    mret (Some vectordb_info)
  else
    try_except
      (process_controller ← DataProcessController.__init__;
       loaded ← DataProcessController.get_file_loader (data_csv self);
       '(df, file_name) ← unpack loaded;
       '(docs, metadatas, ids, embeddings) ←
         DataProcessController.prepare_data_for_injection process_controller
           df file_name;
       VectorDBInterface.create_collection (vectordb_client self)
         (COLLECTION_NAME (app_settings self)) None true;;
       VectorDBInterface.insert_many (vectordb_client self)
         (COLLECTION_NAME (app_settings self)) docs embeddings
         (Some metadatas) (Some (IdStr <$> ids))
         VectorDBInterface.default_batch_size;;
       logger INFO "Data is stored in the vector database.";;
       vectordb_info ←
         VectorDBInterface.get_collection_info (vectordb_client self)
           (COLLECTION_NAME (app_settings self));
       logger INFO ("Vector DB Info: " +:+ repr_info vectordb_info);;
       mret (Some vectordb_info))
      (λ e,
       logger ERROR ("Error during vector DB indexing: " +:+ exn_text e);;
       mret None).

Definition search_vector_db_collection `{Externals} (self : t)
    (text : string) (limit : Z) : M (list RetrievedDocument) :=
  try_except
    (vector ← lift (embed_text (text_embedding_client self) text);
     if falsy vector then
       logger WARNING
         "Embedding returned an empty vector; returning empty result set.";;
       mret []
     else
       results ←
         VectorDBInterface.search_by_vector (vectordb_client self)
           (COLLECTION_NAME (app_settings self)) vector limit;
       if falsy results then mret [] else mret (default [] results))
    (λ e,
     logger ERROR ("Error during vector DB search: " +:+ exn_text e);;
     mret []).

End RAGController.

(** ** [posixpath.join] and [posixpath.dirname] *)

Module posixpath.

Definition startswith_sep (b : string) : bool :=
  match b with
  | String a _ => bool_decide (a = "/"%char)
  | EmptyString => false
  end.

Fixpoint endswith_sep (p : string) : bool :=
  match p with
  | EmptyString => false
  | String a EmptyString => bool_decide (a = "/"%char)
  | String _ rest => endswith_sep rest
  end.

(** One pass of the loop of [join] over the components after the first. *)
Definition join_step (path b : string) : string :=
  if startswith_sep b then b
  else if bool_decide (path = "") || endswith_sep path then path +:+ b
  else path +:+ "/" +:+ b.

(** [os.path.join(a, *p)]. *)
Definition join (a : string) (p : list string) : string :=
  foldl join_step a p.

(** [head == sep * len(head)]. *)
Fixpoint all_sep (head : string) : bool :=
  match head with
  | EmptyString => true
  | String a rest => bool_decide (a = "/"%char) && all_sep rest
  end.

(** [head.rstrip(sep)]. *)
Fixpoint rstrip_sep (head : string) : string :=
  match head with
  | EmptyString => EmptyString
  | String a rest =>
      let r := rstrip_sep rest in
      if bool_decide (a = "/"%char) && bool_decide (r = "") then EmptyString
      else String a r
  end.

Definition dirname (p : string) : string :=
  let i := os_path.rfind p "/"%char + 1 in
  let head := os_path.str_take (Z.to_nat i) p in
  if negb (bool_decide (head = "")) && negb (all_sep head)
  then rstrip_sep head
  else head.

End posixpath.

(** ** controllers/DatabaseController.py *)

Module DatabaseController.

Record t := {
  app_settings : Settings;
  base_dir : string;
  database_dir : string
}.

(** The constructor; [__file__] is the path of the module's file. *)
Definition __init__ `{Externals} (__file__ : string) : M t :=
  settings ← lift get_settings;
  let base_dir := posixpath.dirname (posixpath.dirname __file__) in
  mret {| app_settings := settings;
          base_dir := base_dir;
          database_dir := posixpath.join base_dir ["assets/database"] |}.

Definition get_dataset_path (self : t) (db_name : string) : string :=
  posixpath.join (database_dir self) ["csv"; db_name].

Definition get_database_sql_path (self : t) (db_name : string) : string :=
  posixpath.join (database_dir self) ["db_sql"; db_name].

End DatabaseController.


(** ** controllers/SQL_AgentController.py *)

Module SQL_AgentController.

(** [str.strip] goes by what Unicode calls white space, so the text is the
    list of its code points here. *)
Definition text : Type := list N.

Definition of_string (s : string) : text :=
  N_of_ascii <$> String.list_ascii_of_string s.

(** [c.isspace()]. *)
Definition isspace (c : N) : bool :=
  ((9 <=? c) && (c <=? 13) || (28 <=? c) && (c <=? 32)
   || (c =? 133) || (c =? 160) || (c =? 5760)
   || (8192 <=? c) && (c <=? 8202)
   || (c =? 8232) || (c =? 8233) || (c =? 8239) || (c =? 8287)
   || (c =? 12288))%N.

Fixpoint startswith (s prefix : text) {struct prefix} : bool :=
  match prefix, s with
  | [], _ => true
  | p :: prefix', a :: s' => (a =? p)%N && startswith s' prefix'
  | _ :: _, [] => false
  end.

(** [s.replace(old, "")] for a non-empty [old]: the occurrences of [old]
    are found from left to right, each search starting behind the last
    occurrence found; [skip] counts the characters of the current occurrence
    that are still to be dropped. *)
Fixpoint remove (old : text) (skip : nat) (s : text) : text :=
  match s with
  | [] => []
  | a :: rest =>
      match skip with
      | S k => remove old k rest
      | O =>
          if startswith s old then remove old (length old - 1) rest
          else a :: remove old 0 rest
      end
  end.

Definition replace_by_empty (s old : text) : text := remove old 0 s.

Fixpoint lstrip (s : text) : text :=
  match s with
  | [] => []
  | a :: rest => if isspace a then lstrip rest else s
  end.

Fixpoint rstrip (s : text) : text :=
  match s with
  | [] => []
  | a :: rest =>
      match rstrip rest with
      | [] => if isspace a then [] else [a]
      | r => a :: r
      end
  end.

Definition strip (s : text) : text := rstrip (lstrip s).

(** The helper inside [chat_agent_with_sql]. *)
Definition remove_markdown (sql_text : text) : text :=
  let sql_text :=
    foldl replace_by_empty sql_text
      [of_string "SQLQuery:"; of_string "```sql"; of_string "```"] in
  strip sql_text.

End SQL_AgentController.


(** * Vocabulary of the properties *)

(** The client requests behind the three steps of [create_collection]. *)
Definition exists_call (self : vectordb_client) (n : string) : call :=
  match self with
  | Chroma => ChromaListCollections
  | Qdrant => QdrantCollectionExists n
  end.

Definition delete_call (self : vectordb_client) (n : string) : call :=
  match self with
  | Chroma => ChromaDeleteCollection n
  | Qdrant => QdrantDeleteCollection n
  end.

Definition create_call (self : vectordb_client) (n : string)
    (embedding_size : option Z) : call :=
  match self with
  | Chroma =>
      ChromaCreateCollection n {[ "hnsw:space" := ChromaDBProvider.distance_method ]}
  | Qdrant =>
      QdrantCreateCollection n (default 0 embedding_size)
        QdrantDBProvider.distance_method
  end.

(** A collection as it is right after its creation: configured, empty. *)
Definition fresh_collection (self : vectordb_client)
    (embedding_size : option Z) : collection :=
  match self with
  | Chroma =>
      Collection
        (ChromaMetadata {[ "hnsw:space" := ChromaDBProvider.distance_method ]}) []
  | Qdrant =>
      Collection
        (VectorParams (default 0 embedding_size) QdrantDBProvider.distance_method)
        []
  end.

(** Qdrant's [create_collection] needs its [embedding_size]; Chroma's has a
    default for it. *)
Definition size_supplied (self : vectordb_client) (embedding_size : option Z)
  : Prop :=
  match self with
  | Chroma => True
  | Qdrant => is_Some embedding_size
  end.

(** The requests one [create_collection] issues, in order, on a store where
    the name [existed] or not. *)
Definition create_collection_calls (self : vectordb_client) (n : string)
    (embedding_size : option Z) (do_reset existed : bool) : list call :=
  if do_reset then
    exists_call self n
      :: (if existed then [delete_call self n] else [])
      ++ [exists_call self n; create_call self n embedding_size]
  else
    exists_call self n
      :: (if existed then [] else [create_call self n embedding_size]).

(** ** Batches *)

(** The number of batches of size [b] that [n] records make:
    ceil(n / b). *)
Definition batch_count (n b : nat) : nat :=
  Z.to_nat ((Z.of_nat n + Z.of_nat b - 1) / Z.of_nat b).

(** The [k]-th batch of size [b] of a list, counting from 0. *)
Definition batch {A} (b k : nat) (l : list A) : list A :=
  take b (drop (k * b) l).

Definition batches {A} (b : nat) (l : list A) : list (list A) :=
  (λ k, batch b k l) <$> seq 0 (batch_count (length l) b).

(** The defaults each provider fills in for [metadata] and [record_ids]. *)
Definition chroma_metadata (texts : list string)
    (metadata : option (list (gmap string string)))
  : list (gmap string string) :=
  default (replicate (length texts) ∅) metadata.

Definition chroma_ids (texts : list string) (record_ids : option (list point_id))
  : list point_id :=
  default ((λ i : nat, IdStr (pretty i)) <$> seq 0 (length texts)) record_ids.

Definition qdrant_metadata (texts : list string)
    (metadata : option (list (gmap string string)))
  : list (option (gmap string string)) :=
  match metadata with
  | None => replicate (length texts) None
  | Some l => Some <$> l
  end.

Definition qdrant_ids (texts : list string) (record_ids : option (list point_id))
  : list point_id :=
  default ((λ i : nat, IdInt (Z.of_nat i)) <$> seq 0 (length texts)) record_ids.

(** Qdrant's records, position by position. *)
Definition qdrant_points (texts : list string) (vectors : list embedding)
    (metadata : list (option (gmap string string))) (ids : list point_id)
  : list point :=
  zip_with (λ it vm, Point it.1 it.2 vm.1 vm.2)
    (zip ids texts) (zip vectors metadata).

(** All the records one [insert_many] is asked to store, in input order. *)
Definition records (self : vectordb_client) (texts : list string)
    (vectors : list embedding) (metadata : option (list (gmap string string)))
    (record_ids : option (list point_id)) : list point :=
  match self with
  | Chroma =>
      chromadb.zip_points texts (chroma_metadata texts metadata)
        (chroma_ids texts record_ids) vectors
  | Qdrant =>
      qdrant_points texts vectors (qdrant_metadata texts metadata)
        (qdrant_ids texts record_ids)
  end.

(** The request that carries batch [k]. *)
Definition batch_call (self : vectordb_client) (name : string)
    (texts : list string) (vectors : list embedding)
    (metadata : option (list (gmap string string)))
    (record_ids : option (list point_id)) (b k : nat) : call :=
  match self with
  | Chroma =>
      ChromaAdd name (batch b k texts)
        (batch b k (chroma_metadata texts metadata))
        (batch b k (chroma_ids texts record_ids))
        (batch b k vectors)
  | Qdrant =>
      QdrantUploadRecords name
        (batch b k (records Qdrant texts vectors metadata record_ids))
  end.

(** What a stored batch does to the collection [name]. *)
Definition store_batch (self : vectordb_client) (name : string)
    (s : gmap string collection) (pts : list point) : gmap string collection :=
  alter (λ c,
    Collection (cconfig c)
      (match self with
       | Chroma => chromadb.add_points
       | Qdrant => qdrant_client.upsert_points
       end (cpoints c) pts)) name s.

(** The store once the batches [bs] are persisted, in order. *)
Definition persist (self : vectordb_client) (name : string)
    (s : gmap string collection) (bs : list (list point))
  : gmap string collection :=
  foldl (store_batch self name) s bs.

(** The requests [insert_many] makes before its first batch, and the part
    of the fault schedule that the batches meet. *)
Definition fetch_calls (self : vectordb_client) (name : string) : list call :=
  match self with
  | Chroma => [ChromaGetCollection name]
  | Qdrant => []
  end.

Definition batch_faults (self : vectordb_client) (w : world) : list bool :=
  match self with
  | Chroma => tail (faults w)
  | Qdrant => faults w
  end.

Definition fetch_ok (self : vectordb_client) (w : world) : Prop :=
  match self with
  | Chroma => next_fault w = false
  | Qdrant => True
  end.

(** The optional arguments, when given, are as long as [texts]. *)
Definition same_lengths (texts : list string) (vectors : list embedding)
    (metadata : option (list (gmap string string)))
    (record_ids : option (list point_id)) : Prop :=
  length vectors = length texts
  ∧ (∀ l, metadata = Some l → length l = length texts)
  ∧ (∀ l, record_ids = Some l → length l = length texts).

(** The world after the batches [j], ..., [j + m - 1] of an [insert_many]
    went through: each was requested, none faulted, each is persisted. *)
Definition after_batches (self : vectordb_client) (name : string)
    (texts : list string) (vectors : list embedding)
    (metadata : option (list (gmap string string)))
    (record_ids : option (list point_id)) (b j m : nat) (w : world) : world :=
  World
    (persist self name (store w)
       ((λ k, batch b k (records self texts vectors metadata record_ids))
          <$> seq j m))
    (drop m (faults w))
    (calls w
       ++ (batch_call self name texts vectors metadata record_ids b <$> seq j m))
    (logs w) (uuids w).

(** ** Tables *)

(** The text of one row: ["col: value,\n"] for every column, in column
    order; the last character of each piece is the line feed, code 10. *)
Fixpoint serialized (cols row : list string) : string :=
  match cols, row with
  | c :: cols', v :: row' =>
      c +:+ ": " +:+ v +:+ "," +:+ String "010" "" +:+ serialized cols' row'
  | _, _ => ""
  end.

(** A table as [read_csv] builds it: distinct column labels, one cell per
    column in every row, rows labelled 0, 1, 2, ... *)
Definition well_formed (df : DataFrame) : Prop :=
  NoDup (columns df)
  ∧ Forall (λ row, length row = length (columns df)) (cells df)
  ∧ index df = seq 0 (length (cells df)).

(** The embedding client answers on every row of the table. *)
Definition embeddable `{Externals} (c : llm_client) (df : DataFrame) : Prop :=
  ∀ row, row ∈ cells df →
    ∃ e, embed_text c (serialized (columns df) row) = Ok e.

(** ** Logging only *)

(** [quiet w w']: from [w] to [w'] nothing happened but logging. *)
Definition quiet (w w' : world) : Prop :=
  store w' = store w ∧ faults w' = faults w ∧ calls w' = calls w
  ∧ uuids w' = uuids w.

(** ** A small installation to run the code on *)

(** A store without collections, a client that never faults. *)
Definition empty_world : world := World ∅ [] [] [] 0.

Definition sample_settings : Settings := {|
  EMBEDDING_BACKEND := "OPENAI";
  OPENAI_API_KEY := Some "sk-test";
  GROQ_API_KEY := None;
  AZURE_OPENAI_API_KEY := None;
  AZURE_OPENAI_ENDPOINT := None;
  API_VERSION := None;
  EMBEDDING_MODEL_ID := Some "text-embedding-3-small";
  INPUT_DAFAULT_MAX_CHARACTERS := Some 1024;
  GENERATION_DAFAULT_MAX_TOKENS := Some 200;
  GENERATION_DAFAULT_TEMPERATURE := None;
  VECTOR_DB_BACKEND := "CHROMA";
  COLLECTION_NAME := "cars"
|}.

(** The dataset of the specification's scenario. *)
Definition sample_frame : DataFrame := {|
  columns := ["make"; "year"];
  index := [0; 1; 2]%nat;
  cells := [["Toyota"; "2020"]; ["Honda"; "2019"]; ["Ford"; "2021"]]
|}.

Definition sample_vector : embedding := Some [0.5%float; 0.25%float].

(** Collaborators that always answer.  A client is the constructor call
    that built it together with its embedding model; every text embeds to
    [sample_vector] except the empty text, which embeds to the empty list;
    the one dataset file holds [sample_frame]; a search ranks the stored
    records in their order. *)
Definition sample_externals : Externals := {|
  llm_client := provider_call * option string;
  construct := λ c, Ok (c, None);
  set_embedding_model := λ c model_id, Ok (c.1, model_id);
  embed_text := λ _ t, Ok (if decide (t = "") then Some [] else sample_vector);
  LLMEnums_OPENAI := "OPENAI";
  LLMEnums_GROQ := "GROQ";
  read_csv := λ path,
    if decide (path = "assets/database/csv/dataset.csv") then Ok sample_frame
    else Raise (Exn OSError "No such file or directory");
  get_settings := Ok sample_settings;
  chroma_query := λ stored _ n,
    let hits := take (Z.to_nat n) stored in
    Ok (Some {| qr_ids := Some [pid <$> hits];
                qr_documents := Some [ptext <$> hits];
                qr_distances := Some [(λ _, 0.5%float) <$> hits] |});
  qdrant_search := λ stored _ n,
    Ok ((λ p, {| sp_score := 0.5%float; sp_text := Some (ptext p) |})
          <$> take (Z.to_nat n) stored);
  uuid4 := λ k, "uuid-" +:+ pretty k
|}.

(** A configuration without any credential, asking for OpenAI. *)
Definition bare_settings : Settings := {|
  EMBEDDING_BACKEND := "OPENAI";
  OPENAI_API_KEY := None;
  GROQ_API_KEY := None;
  AZURE_OPENAI_API_KEY := None;
  AZURE_OPENAI_ENDPOINT := None;
  API_VERSION := None;
  EMBEDDING_MODEL_ID := None;
  INPUT_DAFAULT_MAX_CHARACTERS := None;
  GENERATION_DAFAULT_MAX_TOKENS := None;
  GENERATION_DAFAULT_TEMPERATURE := None;
  VECTOR_DB_BACKEND := "CHROMA";
  COLLECTION_NAME := "cars"
|}.

(** A store that holds the empty collection ["cars"] of the given provider,
    with the faults of [fs] scheduled. *)
Definition cars_world (self : vectordb_client) (fs : list bool) : world :=
  World {[ "cars" := fresh_collection self (Some 2) ]} fs [] [] 0.

Definition five_texts : list string := ["t1"; "t2"; "t3"; "t4"; "t5"].

Definition five_vectors : list embedding := replicate 5 sample_vector.

(** The client and the controller that [DataProcessController()] builds in
    the sample installation. *)
Definition sample_client : @llm_client sample_externals :=
  (OpenAIProvider_key (Some "sk-test")
     (LLMProviderFactory.defaults_of sample_settings),
   Some "text-embedding-3-small").

Definition sample_process_controller : @DataProcessController.t sample_externals :=
  @DataProcessController.Build_t sample_externals sample_settings sample_client.

(** The orchestrator of the sample installation, on either store. *)
Definition sample_rag (self : vectordb_client) (em : bool)
  : @RAGController.t sample_externals :=
  @RAGController.Build_t sample_externals em sample_settings sample_client self
    "assets/database/csv/dataset.csv".

(** The same installation with an embedding service that refuses the text
    of the second row of [sample_frame]. *)
Definition failing_externals : Externals := {|
  llm_client := provider_call * option string;
  construct := λ c, Ok (c, None);
  set_embedding_model := λ c model_id, Ok (c.1, model_id);
  embed_text := λ _ t,
    if decide (t = serialized ["make"; "year"] ["Honda"; "2019"])
    then Raise (Exn ClientError "rate limit exceeded")
    else Ok sample_vector;
  LLMEnums_OPENAI := "OPENAI";
  LLMEnums_GROQ := "GROQ";
  read_csv := λ path,
    if decide (path = "assets/database/csv/dataset.csv") then Ok sample_frame
    else Raise (Exn OSError "No such file or directory");
  get_settings := Ok sample_settings;
  chroma_query := λ _ _ _, Ok None;
  qdrant_search := λ _ _ _, Ok [];
  uuid4 := λ k, "uuid-" +:+ pretty k
|}.

Definition failing_process_controller
  : @DataProcessController.t failing_externals :=
  @DataProcessController.Build_t failing_externals sample_settings
    sample_client.


(** ** Paths *)

(** Whether the character [c] occurs in [p]. *)
Fixpoint occurs (c : ascii) (p : string) : bool :=
  match p with
  | EmptyString => false
  | String a rest => bool_decide (a = c) || occurs c rest
  end.

(** Whether [s] ends in [suffix]. *)
Fixpoint ends_with (suffix s : string) : bool :=
  bool_decide (s = suffix)
  || match s with
     | EmptyString => false
     | String _ rest => ends_with suffix rest
     end.

(** The data controller of the sample installation, as its constructor
    builds it from the path of its module. *)
Definition sample_database_controller : DatabaseController.t := {|
  DatabaseController.app_settings := sample_settings;
  DatabaseController.base_dir := "/app/src";
  DatabaseController.database_dir := "/app/src/assets/database"
|}.


(** ** Markdown fences *)

(** The opening or closing line of a code block, and whether a text holds
    one somewhere. *)
Definition fence : SQL_AgentController.text :=
  SQL_AgentController.of_string "```".

Fixpoint fenced (s : SQL_AgentController.text) : bool :=
  match s with
  | [] => false
  | _ :: rest => SQL_AgentController.startswith s fence || fenced rest
  end.


(** A Chroma store whose collection ["cars"] already holds two records
    under the ids that [insert_many] gives by default. *)
Definition stocked_world : world :=
  World
    {[ "cars" :=
         Collection
           (ChromaMetadata {[ "hnsw:space" := ChromaDBProvider.distance_method ]})
           [Point (IdStr "0") "t1" sample_vector (Some ∅);
            Point (IdStr "1") "t2" sample_vector (Some ∅)] ]}
    [] [] [] 0.


(** A Chroma store after a first ingestion of two texts with their source as
    metadata and no ids: the records are stored under the ids ["0"] and
    ["1"]. *)
Definition ingested_world : world :=
  World
    {[ "cars" :=
         Collection
           (ChromaMetadata {[ "hnsw:space" := ChromaDBProvider.distance_method ]})
           [Point (IdStr "0") "t1" sample_vector
              (Some {[ "source" := "dataset" ]});
            Point (IdStr "1") "t2" sample_vector
              (Some {[ "source" := "dataset" ]})] ]}
    [] [] [] 0.

(** A Qdrant store whose collection ["cars"] already holds two records
    under the ids that [insert_many] gives by default. *)
Definition qdrant_stocked_world : world :=
  World
    {[ "cars" :=
         Collection (VectorParams 2 QdrantDBProvider.distance_method)
           [Point (IdInt 0) "t1" sample_vector None;
            Point (IdInt 1) "t2" sample_vector None] ]}
    [] [] [] 0.


(** ** Computations that leave the store alone *)

(** [keeps_store m]: whatever [m] answers, the collections are as before. *)
Definition keeps_store {A} (m : M A) : Prop :=
  ∀ w, store (m w).2 = store w.

(** ** Computations that only add records to one collection *)

(** From the store [s] to [s'] nothing happened but records going into the
    collection [name]: no collection appeared or went away, the others are
    as they were, the configuration of [name] is kept, and on Chroma what
    was stored is still there, in place. *)
Definition only_adds (self : vectordb_client) (name : string)
    (s s' : gmap string collection) : Prop :=
  (∀ n, n ≠ name → s' !! n = s !! n)
  ∧ match s !! name with
    | None => s' !! name = None
    | Some c =>
        ∃ c', s' !! name = Some c'
              ∧ cconfig c' = cconfig c
              ∧ (self = Chroma → cpoints c `prefix_of` cpoints c')
    end.

(** [along R m]: whatever [m] answers, the store it leaves is related by
    [R] to the one it found. *)
Definition along (R : relation (gmap string collection)) {A} (m : M A)
  : Prop :=
  ∀ w, R (store w) (store (m w).2).


(** ** The steps of a re-index that come before the store is touched *)

(** The first four statements of the [try] block of [index_into_vector_db]:
    the data controller is built, the dataset loaded and unpacked, the rows
    rendered and embedded. *)
Definition preparation `{Externals} (self : RAGController.t)
  : M DataProcessController.prepared :=
  process_controller ← DataProcessController.__init__;
  loaded ← DataProcessController.get_file_loader (RAGController.data_csv self);
  '(df, file_name) ← RAGController.unpack loaded;
  DataProcessController.prepare_data_for_injection process_controller
    df file_name.

(** The orchestrator of the sample installation on another dataset. *)
Definition sample_rag_on (dataset : string) (self : vectordb_client)
  : @RAGController.t sample_externals :=
  @RAGController.Build_t sample_externals true sample_settings sample_client
    self dataset.


(** * Properties *)

(** ** Running client requests *)

Lemma healthy_next_fault w : healthy w → next_fault w = false.
Proof.
  unfold healthy, next_fault. intros Hh.
  destruct (faults w) as [|[] fs]; try reflexivity.
  inversion Hh; discriminate.
Qed.

Lemma healthy_after c w : healthy w → healthy (after c w).
Proof.
  unfold healthy, after; simpl. intros Hh.
  destruct (faults w); simpl; [constructor|]. by inversion Hh.
Qed.

Lemma healthy_with_store s w : healthy w → healthy (with_store s w).
Proof. done. Qed.

Lemma healthy_logged l t w : healthy w → healthy (logged l t w).
Proof. done. Qed.

Ltac unfold_monad :=
  unfold mbind, M_bind, bind, mret, M_ret, ret, lift, raise, get_store,
    put_store, logger, try_except, request in *.

(** [any(col.name == collection_name for col in collections)] answers
    whether the store has the name. *)
Lemma any_name_eq (s : gmap string collection) (n : string) :
  existsb (λ col, bool_decide (col = n)) ((map_to_list s).*1)
  = bool_decide (is_Some (s !! n)).
Proof.
  destruct (existsb _ _) eqn:E.
  - apply existsb_exists in E as (x & Hin & Hx).
    apply bool_decide_eq_true in Hx. subst x.
    apply list_elem_of_In, list_elem_of_fmap in Hin as ([k c] & -> & Hkc).
    apply elem_of_map_to_list in Hkc. simpl.
    symmetry. apply bool_decide_eq_true. eauto.
  - symmetry. apply bool_decide_eq_false. intros [c Hc].
    assert (existsb (λ col, bool_decide (col = n)) (map_to_list s).*1 = true)
      as Ht; [|congruence].
    apply existsb_exists. exists n. split; [|by apply bool_decide_eq_true].
    apply list_elem_of_In, list_elem_of_fmap. exists (n, c). split; [done|].
    by apply elem_of_map_to_list.
Qed.

Lemma chroma_is_collection_existed_run n w :
  ChromaDBProvider.is_collection_existed n w =
    (if next_fault w then Raise (Exn ClientError "client request failed")
     else Ok (bool_decide (is_Some (store w !! n))),
     after ChromaListCollections w).
Proof.
  unfold ChromaDBProvider.is_collection_existed, chromadb.list_collections.
  unfold_monad.
  destruct (next_fault w); [done|]. simpl. by rewrite any_name_eq.
Qed.

Lemma qdrant_is_collection_existed_run n w :
  QdrantDBProvider.is_collection_existed n w =
    (if next_fault w then Raise (Exn ClientError "client request failed")
     else Ok (bool_decide (is_Some (store w !! n))),
     after (QdrantCollectionExists n) w).
Proof.
  unfold QdrantDBProvider.is_collection_existed,
    qdrant_client.collection_exists.
  unfold_monad.
  by destruct (next_fault w).
Qed.

(** ** Collection lifecycle *)

Lemma chroma_delete_collection_run n w :
  healthy w →
  ChromaDBProvider.delete_collection n w =
    (Ok tt,
     if bool_decide (is_Some (store w !! n))
     then with_store (delete n (store w))
            (after (ChromaDeleteCollection n) (after ChromaListCollections w))
     else after ChromaListCollections w).
Proof.
  intros Hh. unfold ChromaDBProvider.delete_collection.
  unfold mbind, M_bind, bind.
  rewrite chroma_is_collection_existed_run, healthy_next_fault by done.
  case_bool_decide as Hex; [|done].
  unfold chromadb.delete_collection. unfold_monad.
  rewrite healthy_next_fault by auto using healthy_after. simpl.
  destruct Hex as [c Hc]. by rewrite Hc.
Qed.

Lemma qdrant_delete_collection_run n w :
  healthy w →
  QdrantDBProvider.delete_collection n w =
    (Ok tt,
     if bool_decide (is_Some (store w !! n))
     then with_store (delete n (store w))
            (after (QdrantDeleteCollection n)
               (after (QdrantCollectionExists n) w))
     else after (QdrantCollectionExists n) w).
Proof.
  intros Hh. unfold QdrantDBProvider.delete_collection.
  unfold mbind, M_bind, bind.
  rewrite qdrant_is_collection_existed_run, healthy_next_fault by done.
  case_bool_decide as Hex; [|done].
  unfold qdrant_client.delete_collection. unfold_monad.
  by rewrite healthy_next_fault by auto using healthy_after.
Qed.

Lemma bind_run {A B} (m : M A) (k : A → M B) (w : world) :
  (m ≫= k) w =
    match m w with
    | (Ok a, w') => k a w'
    | (Raise e, w') => (Raise e, w')
    end.
Proof. reflexivity. Qed.

Lemma chroma_create_run n metadata w :
  healthy w → store w !! n = None →
  chromadb.create_collection n metadata w =
    (Ok tt,
     with_store (<[n := Collection (ChromaMetadata metadata) []]> (store w))
       (after (ChromaCreateCollection n metadata) w)).
Proof.
  intros Hh Hn. unfold chromadb.create_collection. unfold_monad.
  rewrite healthy_next_fault by done. simpl. by rewrite Hn.
Qed.

Lemma qdrant_create_run n size distance w :
  healthy w → store w !! n = None →
  qdrant_client.create_collection n size distance w =
    (Ok tt,
     with_store (<[n := Collection (VectorParams size distance) []]> (store w))
       (after (QdrantCreateCollection n size distance) w)).
Proof.
  intros Hh Hn. unfold qdrant_client.create_collection. unfold_monad.
  rewrite healthy_next_fault by done. simpl. by rewrite Hn.
Qed.

(** Both providers delete through the same three cases. *)
Lemma delete_collection_run self n w :
  healthy w →
  VectorDBInterface.delete_collection self n w =
    (Ok tt,
     if bool_decide (is_Some (store w !! n))
     then with_store (delete n (store w))
            (after (delete_call self n) (after (exists_call self n) w))
     else after (exists_call self n) w).
Proof.
  destruct self; simpl.
  - apply chroma_delete_collection_run.
  - apply qdrant_delete_collection_run.
Qed.

Lemma is_collection_existed_run self n w :
  healthy w →
  VectorDBInterface.is_collection_existed self n w =
    (Ok (bool_decide (is_Some (store w !! n))), after (exists_call self n) w).
Proof.
  intros Hh. destruct self; simpl.
  - by rewrite chroma_is_collection_existed_run, healthy_next_fault.
  - by rewrite qdrant_is_collection_existed_run, healthy_next_fault.
Qed.

(** The creation request of either client. *)
Lemma client_create_run self n embedding_size w :
  healthy w → store w !! n = None →
  match self with
  | Chroma =>
      chromadb.create_collection n
        {[ "hnsw:space" := ChromaDBProvider.distance_method ]}
  | Qdrant =>
      qdrant_client.create_collection n (default 0 embedding_size)
        QdrantDBProvider.distance_method
  end w =
    (Ok tt,
     with_store (<[n := fresh_collection self embedding_size]> (store w))
       (after (create_call self n embedding_size) w)).
Proof.
  destruct self; simpl; intros.
  - by apply chroma_create_run.
  - by apply qdrant_create_run.
Qed.

(** [create_collection] of either provider, once its arguments are bound. *)
Lemma create_collection_unfold self n embedding_size do_reset :
  size_supplied self embedding_size →
  VectorDBInterface.create_collection self n embedding_size do_reset =
    ((if do_reset then VectorDBInterface.delete_collection self n
      else mret tt);;
     existed ← VectorDBInterface.is_collection_existed self n;
     if negb existed then
       match self with
       | Chroma =>
           chromadb.create_collection n
             {[ "hnsw:space" := ChromaDBProvider.distance_method ]}
       | Qdrant =>
           qdrant_client.create_collection n (default 0 embedding_size)
             QdrantDBProvider.distance_method
       end;;
       mret true
     else mret false).
Proof.
  destruct self; simpl; [done|]. by intros [size ->].
Qed.

(** With [do_reset]: delete if present, then create. *)
Lemma create_collection_reset_run (self : vectordb_client) (n : string)
    (embedding_size : option Z) (w : world) :
  healthy w →
  size_supplied self embedding_size →
  ∃ w',
    VectorDBInterface.create_collection self n embedding_size true w
      = (Ok true, w')
    ∧ calls w' =
        calls w ++ create_collection_calls self n embedding_size true
                     (bool_decide (is_Some (store w !! n)))
    ∧ store w' = <[n := fresh_collection self embedding_size]> (store w)
    ∧ logs w' = logs w
    ∧ healthy w'.
Proof.
  intros Hh Hsz. rewrite create_collection_unfold by done.
  rewrite bind_run, delete_collection_run by done.
  set (existed := bool_decide (is_Some (store w !! n))).
  set (w1 := if existed then _ else _).
  assert (healthy w1) as Hh1.
  { subst w1. destruct existed; auto using healthy_after, healthy_with_store. }
  assert (store w1 !! n = None) as Hnone.
  { subst w1 existed. case_bool_decide as Hex; simpl.
    - apply lookup_delete_eq.
    - by apply eq_None_not_Some. }
  rewrite bind_run, is_collection_existed_run by done.
  rewrite bool_decide_eq_false_2 by (rewrite Hnone; by intros [? ?]).
  simpl. rewrite bind_run, client_create_run by auto using healthy_after.
  eexists. split; [reflexivity|]. simpl.
  split_and!.
  - subst w1. destruct existed; simpl; by rewrite <- ?app_assoc.
  - subst w1 existed. case_bool_decide; simpl; [|done].
    by rewrite insert_delete_eq.
  - subst w1. by destruct existed.
  - apply healthy_with_store. by repeat apply healthy_after.
Qed.

(** Without [do_reset]: create only if absent. *)
Lemma create_collection_keep_run (self : vectordb_client) (n : string)
    (embedding_size : option Z) (w : world) :
  healthy w →
  size_supplied self embedding_size →
  let existed := bool_decide (is_Some (store w !! n)) in
  ∃ w',
    VectorDBInterface.create_collection self n embedding_size false w
      = (Ok (negb existed), w')
    ∧ calls w' =
        calls w ++ create_collection_calls self n embedding_size false existed
    ∧ store w' =
        (if existed then store w
         else <[n := fresh_collection self embedding_size]> (store w))
    ∧ logs w' = logs w
    ∧ healthy w'.
Proof.
  intros Hh Hsz existed. rewrite create_collection_unfold by done.
  rewrite bind_run. simpl.
  rewrite bind_run, is_collection_existed_run by done.
  fold existed. destruct existed eqn:Eex; simpl.
  - eexists. split; [reflexivity|]. simpl.
    split_and!; try done. by apply healthy_after.
  - subst existed. apply bool_decide_eq_false in Eex.
    apply eq_None_not_Some in Eex.
    rewrite bind_run, client_create_run by auto using healthy_after.
    eexists. split; [reflexivity|]. simpl.
    split_and!; try done.
    + by rewrite <- app_assoc.
    + apply healthy_with_store. by repeat apply healthy_after.
Qed.

Lemma create_call_issued (self : vectordb_client) (n : string)
    (embedding_size : option Z) (do_reset existed : bool) :
  create_call self n embedding_size
    ∈ create_collection_calls self n embedding_size do_reset existed
  ↔ do_reset = true ∨ existed = false.
Proof.
  assert (create_call self n embedding_size ≠ exists_call self n) as Hne1
    by (by destruct self).
  assert (create_call self n embedding_size ≠ delete_call self n) as Hne2
    by (by destruct self).
  unfold create_collection_calls.
  destruct do_reset, existed; simpl; rewrite ?elem_of_cons, ?elem_of_nil;
    intuition congruence.
Qed.

(** C1. On a fault-free store, for either provider (Qdrant being given the
    embedding size it requires): [create_collection] answers, issues exactly
    the requests of [create_collection_calls] and writes no log line.  With
    [do_reset] it deletes the collection of that name if there is one, then
    creates it afresh, and answers [True]; without [do_reset] and with the
    name taken it creates nothing and answers [False].  In every case the
    answer is [True] exactly when a creation request was issued, and then the
    store holds a fresh, empty collection under the name; otherwise the
    store is as it was. *)
Theorem create_collection_spec (self : vectordb_client) (n : string)
    (embedding_size : option Z) (do_reset : bool) (w : world) :
  healthy w →
  size_supplied self embedding_size →
  let existed := bool_decide (is_Some (store w !! n)) in
  let issued :=
    create_collection_calls self n embedding_size do_reset existed in
  ∃ created w',
    VectorDBInterface.create_collection self n embedding_size do_reset w
      = (Ok created, w')
    ∧ calls w' = calls w ++ issued
    ∧ (created = true ↔ create_call self n embedding_size ∈ issued)
    ∧ (do_reset = true → created = true)
    ∧ (do_reset = false → is_Some (store w !! n) → created = false)
    ∧ store w' =
        (if created
         then <[n := fresh_collection self embedding_size]> (store w)
         else store w)
    ∧ logs w' = logs w
    ∧ healthy w'.
Proof.
  intros Hh Hsz existed issued. subst issued.
  destruct do_reset.
  - destruct (create_collection_reset_run self n embedding_size w Hh Hsz)
      as (w' & Hrun & Hcalls & Hstore & Hlogs & Hh').
    exists true, w'. split_and!; try done.
    rewrite create_call_issued. intuition congruence.
  - destruct (create_collection_keep_run self n embedding_size w Hh Hsz)
      as (w' & Hrun & Hcalls & Hstore & Hlogs & Hh').
    fold existed in Hrun, Hcalls, Hstore.
    exists (negb existed), w'. split_and!; try done.
    + rewrite create_call_issued. destruct existed; intuition congruence.
    + intros _ Hex. subst existed. by rewrite bool_decide_eq_true_2.
    + by destruct existed.
Qed.

(** Resetting ["cars"] on an empty Qdrant store creates it. *)
Lemma create_collection_spec_witness :
  ∃ w',
    VectorDBInterface.create_collection Qdrant "cars" (Some 1536) true
      empty_world = (Ok true, w')
    ∧ store w' = {[ "cars" := fresh_collection Qdrant (Some 1536) ]}.
Proof.
  assert (healthy empty_world) as Hh by (by constructor).
  assert (size_supplied Qdrant (Some 1536)) as Hs by (by eexists).
  destruct (create_collection_spec Qdrant "cars" (Some 1536) true empty_world
              Hh Hs) as (created & w' & Hrun & _ & _ & Htrue & _ & Hstore & _).
  rewrite (Htrue eq_refl) in Hrun, Hstore.
  exists w'. split; [exact Hrun | exact Hstore].
Defined.

(** ** Batches cover the input *)

Lemma batch_count_covers n b : (0 < b)%nat → (n ≤ batch_count n b * b)%nat.
Proof.
  intros Hb. unfold batch_count.
  assert (0 <= (Z.of_nat n + Z.of_nat b - 1) / Z.of_nat b)
    by (apply Z.div_pos; lia).
  pose proof (Z.mul_succ_div_gt (Z.of_nat n + Z.of_nat b - 1) (Z.of_nat b)).
  nia.
Qed.

Lemma batch_count_tight n b k :
  (0 < b)%nat → (k < batch_count n b)%nat → (k * b < n)%nat.
Proof.
  intros Hb. unfold batch_count. intros Hk.
  assert (0 <= (Z.of_nat n + Z.of_nat b - 1) / Z.of_nat b)
    by (apply Z.div_pos; lia).
  pose proof (Z.mul_div_le (Z.of_nat n + Z.of_nat b - 1) (Z.of_nat b)).
  nia.
Qed.

Lemma concat_batch_prefix {A} (b m : nat) (l : list A) :
  concat ((λ k, batch b k l) <$> seq 0 m) = take (m * b) l.
Proof.
  induction m as [|m IH]; [done|].
  rewrite seq_S, fmap_app, concat_app, IH. simpl.
  rewrite app_nil_r. unfold batch.
  rewrite take_take_drop. f_equal. lia.
Qed.

Lemma concat_batches {A} (b : nat) (l : list A) :
  (0 < b)%nat → concat (batches b l) = l.
Proof.
  intros Hb. unfold batches. rewrite concat_batch_prefix.
  apply take_ge. by apply batch_count_covers.
Qed.

Lemma batches_bounded {A} (b : nat) (l : list A) :
  (0 < b)%nat →
  Forall (λ x, (0 < length x ≤ b)%nat) (batches b l).
Proof.
  intros Hb. unfold batches. apply Forall_fmap, Forall_forall.
  intros k Hk. apply elem_of_seq in Hk. simpl. unfold batch.
  rewrite length_take, length_drop.
  pose proof (batch_count_tight (length l) b k Hb). lia.
Qed.

Lemma length_batches {A} (b : nat) (l : list A) :
  length (batches b l) = batch_count (length l) b.
Proof. unfold batches. by rewrite length_fmap, length_seq. Qed.

Lemma batch_zip_with {A B C} (f : A → B → C) (b k : nat) l1 l2 :
  batch b k (zip_with f l1 l2) = zip_with f (batch b k l1) (batch b k l2).
Proof. unfold batch. by rewrite zip_with_drop, zip_with_take. Qed.

Lemma length_batch_eq {A B} (b k : nat) (l1 : list A) (l2 : list B) :
  length l1 = length l2 → length (batch b k l1) = length (batch b k l2).
Proof. unfold batch. rewrite !length_take, !length_drop. lia. Qed.

(** ** The loop header and the slices *)

Lemma py_range_batches (n : nat) (batch_size : Z) :
  0 < batch_size →
  py_range 0 (Z.of_nat n) batch_size =
    Ok ((λ k : nat, 0 + Z.of_nat k * batch_size) <$>
          seq 0 (batch_count n (Z.to_nat batch_size))).
Proof.
  intros Hb. unfold py_range, batch_count.
  rewrite decide_False by lia. rewrite decide_True by done.
  rewrite Z2Nat.id by lia.
  case_decide as Hn.
  - by replace (Z.of_nat n - 0 + batch_size - 1)
       with (Z.of_nat n + batch_size - 1) by lia.
  - assert (n = 0%nat) as -> by lia. simpl.
    rewrite Z.div_small by lia. done.
Qed.

Lemma py_slice_batch {A} (l : list A) (k : nat) (batch_size : Z) :
  0 < batch_size →
  py_slice l (0 + Z.of_nat k * batch_size)
    (0 + Z.of_nat k * batch_size + batch_size)
  = batch (Z.to_nat batch_size) k l.
Proof.
  intros Hb. unfold py_slice, batch, clamp.
  assert (0 <= Z.of_nat k * batch_size) by (apply Z.mul_nonneg_nonneg; lia).
  rewrite !decide_False by lia.
  set (b := Z.to_nat batch_size).
  assert (batch_size = Z.of_nat b) as Hbs by lia.
  rewrite Hbs in *. clear Hbs.
  destruct (decide (k * b ≤ length l)%nat) as [Hle|Hgt].
  - replace (Z.to_nat (Z.min (0 + Z.of_nat k * Z.of_nat b) (Z.of_nat (length l))))
      with (k * b)%nat by lia.
    destruct (decide (k * b + b ≤ length l)%nat).
    + f_equal. lia.
    + rewrite !take_ge; [done | |]; rewrite length_drop; lia.
  - rewrite !drop_ge by lia. by rewrite !take_nil.
Qed.

(** ** One batch after the other *)

Lemma next_fault_lookup w : next_fault w = true ↔ faults w !! 0%nat = Some true.
Proof.
  unfold next_fault. destruct (faults w) as [|[] fs]; simpl; naive_solver.
Qed.

Lemma next_fault_false w :
  faults w !! 0%nat ≠ Some true → next_fault w = false.
Proof.
  intros Hf. destruct (next_fault w) eqn:E; [|done].
  by apply next_fault_lookup in E.
Qed.

Lemma drop_S_tail {A} (m : nat) (l : list A) : drop (S m) l = drop m (tail l).
Proof. destruct l; simpl; by rewrite ?drop_nil. Qed.

Lemma alter_as_insert {A} (f : A → A) (k : string) (s : gmap string A) (x : A) :
  s !! k = Some x → <[k := f x]> s = alter f k s.
Proof.
  intros Hk. apply map_eq. intros i.
  rewrite lookup_alter, lookup_insert.
  case_decide; subst; by rewrite ?Hk.
Qed.

Lemma for_each_app {A} (xs ys : list A) (body : A → M unit) (w : world) :
  for_each (xs ++ ys) body w =
    match for_each xs body w with
    | (Ok _, w1) => for_each ys body w1
    | (Raise e, w1) => (Raise e, w1)
    end.
Proof.
  revert w. induction xs as [|x xs IH]; intros w; [reflexivity|].
  simpl. rewrite !bind_run.
  destruct (body x w) as [[[]|e] w1]; [apply IH|reflexivity].
Qed.

Lemma after_batches_zero self name texts vectors metadata record_ids b j w :
  after_batches self name texts vectors metadata record_ids b j 0 w = w.
Proof.
  unfold after_batches. simpl. rewrite drop_0, app_nil_r. by destruct w.
Qed.

(** Storing batch [j] and then the [m] batches after it is storing the
    [S m] batches from [j] on. *)
Lemma after_batches_step self name texts vectors metadata record_ids b j m w :
  after_batches self name texts vectors metadata record_ids b (S j) m
    (with_store
       (store_batch self name (store w)
          (batch b j (records self texts vectors metadata record_ids)))
       (after (batch_call self name texts vectors metadata record_ids b j) w))
  = after_batches self name texts vectors metadata record_ids b j (S m) w.
Proof.
  unfold after_batches, with_store, after. simpl.
  f_equal.
  - by rewrite drop_S_tail.
  - by rewrite <- app_assoc.
Qed.


Lemma persist_keeps self name s bs :
  is_Some (s !! name) → is_Some (persist self name s bs !! name).
Proof.
  revert s. induction bs as [|pts bs IH]; intros s Hs; [done|].
  simpl. apply IH. unfold store_batch. rewrite lookup_alter.
  rewrite decide_True by done. destruct Hs as [c ->]. by eexists.
Qed.

Lemma lookup_tail_S {A} (l : list A) (i : nat) : tail l !! i = l !! S i.
Proof. by destruct l. Qed.

Section batches_of_one_call.
Context (name : string) (texts : list string) (vectors : list embedding).
Context (metadata : option (list (gmap string string))).
Context (record_ids : option (list point_id)) (batch_size : Z).
Hypothesis Hsize : 0 < batch_size.
Hypothesis Hlen : same_lengths texts vectors metadata record_ids.

Let b : nat := Z.to_nat batch_size.
Let start (k : nat) : Z := 0 + Z.of_nat k * batch_size.

Lemma length_chroma_metadata :
  length (chroma_metadata texts metadata) = length texts.
Proof using Hlen.
  unfold chroma_metadata. destruct metadata as [l|]; simpl.
  - by apply Hlen.
  - by rewrite length_replicate.
Qed.

Lemma length_chroma_ids : length (chroma_ids texts record_ids) = length texts.
Proof using Hlen.
  unfold chroma_ids. destruct record_ids as [l|]; simpl.
  - by apply Hlen.
  - by rewrite length_fmap, length_seq.
Qed.

Lemma length_qdrant_metadata :
  length (qdrant_metadata texts metadata) = length texts.
Proof using Hlen.
  unfold qdrant_metadata. destruct metadata as [l|]; simpl.
  - rewrite length_fmap. by apply Hlen.
  - by rewrite length_replicate.
Qed.

Lemma length_qdrant_ids : length (qdrant_ids texts record_ids) = length texts.
Proof using Hlen.
  unfold qdrant_ids. destruct record_ids as [l|]; simpl.
  - by apply Hlen.
  - by rewrite length_fmap, length_seq.
Qed.

Lemma length_vectors : length vectors = length texts.
Proof using Hlen. apply Hlen. Qed.

(** One pass of Chroma's loop: the request is made; unless it faults, the
    batch is stored. *)
Lemma chroma_add_batch_run (h : chromadb.handle) (k : nat) (w : world) :
  chromadb.h_name h = name →
  is_Some (store w !! name) →
  ChromaDBProvider.add_batch h texts vectors (chroma_metadata texts metadata)
    (chroma_ids texts record_ids) batch_size (start k) w =
    if next_fault w then
      (Raise (Exn ClientError "client request failed"),
       after (batch_call Chroma name texts vectors metadata record_ids b k) w)
    else
      (Ok tt,
       with_store
         (store_batch Chroma name (store w)
            (batch b k (records Chroma texts vectors metadata record_ids)))
         (after (batch_call Chroma name texts vectors metadata record_ids b k) w)).
Proof.
  intros Hname [c Hc]. unfold ChromaDBProvider.add_batch, start.
  rewrite !py_slice_batch by done. fold b.
  unfold chromadb.add. rewrite Hname. unfold_monad. simpl.
  destruct (next_fault w); [done|].
  rewrite bool_decide_eq_true_2; simpl.
  - rewrite Hc. f_equal. unfold with_store. simpl. f_equal.
    unfold store_batch. rewrite <- (alter_as_insert _ _ _ c) by done.
    simpl. do 3 f_equal. unfold chromadb.zip_points.
    by rewrite !batch_zip_with.
  - split_and!; apply length_batch_eq;
      by rewrite ?length_chroma_metadata, ?length_chroma_ids, ?length_vectors.
Qed.

Lemma chroma_loop_ok (h : chromadb.handle) (m j : nat) (w : world) :
  chromadb.h_name h = name →
  is_Some (store w !! name) →
  (∀ i, (i < m)%nat → faults w !! i ≠ Some true) →
  for_each (start <$> seq j m)
    (ChromaDBProvider.add_batch h texts vectors (chroma_metadata texts metadata)
       (chroma_ids texts record_ids) batch_size) w
  = (Ok tt,
     after_batches Chroma name texts vectors metadata record_ids b j m w).
Proof.
  intros Hname. revert j w. induction m as [|m IH]; intros j w Hs Hf.
  - by rewrite after_batches_zero.
  - simpl. rewrite bind_run, chroma_add_batch_run by done.
    rewrite next_fault_false by (apply Hf; lia).
    rewrite IH.
    + by rewrite after_batches_step.
    + simpl. unfold store_batch. rewrite lookup_alter, decide_True by done.
      destruct Hs as [c ->]. by eexists.
    + intros i Hi. simpl. rewrite lookup_tail_S. apply Hf. lia.
Qed.


(** Chroma's [insert_many] when the collection was fetched and the first
    [n] batches met no fault. *)
Lemma chroma_insert_many_run (w : world) :
  next_fault w = false →
  is_Some (store w !! name) →
  ChromaDBProvider.insert_many name texts vectors metadata record_ids
    batch_size w =
    try_except
      (for_each (start <$> seq 0 (batch_count (length texts) b))
         (ChromaDBProvider.add_batch
            {| chromadb.h_name := name;
               chromadb.h_metadata :=
                 from_option cconfig (ChromaMetadata ∅) (store w !! name) |}
            texts vectors (chroma_metadata texts metadata)
            (chroma_ids texts record_ids) batch_size);;
       mret true)
      (λ e,
       logger ERROR ("Error while inserting batch: " +:+ exn_text e);;
       mret false)
      (after (ChromaGetCollection name) w).
Proof.
  intros Hf [c Hc]. unfold ChromaDBProvider.insert_many.
  fold (chroma_metadata texts metadata) (chroma_ids texts record_ids).
  unfold try_except at 1. rewrite bind_run.
  unfold chromadb.get_collection at 1. rewrite bind_run.
  unfold request at 1. rewrite Hf. rewrite bind_run.
  unfold get_store at 1. simpl. rewrite Hc. simpl.
  rewrite bind_run. unfold lift at 1.
  rewrite py_range_batches by done. fold b.
  unfold try_except at 1. reflexivity.
Qed.

Lemma records_length self :
  length (records self texts vectors metadata record_ids) = length texts.
Proof using Hlen.
  clear Hsize start b.
  destruct self; simpl.
  - unfold chromadb.zip_points. rewrite !length_zip_with.
    rewrite length_chroma_metadata, length_chroma_ids, length_vectors. lia.
  - unfold qdrant_points. rewrite !length_zip_with.
    rewrite length_qdrant_metadata, length_qdrant_ids, length_vectors. lia.
Qed.


Lemma chroma_insert_many_ok (w : world) :
  next_fault w = false →
  is_Some (store w !! name) →
  (∀ i, (i < batch_count (length texts) b)%nat →
        tail (faults w) !! i ≠ Some true) →
  ChromaDBProvider.insert_many name texts vectors metadata record_ids
    batch_size w =
    (Ok true,
     after_batches Chroma name texts vectors metadata record_ids b 0
       (batch_count (length texts) b) (after (ChromaGetCollection name) w)).
Proof.
  intros Hf Hs Hfs. rewrite chroma_insert_many_run by done.
  unfold try_except. rewrite bind_run, chroma_loop_ok; done.
Qed.

Lemma chroma_insert_many_fail (w : world) (k : nat) :
  next_fault w = false →
  is_Some (store w !! name) →
  (k < batch_count (length texts) b)%nat →
  tail (faults w) !! k = Some true →
  (∀ i, (i < k)%nat → tail (faults w) !! i ≠ Some true) →
  ChromaDBProvider.insert_many name texts vectors metadata record_ids
    batch_size w =
    (Ok false,
     logged ERROR "Error while inserting batch: client request failed"
       (after (batch_call Chroma name texts vectors metadata record_ids b k)
          (after_batches Chroma name texts vectors metadata record_ids b 0 k
             (after (ChromaGetCollection name) w)))).
Proof.
  intros Hf Hs Hk Hbad Hgood. rewrite chroma_insert_many_run by done.
  replace (batch_count (length texts) b)
    with (k + S (batch_count (length texts) b - S k))%nat by lia.
  rewrite seq_app, fmap_app. simpl.
  unfold try_except. rewrite bind_run, for_each_app.
  rewrite chroma_loop_ok by done. simpl.
  rewrite bind_run, chroma_add_batch_run; [|done|].
  - assert (next_fault
              (after_batches Chroma name texts vectors metadata record_ids b 0 k
                 (after (ChromaGetCollection name) w)) = true) as ->.
    { apply next_fault_lookup. simpl. by rewrite lookup_drop, Nat.add_0_r. }
    reflexivity.
  - simpl. by apply persist_keeps.
Qed.

(** ** Qdrant's loop *)

Lemma batch_records_ok (ts : list string) (vs : list embedding)
    (ms : list (option (gmap string string))) (ids : list point_id) :
  length vs = length ts → length ms = length ts → length ids = length ts →
  QdrantDBProvider.batch_records ts vs ms ids = Ok (qdrant_points ts vs ms ids).
Proof.
  unfold QdrantDBProvider.batch_records.
  revert vs ms ids.
  induction ts as [|t ts IH]; intros [|v vs] [|m ms] [|i ids] Hv Hm Hi;
    simplify_eq/=; [done|].
  rewrite <- fmap_S_seq, <- list_fmap_compose.
  unfold compose. simpl.
  erewrite list_fmap_ext; [rewrite IH by done|]; [done|].
  intros ? x _. reflexivity.
Qed.

Lemma qdrant_batch_run (k : nat) (rest : list Z) (w : world) :
  is_Some (store w !! name) →
  QdrantDBProvider.upload_batches name texts vectors
    (qdrant_metadata texts metadata) (qdrant_ids texts record_ids) batch_size
    (start k :: rest) w =
    if next_fault w then
      (Ok false,
       logged ERROR
         ("Error while inserting batch [" +:+ pretty (start k) +:+ ":"
          +:+ pretty (start k + batch_size) +:+ "]: client request failed")
         (after (batch_call Qdrant name texts vectors metadata record_ids b k) w))
    else
      QdrantDBProvider.upload_batches name texts vectors
        (qdrant_metadata texts metadata) (qdrant_ids texts record_ids)
        batch_size rest
        (with_store
           (store_batch Qdrant name (store w)
              (batch b k (records Qdrant texts vectors metadata record_ids)))
           (after (batch_call Qdrant name texts vectors metadata record_ids b k)
              w)).
Proof.
  intros [c Hc]. simpl. rewrite bind_run. unfold start.
  rewrite !py_slice_batch by done. fold b.
  rewrite batch_records_ok by
    (apply length_batch_eq;
     by rewrite ?length_qdrant_metadata, ?length_qdrant_ids, ?length_vectors).
  unfold qdrant_points. rewrite <- !batch_zip_with.
  fold (qdrant_points texts vectors (qdrant_metadata texts metadata)
          (qdrant_ids texts record_ids)).
  unfold lift at 1. rewrite bind_run.
  unfold try_except at 1. rewrite bind_run.
  unfold qdrant_client.upload_records at 1. rewrite bind_run.
  unfold request at 1.
  destruct (next_fault w); [reflexivity|].
  rewrite bind_run. unfold get_store at 1. simpl. rewrite Hc.
  unfold put_store at 1. simpl. do 2 f_equal.
  unfold store_batch. by rewrite <- (alter_as_insert _ _ _ c).
Qed.

Lemma qdrant_loop_ok (m j : nat) (rest : list Z) (w : world) :
  is_Some (store w !! name) →
  (∀ i, (i < m)%nat → faults w !! i ≠ Some true) →
  QdrantDBProvider.upload_batches name texts vectors
    (qdrant_metadata texts metadata) (qdrant_ids texts record_ids) batch_size
    ((start <$> seq j m) ++ rest) w
  = QdrantDBProvider.upload_batches name texts vectors
      (qdrant_metadata texts metadata) (qdrant_ids texts record_ids) batch_size
      rest
      (after_batches Qdrant name texts vectors metadata record_ids b j m w).
Proof.
  revert j w. induction m as [|m IH]; intros j w Hs Hf.
  - by rewrite after_batches_zero.
  - rewrite <- cons_seq, fmap_cons, <- app_comm_cons.
    rewrite qdrant_batch_run by done.
    rewrite next_fault_false by (apply Hf; lia).
    rewrite IH.
    + by rewrite after_batches_step.
    + simpl. unfold store_batch. rewrite lookup_alter, decide_True by done.
      destruct Hs as [c ->]. by eexists.
    + intros i Hi. simpl. rewrite lookup_tail_S. apply Hf. lia.
Qed.

Lemma qdrant_insert_many_run (w : world) :
  QdrantDBProvider.insert_many name texts vectors metadata record_ids
    batch_size w =
    QdrantDBProvider.upload_batches name texts vectors
      (qdrant_metadata texts metadata) (qdrant_ids texts record_ids) batch_size
      (start <$> seq 0 (batch_count (length texts) b)) w.
Proof.
  unfold QdrantDBProvider.insert_many.
  fold (qdrant_metadata texts metadata) (qdrant_ids texts record_ids).
  rewrite bind_run. unfold lift. by rewrite py_range_batches.
Qed.

Lemma qdrant_insert_many_ok (w : world) :
  is_Some (store w !! name) →
  (∀ i, (i < batch_count (length texts) b)%nat → faults w !! i ≠ Some true) →
  QdrantDBProvider.insert_many name texts vectors metadata record_ids
    batch_size w =
    (Ok true,
     after_batches Qdrant name texts vectors metadata record_ids b 0
       (batch_count (length texts) b) w).
Proof.
  intros Hs Hfs. rewrite qdrant_insert_many_run.
  rewrite <- (app_nil_r (start <$> _)). by rewrite qdrant_loop_ok.
Qed.

Lemma qdrant_insert_many_fail (w : world) (k : nat) :
  is_Some (store w !! name) →
  (k < batch_count (length texts) b)%nat →
  faults w !! k = Some true →
  (∀ i, (i < k)%nat → faults w !! i ≠ Some true) →
  QdrantDBProvider.insert_many name texts vectors metadata record_ids
    batch_size w =
    (Ok false,
     logged ERROR
       ("Error while inserting batch [" +:+ pretty (start k) +:+ ":"
        +:+ pretty (start k + batch_size) +:+ "]: client request failed")
       (after (batch_call Qdrant name texts vectors metadata record_ids b k)
          (after_batches Qdrant name texts vectors metadata record_ids b 0 k
             w))).
Proof.
  intros Hs Hk Hbad Hgood. rewrite qdrant_insert_many_run.
  replace (batch_count (length texts) b)
    with (k + S (batch_count (length texts) b - S k))%nat by lia.
  rewrite seq_app, fmap_app. rewrite qdrant_loop_ok by done.
  simpl seq. rewrite fmap_cons.
  rewrite qdrant_batch_run by (by apply persist_keeps).
  assert (next_fault
            (after_batches Qdrant name texts vectors metadata record_ids b 0 k w)
          = true) as ->; [|done].
  apply next_fault_lookup. simpl. by rewrite lookup_drop, Nat.add_0_r.
Qed.

End batches_of_one_call.

(** C3. [insert_many] with a positive batch size [b], on a collection that
    exists (and, for Chroma, was fetched), with argument lists of one
    length.  The records are split into the consecutive batches of
    [batches b]: non-empty, of at most [b] records, and together the input
    in its order.  If the first fault of the client falls on batch [k + 1],
    the requests made are those of the batches [1 .. k + 1] in order and no
    other, the batches [1 .. k] are persisted, one error is logged and the
    answer is [False].  If no batch faults, every batch is requested and
    persisted in order, nothing is logged and the answer is [True]. *)
Theorem insert_many_batches (self : vectordb_client) (name : string)
    (texts : list string) (vectors : list embedding)
    (metadata : option (list (gmap string string)))
    (record_ids : option (list point_id)) (batch_size : Z) (w : world) :
  0 < batch_size →
  same_lengths texts vectors metadata record_ids →
  is_Some (store w !! name) →
  fetch_ok self w →
  let b := Z.to_nat batch_size in
  let bs := batches b (records self texts vectors metadata record_ids) in
  let fs := batch_faults self w in
  let request_of := batch_call self name texts vectors metadata record_ids b in
  (concat bs = records self texts vectors metadata record_ids
   ∧ Forall (λ pts, (0 < length pts ≤ b)%nat) bs)
  ∧ (∀ k : nat,
       (k < length bs)%nat →
       fs !! k = Some true →
       (∀ i, (i < k)%nat → fs !! i ≠ Some true) →
       ∃ w' line,
         VectorDBInterface.insert_many self name texts vectors metadata
           record_ids batch_size w = (Ok false, w')
         ∧ calls w' =
             calls w ++ fetch_calls self name ++ (request_of <$> seq 0 (S k))
         ∧ store w' = persist self name (store w) (take k bs)
         ∧ logs w' = logs w ++ [Log ERROR line])
  ∧ ((∀ i, (i < length bs)%nat → fs !! i ≠ Some true) →
       ∃ w',
         VectorDBInterface.insert_many self name texts vectors metadata
           record_ids batch_size w = (Ok true, w')
         ∧ calls w' =
             calls w ++ fetch_calls self name
               ++ (request_of <$> seq 0 (length bs))
         ∧ store w' = persist self name (store w) bs
         ∧ logs w' = logs w).
Proof.
  intros Hsize Hlen Hs Hfetch b bs fs request_of.
  assert (0 < b)%nat as Hb by (subst b; lia).
  assert (length bs = batch_count (length texts) b) as Hnb.
  { subst bs. by rewrite length_batches, records_length. }
  split; [split|split].
  - by apply concat_batches.
  - by apply batches_bounded.
  - intros k Hk Hbad Hgood. rewrite Hnb in Hk.
    assert (take k bs =
            (λ k, batch b k (records self texts vectors metadata record_ids))
              <$> seq 0 k) as Htake.
    { subst bs. unfold batches. rewrite <- fmap_take, take_seq.
      rewrite records_length by done. do 2 f_equal. lia. }
    rewrite Htake. subst fs request_of.
    destruct self;
      unfold fetch_ok, batch_faults, VectorDBInterface.insert_many,
        fetch_calls in *.
    + eexists _, _. split; [by apply chroma_insert_many_fail|].
      split_and!; [|done|done].
      cbn [calls logged after after_batches].
      rewrite seq_S, fmap_app. simpl. by rewrite <- !app_assoc.
    + eexists _, _. split; [by apply qdrant_insert_many_fail|].
      split_and!; [|done|done].
      cbn [calls logged after after_batches].
      rewrite seq_S, fmap_app. simpl. by rewrite <- !app_assoc.
  - intros Hgood. rewrite Hnb in *.
    assert (bs =
            (λ k, batch b k (records self texts vectors metadata record_ids))
              <$> seq 0 (batch_count (length texts) b)) as Hbs.
    { subst bs. unfold batches. by rewrite records_length. }
    rewrite Hbs. subst fs request_of.
    destruct self;
      unfold fetch_ok, batch_faults, VectorDBInterface.insert_many,
        fetch_calls in *.
    + eexists. split; [by apply chroma_insert_many_ok|].
      split_and!; [|done|done].
      cbn [calls after after_batches]. by rewrite <- !app_assoc.
    + eexists. split; [by apply qdrant_insert_many_ok|]. done.
Qed.

(** Five records in batches of one, the client faulting on the third
    request: two records are stored and the answer is [False]. *)
Lemma insert_many_batches_witness :
  ∃ w',
    VectorDBInterface.insert_many Qdrant "cars" five_texts five_vectors
      None None 1 (cars_world Qdrant [false; false; true]) = (Ok false, w')
    ∧ (length ∘ cpoints) <$> (store w' !! "cars") = Some 2%nat
    ∧ length (calls w') = 3%nat.
Proof.
  assert (0 < 1) as Hsize by lia.
  assert (same_lengths five_texts five_vectors None None) as Hlen
    by (by split_and!).
  assert (is_Some (store (cars_world Qdrant [false; false; true]) !! "cars"))
    as Hs by (by eexists).
  assert (fetch_ok Qdrant (cars_world Qdrant [false; false; true])) as Hf
    by exact I.
  destruct (insert_many_batches Qdrant "cars" five_texts five_vectors None None
              1 (cars_world Qdrant [false; false; true]) Hsize Hlen Hs Hf)
    as (_ & Hfail & _).
  destruct (Hfail 2%nat) as (w' & line & Hrun & Hcalls & Hstore & _).
  - vm_compute. lia.
  - reflexivity.
  - intros [|[|i]] Hi; [discriminate | discriminate | lia].
  - exists w'. split; [exact Hrun|]. rewrite Hstore, Hcalls. split; reflexivity.
Defined.

(** ** Searching *)

Lemma try_except_total {A} (body : M A) (handler : exn → M A) (w : world) :
  (∀ e w1, ∃ a w2, handler e w1 = (Ok a, w2)) →
  ∃ a w', try_except body handler w = (Ok a, w').
Proof.
  intros Hh. unfold try_except.
  destruct (body w) as [[a|e] w1]; [by eexists _, _ | apply Hh].
Qed.

(** Chroma's [search_by_vector] answers whatever the client does. *)
Lemma chroma_search_by_vector_total `{Externals} (n : string) (v : embedding)
    (limit : Z) (w : world) :
  ∃ r w', ChromaDBProvider.search_by_vector n v limit w = (Ok r, w').
Proof.
  apply try_except_total. intros e w1. by eexists _, _.
Qed.

Lemma chroma_get_collection_run (n : string) (w : world) :
  chromadb.get_collection n w =
    (if next_fault w then Raise (Exn ClientError "client request failed")
     else match store w !! n with
          | Some c =>
              Ok {| chromadb.h_name := n; chromadb.h_metadata := cconfig c |}
          | None => Raise (Exn ValueError
                             ("Collection " +:+ n +:+ " does not exist"))
          end,
     after (ChromaGetCollection n) w).
Proof.
  unfold chromadb.get_collection, missing_collection. unfold_monad.
  destruct (next_fault w); [done|]. simpl. by destruct (store w !! n).
Qed.

Lemma chroma_count_run (h : chromadb.handle) (w : world) :
  chromadb.count h w =
    (if next_fault w then Raise (Exn ClientError "client request failed")
     else match store w !! chromadb.h_name h with
          | Some c => Ok (length (cpoints c))
          | None => Raise (Exn ValueError
                             ("Collection " +:+ chromadb.h_name h
                              +:+ " does not exist"))
          end,
     after (ChromaCount (chromadb.h_name h)) w).
Proof.
  unfold chromadb.count, missing_collection. unfold_monad.
  destruct (next_fault w); [done|]. simpl.
  by destruct (store w !! chromadb.h_name h).
Qed.

Lemma chroma_query_run `{Externals} (h : chromadb.handle) (v : embedding)
    (limit : Z) (w : world) :
  chromadb.query h v limit w =
    (if next_fault w then Raise (Exn ClientError "client request failed")
     else match store w !! chromadb.h_name h with
          | Some c => chroma_query (cpoints c) v limit
          | None => Raise (Exn ValueError
                             ("Collection " +:+ chromadb.h_name h
                              +:+ " does not exist"))
          end,
     after (ChromaQuery (chromadb.h_name h) v limit) w).
Proof.
  unfold chromadb.query, missing_collection. unfold_monad.
  destruct (next_fault w); [done|]. simpl.
  by destruct (store w !! chromadb.h_name h).
Qed.

Lemma qdrant_search_run `{Externals} (n : string) (v : embedding) (limit : Z)
    (w : world) :
  qdrant_client.search n v limit w =
    (if next_fault w then Raise (Exn ClientError "client request failed")
     else match store w !! n with
          | Some c => qdrant_search (cpoints c) v limit
          | None => Raise (Exn ValueError
                             ("Collection " +:+ n +:+ " does not exist"))
          end,
     after (QdrantSearch n v limit) w).
Proof.
  unfold qdrant_client.search, missing_collection. unfold_monad.
  destruct (next_fault w); [done|]. simpl. by destruct (store w !! n).
Qed.

(** Qdrant's [search_by_vector] hands a fault of the client on to its
    caller. *)
Lemma qdrant_search_by_vector_fault `{Externals} (n : string) (v : embedding)
    (limit : Z) (w : world) :
  next_fault w = true →
  QdrantDBProvider.search_by_vector n v limit w =
    (Raise (Exn ClientError "client request failed"),
     after (QdrantSearch n v limit) w).
Proof.
  intros Hf. unfold QdrantDBProvider.search_by_vector.
  by rewrite bind_run, qdrant_search_run, Hf.
Qed.

(** Both providers answer [None] when the client finds nothing. *)
Lemma search_by_vector_no_match `{Externals} (self : vectordb_client)
    (n : string) (v : embedding) (limit : Z) (w : world) (c : collection) :
  healthy w →
  store w !! n = Some c →
  chroma_query (cpoints c) v limit
    = Ok (Some {| qr_ids := Some [[]]; qr_documents := Some [[]];
                  qr_distances := Some [[]] |}) →
  qdrant_search (cpoints c) v limit = Ok [] →
  ∃ w', VectorDBInterface.search_by_vector self n v limit w = (Ok None, w')
        ∧ logs w' = logs w.
Proof.
  intros Hh Hc Hq1 Hq2. destruct self; simpl.
  - unfold ChromaDBProvider.search_by_vector, try_except.
    rewrite bind_run, chroma_get_collection_run.
    rewrite healthy_next_fault, Hc by done.
    rewrite bind_run, chroma_query_run.
    rewrite healthy_next_fault by auto using healthy_after.
    simpl. rewrite Hc, Hq1. simpl. by eexists.
  - unfold QdrantDBProvider.search_by_vector.
    rewrite bind_run, qdrant_search_run.
    rewrite healthy_next_fault, Hc, Hq2 by done. simpl. by eexists.
Qed.

(** C2. On a store without the collection ["cars"], searching that
    collection through Chroma's provider logs the error of the client and
    answers [None]; through Qdrant's provider the error of the client
    reaches the caller.  The same happens when the collection exists and
    the client faults. *)
Theorem qdrant_search_by_vector_raises :
  @VectorDBInterface.search_by_vector sample_externals Chroma "cars"
    sample_vector 5 empty_world
  = (Ok None,
     logged ERROR "Error during search: Collection cars does not exist"
       (after (ChromaGetCollection "cars") empty_world))
  ∧ @VectorDBInterface.search_by_vector sample_externals Qdrant "cars"
      sample_vector 5 empty_world
    = (Raise (Exn ValueError "Collection cars does not exist"),
       after (QdrantSearch "cars" sample_vector 5) empty_world)
  ∧ @VectorDBInterface.search_by_vector sample_externals Qdrant "cars"
      sample_vector 5 (cars_world Qdrant [true])
    = (Raise (Exn ClientError "client request failed"),
       after (QdrantSearch "cars" sample_vector 5) (cars_world Qdrant [true])).
Proof. split_and!; reflexivity. Qed.

(** ** Inserting into a collection that does not exist *)

Lemma insert_one_missing `{Externals} (self : vectordb_client) (n txt : string)
    (v : embedding) (metadata : option (gmap string string))
    (record_id : option string) (w : world) :
  store w !! n = None →
  next_fault w = false →
  ∃ line,
    VectorDBInterface.insert_one self n txt v metadata record_id w =
      (Ok false, logged ERROR line (after (exists_call self n) w)).
Proof.
  intros Hn Hf. destruct self; simpl.
  - unfold ChromaDBProvider.insert_one. rewrite bind_run.
    rewrite chroma_is_collection_existed_run, Hf.
    rewrite bool_decide_eq_false_2 by (rewrite Hn; by intros [? ?]).
    by eexists.
  - unfold QdrantDBProvider.insert_one. rewrite bind_run.
    rewrite qdrant_is_collection_existed_run, Hf.
    rewrite bool_decide_eq_false_2 by (rewrite Hn; by intros [? ?]).
    by eexists.
Qed.

Lemma chroma_insert_many_missing (n : string) (texts : list string)
    (vectors : list embedding) (metadata : option (list (gmap string string)))
    (record_ids : option (list point_id)) (batch_size : Z) (w : world) :
  store w !! n = None →
  ∃ line,
    ChromaDBProvider.insert_many n texts vectors metadata record_ids batch_size w
    = (Ok false, logged ERROR line (after (ChromaGetCollection n) w)).
Proof.
  intros Hn. unfold ChromaDBProvider.insert_many, try_except.
  rewrite bind_run, chroma_get_collection_run, Hn.
  destruct (next_fault w); by eexists.
Qed.

(** Qdrant's [insert_many] notices the missing collection only through the
    failure of its first upload. *)
Lemma qdrant_insert_many_missing (n : string) (texts : list string)
    (vectors : list embedding) (metadata : option (list (gmap string string)))
    (record_ids : option (list point_id)) (batch_size : Z) (w : world) :
  store w !! n = None →
  0 < batch_size →
  same_lengths texts vectors metadata record_ids →
  texts ≠ [] →
  ∃ line,
    QdrantDBProvider.insert_many n texts vectors metadata record_ids batch_size w
    = (Ok false,
       logged ERROR line
         (after (batch_call Qdrant n texts vectors metadata record_ids
                   (Z.to_nat batch_size) 0) w)).
Proof.
  intros Hn Hsize Hlen Hne.
  rewrite qdrant_insert_many_run by done.
  assert (batch_count (length texts) (Z.to_nat batch_size) ≠ 0%nat) as Hcount.
  { intros Hz. pose proof (batch_count_covers (length texts)
                             (Z.to_nat batch_size)) as Hc.
    rewrite Hz in Hc. destruct texts; [done|]. simpl in Hc. lia. }
  destruct (batch_count _ _) as [|m]; [done|].
  rewrite <- cons_seq, fmap_cons.
  cbn [QdrantDBProvider.upload_batches]. rewrite bind_run.
  rewrite !py_slice_batch by done.
  rewrite batch_records_ok by
    (apply length_batch_eq;
     by rewrite ?(length_qdrant_metadata _ _ _ _ Hlen),
          ?(length_qdrant_ids _ _ _ _ Hlen), ?(length_vectors _ _ _ _ Hlen)).
  unfold lift at 1. rewrite bind_run. unfold try_except at 1.
  rewrite bind_run. unfold qdrant_client.upload_records at 1.
  rewrite bind_run. unfold request at 1.
  unfold qdrant_points. rewrite <- !batch_zip_with.
  destruct (next_fault w); [by eexists|].
  rewrite bind_run. unfold get_store at 1. simpl. rewrite Hn.
  by eexists.
Qed.

(** C4. Against a store without the collection ["cars"], Qdrant's
    [insert_many] answers [True] and logs nothing when it is given no
    record, and raises a [ValueError] when the batch size is 0; on the same
    calls Chroma's provider logs an error and answers [False]. *)
Theorem qdrant_insert_many_missing_collection :
  VectorDBInterface.insert_many Qdrant "cars" [] [] None None 50 empty_world
  = (Ok true, empty_world)
  ∧ VectorDBInterface.insert_many Qdrant "cars" ["t1"] [sample_vector]
      None None 0 empty_world
    = (Raise (Exn ValueError "range() arg 3 must not be zero"), empty_world)
  ∧ VectorDBInterface.insert_many Chroma "cars" [] [] None None 50 empty_world
    = (Ok false,
       logged ERROR "Error while inserting batch: Collection cars does not exist"
         (after (ChromaGetCollection "cars") empty_world))
  ∧ VectorDBInterface.insert_many Chroma "cars" ["t1"] [sample_vector]
      None None 0 empty_world
    = (Ok false,
       logged ERROR "Error while inserting batch: Collection cars does not exist"
         (after (ChromaGetCollection "cars") empty_world)).
Proof. split_and!; reflexivity. Qed.

(** ** Preparing a table *)

Lemma append_cons (a : ascii) (s t : string) :
  String a s +:+ t = String a (s +:+ t).
Proof. reflexivity. Qed.

Lemma append_assoc (s1 s2 s3 : string) :
  (s1 +:+ s2) +:+ s3 = s1 +:+ s2 +:+ s3.
Proof.
  induction s1 as [|a s1 IH]; [done|].
  by rewrite !append_cons, IH.
Qed.

Lemma append_nil_r (s : string) : s +:+ "" = s.
Proof.
  induction s as [|a s IH]; [done|]. by rewrite append_cons, IH.
Qed.

(** With distinct labels, [row[col]] is the cell at the column's place. *)
Lemma row_get_middle (pre rest : list string) (rpre rrest : list string)
    (c v : string) :
  c ∉ pre → length pre = length rpre →
  DataProcessController.row_get (pre ++ c :: rest) (rpre ++ v :: rrest) c
  = Ok v.
Proof.
  revert rpre. induction pre as [|p pre IH]; intros [|r rpre] Hnin Hlen;
    simplify_eq/=.
  - by rewrite decide_True.
  - rewrite decide_False by set_solver. apply IH; [set_solver|done].
Qed.

Lemma row_text_suffix (pre todo : list string) (rpre rtodo : list string)
    (output_str : string) :
  NoDup (pre ++ todo) → length pre = length rpre →
  length todo = length rtodo →
  DataProcessController.row_text (pre ++ todo) (rpre ++ rtodo) todo output_str
  = Ok (output_str +:+ serialized todo rtodo).
Proof.
  revert pre rpre rtodo output_str.
  induction todo as [|c todo IH]; intros pre rpre [|v rtodo] out Hnd Hp Ht;
    simplify_eq/=.
  - by rewrite append_nil_r.
  - rewrite row_get_middle; [|by apply NoDup_app in Hnd as (_ & Hd & _);
                                 intros ?; eapply Hd; [|left] | done].
    simpl.
    replace (pre ++ c :: todo) with ((pre ++ [c]) ++ todo)
      by (by rewrite <- app_assoc).
    replace (rpre ++ v :: rtodo) with ((rpre ++ [v]) ++ rtodo)
      by (by rewrite <- app_assoc).
    rewrite IH.
    + by rewrite !append_assoc.
    + by rewrite <- app_assoc.
    + rewrite !length_app. simpl. lia.
    + done.
Qed.

Lemma row_text_ok (cols row : list string) :
  NoDup cols → length row = length cols →
  DataProcessController.row_text cols row cols "" = Ok (serialized cols row).
Proof.
  intros Hnd Hlen.
  by apply (row_text_suffix [] cols [] row "").
Qed.

(** The outer loop appends, for every row, its text, the source, its id and
    its embedding. *)
Lemma rows_loop_ok `{Externals} (self : DataProcessController.t)
    (cols : list string) (file_name : string) (rows : list (list string))
    (j : nat) (docs : list string) (metadatas : list (gmap string string))
    (ids : list string) (embeddings : list embedding) :
  NoDup cols →
  Forall (λ row, length row = length cols) rows →
  (∀ row, row ∈ rows →
     ∃ e, embed_text (DataProcessController.client self) (serialized cols row)
          = Ok e) →
  ∃ es,
    Forall2 (λ row e,
      embed_text (DataProcessController.client self) (serialized cols row)
      = Ok e) rows es
    ∧ DataProcessController.rows_loop self cols file_name
        (zip (seq j (length rows)) rows) (docs, metadatas, ids, embeddings)
      = Ok (docs ++ (serialized cols <$> rows),
            metadatas ++ replicate (length rows) {[ "source" := file_name ]},
            ids ++ ((λ i : nat, "id" +:+ pretty i) <$> seq j (length rows)),
            embeddings ++ es).
Proof.
  intros Hnd. revert j docs metadatas ids embeddings.
  induction rows as [|row rows IH]; intros j docs metadatas ids embeddings
    Hlen Hemb.
  - exists []. split; [constructor|]. simpl. by rewrite !app_nil_r.
  - apply Forall_cons in Hlen as [Hrow Hlen].
    destruct (Hemb row) as [e He]; [set_solver|].
    destruct (IH (S j) (docs ++ [serialized cols row])
                (metadatas ++ [{[ "source" := file_name ]}])
                (ids ++ ["id" +:+ pretty j]) (embeddings ++ [e]) Hlen)
      as (es & Hes & Hrun); [intros; apply Hemb; set_solver|].
    exists (e :: es). split; [by constructor|].
    simpl. rewrite row_text_ok by done. simpl. rewrite He. simpl.
    rewrite Hrun. by rewrite <- !app_assoc.
Qed.

Lemma prepare_data_for_injection_run `{Externals}
    (self : DataProcessController.t) (df : DataFrame) (file_name : string)
    (w : world) :
  well_formed df →
  embeddable (DataProcessController.client self) df →
  ∃ es,
    Forall2 (λ row e,
      embed_text (DataProcessController.client self)
        (serialized (columns df) row) = Ok e) (cells df) es
    ∧ DataProcessController.prepare_data_for_injection self df file_name w
      = (Ok (serialized (columns df) <$> cells df,
             replicate (length (cells df)) {[ "source" := file_name ]},
             (λ i : nat, "id" +:+ pretty i) <$> seq 0 (length (cells df)),
             es), w).
Proof.
  intros (Hnd & Hrows & Hidx) Hemb.
  destruct (rows_loop_ok self (columns df) file_name (cells df) 0 [] [] [] []
              Hnd Hrows Hemb) as (es & Hes & Hrun).
  exists es. split; [done|].
  unfold DataProcessController.prepare_data_for_injection, lift.
  by rewrite Hidx, Hrun.
Qed.

(** C5. For a table as [read_csv] builds it and a base name, when the
    embedding client answers on every row: [prepare_data_for_injection]
    returns four lists as long as the table has rows, and for the row at
    index [i] the document is the concatenation in column order of
    ["col: value,\n"] over the columns, the id is ["id"] followed by [i],
    the metadata is [{"source": base name}], and the embedding is that of
    the document. *)
Theorem prepare_data_for_injection_spec `{Externals}
    (self : DataProcessController.t) (df : DataFrame) (file_name : string)
    (w : world) :
  well_formed df →
  embeddable (DataProcessController.client self) df →
  ∃ docs metadatas ids embeddings,
    DataProcessController.prepare_data_for_injection self df file_name w
      = (Ok (docs, metadatas, ids, embeddings), w)
    ∧ length docs = length (cells df)
    ∧ length metadatas = length (cells df)
    ∧ length ids = length (cells df)
    ∧ length embeddings = length (cells df)
    ∧ ∀ (i : nat) (row : list string),
        cells df !! i = Some row →
        docs !! i = Some (serialized (columns df) row)
        ∧ ids !! i = Some ("id" +:+ pretty i)
        ∧ metadatas !! i = Some {[ "source" := file_name ]}
        ∧ ∃ e, embeddings !! i = Some e
               ∧ embed_text (DataProcessController.client self)
                   (serialized (columns df) row) = Ok e.
Proof.
  intros Hwf Hemb.
  destruct (prepare_data_for_injection_run self df file_name w Hwf Hemb)
    as (es & Hes & Hrun).
  eexists _, _, _, _. split; [exact Hrun|].
  split_and!.
  - by rewrite length_fmap.
  - by rewrite length_replicate.
  - by rewrite length_fmap, length_seq.
  - symmetry. by eapply Forall2_length.
  - intros i row Hrow.
    assert (i < length (cells df))%nat as Hi by (by eapply lookup_lt_Some).
    split_and!.
    + by rewrite list_lookup_fmap, Hrow.
    + by rewrite list_lookup_fmap, lookup_seq_lt.
    + by rewrite lookup_replicate_2.
    + destruct (Forall2_lookup_l _ _ _ _ _ Hes Hrow) as (e & He & Hok).
      by exists e.
Qed.

(** The three-row dataset of the specification. *)
Lemma prepare_data_for_injection_spec_witness :
  ∃ docs metadatas ids embeddings,
    DataProcessController.prepare_data_for_injection
      sample_process_controller sample_frame "dataset" empty_world
      = (Ok (docs, metadatas, ids, embeddings), empty_world)
    ∧ length docs = 3%nat
    ∧ docs !! 0%nat = Some "make: Toyota,
year: 2020,
"
    ∧ docs !! 1%nat = Some "make: Honda,
year: 2019,
"
    ∧ docs !! 2%nat = Some "make: Ford,
year: 2021,
"
    ∧ ids = ["id0"; "id1"; "id2"]
    ∧ metadatas !! 1%nat = Some {[ "source" := "dataset" ]}.
Proof.
  assert (well_formed sample_frame) as Hwf.
  { split_and!; [|by repeat constructor|done].
    apply NoDup_cons. split; [|apply NoDup_singleton].
    by intros ?%list_elem_of_singleton. }
  assert (@embeddable sample_externals
            (DataProcessController.client sample_process_controller)
            sample_frame) as Hemb.
  { intros row _. by eexists. }
  destruct (@prepare_data_for_injection_spec sample_externals
              sample_process_controller sample_frame "dataset" empty_world
              Hwf Hemb)
    as (docs & metadatas & ids & embeddings & Hrun & Hd & _ & Hl & _ & Hrows).
  exists docs, metadatas, ids, embeddings.
  split; [exact Hrun|]. split; [exact Hd|].
  destruct (Hrows 0%nat ["Toyota"; "2020"] eq_refl) as (H0 & I0 & _).
  destruct (Hrows 1%nat ["Honda"; "2019"] eq_refl) as (H1 & I1 & M1 & _).
  destruct (Hrows 2%nat ["Ford"; "2021"] eq_refl) as (H2 & I2 & _).
  split; [exact H0|]. split; [exact H1|]. split; [exact H2|].
  split; [|exact M1].
  destruct ids as [|i0 [|i1 [|i2 [|i3 ids]]]]; try discriminate Hl.
  injection I0 as ->. injection I1 as ->. injection I2 as ->. reflexivity.
Defined.

(** ** Retrieval *)

(** Closes one case of a case-by-case description of a run: the case
    either contradicts what is known of the run or is the run itself. *)
Ltac settle_case :=
  intros; simplify_eq;
  repeat match goal with
         | H1 : ?t = _, H2 : ?t = _ |- _ => rewrite H1 in H2; simplify_eq
         end;
  try congruence; by split_and!.

(** C6. [search_vector_db_collection] always returns a list.  When the
    embedding of the query is falsy it returns the empty list, logs a
    warning and makes no request to the vector store.  Otherwise it returns
    what [search_by_vector] found, [None] counting as the empty list.  An
    exception of the embedding client or of [search_by_vector] is logged
    and the empty list is returned. *)
Theorem search_vector_db_collection_safe `{Externals} (self : RAGController.t)
    (query : string) (limit : Z) (w : world) :
  ∃ docs w',
    RAGController.search_vector_db_collection self query limit w
      = (Ok docs, w')
    ∧ (∀ v,
         embed_text (RAGController.text_embedding_client self) query = Ok v →
         falsy v = true →
         docs = []
         ∧ w' = logged WARNING
                  "Embedding returned an empty vector; returning empty result set."
                  w
         ∧ calls w' = calls w)
    ∧ (∀ v found w1,
         embed_text (RAGController.text_embedding_client self) query = Ok v →
         falsy v = false →
         VectorDBInterface.search_by_vector (RAGController.vectordb_client self)
           (COLLECTION_NAME (RAGController.app_settings self)) v limit w
           = (Ok found, w1) →
         docs = default [] found ∧ w' = w1)
    ∧ (∀ e,
         embed_text (RAGController.text_embedding_client self) query = Raise e →
         docs = []
         ∧ w' = logged ERROR ("Error during vector DB search: " +:+ exn_text e) w)
    ∧ (∀ v e w1,
         embed_text (RAGController.text_embedding_client self) query = Ok v →
         falsy v = false →
         VectorDBInterface.search_by_vector (RAGController.vectordb_client self)
           (COLLECTION_NAME (RAGController.app_settings self)) v limit w
           = (Raise e, w1) →
         docs = []
         ∧ w' = logged ERROR ("Error during vector DB search: " +:+ exn_text e)
                  w1).
Proof.
  unfold RAGController.search_vector_db_collection, try_except.
  rewrite bind_run. unfold lift.
  destruct (embed_text _ query) as [v|e] eqn:Hemb.
  - destruct (falsy v) eqn:Hv.
    + eexists _, _. split; [reflexivity|].
      split_and!; settle_case.
    + rewrite bind_run.
      destruct (VectorDBInterface.search_by_vector _ _ v limit w)
        as [[found|e] w1] eqn:Hsearch.
      * exists (default [] found), w1. split.
        { by destruct found as [[|d ds]|]. }
        split_and!; settle_case.
      * eexists _, _. split; [reflexivity|].
        split_and!; settle_case.
  - eexists _, _. split; [reflexivity|].
    split_and!; settle_case.
Qed.

(** The empty query of the sample installation: no request is made. *)
Lemma search_empty_query :
  @RAGController.search_vector_db_collection sample_externals
    (sample_rag Qdrant false) "" 3 empty_world
  = (Ok [],
     logged WARNING
       "Embedding returned an empty vector; returning empty result set."
       empty_world).
Proof. reflexivity. Qed.

(** A search on a store without the collection: Qdrant's provider raises,
    the controller logs and answers the empty list. *)
Lemma search_missing_collection :
  @RAGController.search_vector_db_collection sample_externals
    (sample_rag Qdrant false) "red car" 3 empty_world
  = (Ok [],
     logged ERROR "Error during vector DB search: Collection cars does not exist"
       (after (QdrantSearch "cars" sample_vector 3) empty_world)).
Proof. reflexivity. Qed.

(** ** Loading a dataset *)

Lemma str_take_drop (n : nat) (p : string) :
  os_path.str_take n p +:+ os_path.str_drop n p = p.
Proof.
  revert p. induction n as [|n IH]; intros [|a p]; simpl; try done.
  by rewrite append_cons, IH.
Qed.

(** [splitext] cuts its argument in two. *)
Lemma splitext_join (p : string) :
  (os_path.splitext p).1 +:+ (os_path.splitext p).2 = p.
Proof.
  unfold os_path.splitext.
  case_decide; [destruct (os_path.has_non_dot _)|]; simpl;
    by rewrite ?str_take_drop, ?append_nil_r.
Qed.

(** *** Base names and extensions *)

Lemma rfind_from_app (c : ascii) (p q : string) (i found : Z) :
  os_path.rfind_from c (p +:+ q) i found
  = os_path.rfind_from c q (i + Z.of_nat (String.length p))
      (os_path.rfind_from c p i found).
Proof.
  revert i found. induction p as [|a p IH]; intros i found.
  - simpl. f_equal. lia.
  - rewrite append_cons. simpl. rewrite IH. f_equal. lia.
Qed.

Lemma rfind_from_absent (c : ascii) (q : string) (i found : Z) :
  occurs c q = false → os_path.rfind_from c q i found = found.
Proof.
  revert i found. induction q as [|a q IH]; intros i found; simpl; [done|].
  intros [Ha Hq]%orb_false_elim. apply bool_decide_eq_false in Ha.
  rewrite IH by done. by rewrite decide_False.
Qed.

Lemma rfind_from_present (c : ascii) (q : string) (i found : Z) :
  occurs c q = true →
  os_path.rfind_from c q i found = i + os_path.rfind q c
  ∧ 0 ≤ os_path.rfind q c < Z.of_nat (String.length q).
Proof.
  unfold os_path.rfind. revert i found.
  induction q as [|a q IH]; intros i found; [done|].
  cbn [occurs os_path.rfind_from String.length]. intros Hocc.
  destruct (occurs c q) eqn:Hq.
  - destruct (IH (i + 1) (if decide (a = c) then i else found) eq_refl)
      as [-> _].
    destruct (IH (0 + 1) (if decide (a = c) then 0 else -1) eq_refl)
      as [-> ?].
    lia.
  - rewrite orb_false_r in Hocc. apply bool_decide_eq_true in Hocc.
    rewrite !rfind_from_absent by done. rewrite !decide_True by done. lia.
Qed.

Lemma str_drop_app (p q : string) (n : nat) :
  os_path.str_drop (String.length p + n) (p +:+ q) = os_path.str_drop n q.
Proof.
  induction p as [|a p IH]; [done|]. rewrite append_cons. exact IH.
Qed.

(** The base name of a path is that of its last component. *)
Lemma basename_app_present (p q : string) :
  occurs "/" q = true → os_path.basename (p +:+ q) = os_path.basename q.
Proof.
  intros Hq. unfold os_path.basename, os_path.rfind at 1.
  rewrite rfind_from_app.
  destruct (rfind_from_present "/" q (0 + Z.of_nat (String.length p))
              (os_path.rfind_from "/" p 0 (-1)) Hq) as [-> Hr].
  replace (Z.to_nat (0 + Z.of_nat (String.length p) + os_path.rfind q "/" + 1))
    with (String.length p + Z.to_nat (os_path.rfind q "/" + 1))%nat by lia.
  apply str_drop_app.
Qed.

Lemma basename_absent (q : string) :
  occurs "/" q = false → os_path.basename q = q.
Proof.
  intros Hq. unfold os_path.basename, os_path.rfind.
  by rewrite rfind_from_absent.
Qed.

Lemma basename_after_sep (p q : string) :
  os_path.basename (p +:+ "/" +:+ q) = os_path.basename q.
Proof.
  change (p +:+ "/" +:+ q) with (p +:+ String "/" q).
  rewrite basename_app_present by done.
  unfold os_path.basename at 1, os_path.rfind at 1.
  cbn [os_path.rfind_from]. rewrite decide_True by done.
  destruct (occurs "/" q) eqn:Hq.
  - destruct (rfind_from_present "/" q (0 + 1) 0 Hq) as [-> Hr].
    unfold os_path.basename.
    replace (Z.to_nat (0 + 1 + os_path.rfind q "/" + 1))
      with (S (Z.to_nat (os_path.rfind q "/" + 1))) by lia.
    done.
  - rewrite rfind_from_absent by done. by rewrite basename_absent.
Qed.

Lemma occurs_app (c : ascii) (p q : string) :
  occurs c (p +:+ q) = occurs c p || occurs c q.
Proof.
  induction p as [|a p IH]; [done|].
  rewrite append_cons. simpl. by rewrite IH, orb_assoc.
Qed.

Lemma str_take_app (p q : string) :
  os_path.str_take (String.length p) (p +:+ q) = p.
Proof.
  induction p as [|a p IH]; [by destruct q|].
  rewrite append_cons. simpl. by rewrite IH.
Qed.

Lemma ends_with_spec (suffix s : string) :
  ends_with suffix s = true ↔ ∃ p, s = p +:+ suffix.
Proof.
  split.
  - induction s as [|a s IH]; simpl.
    + rewrite orb_false_r. intros ->%bool_decide_eq_true. by exists "".
    + intros [->%bool_decide_eq_true|Hs]%orb_true_iff; [by exists ""|].
      destruct (IH Hs) as [p ->]. by exists (String a p).
  - intros [p ->]. induction p as [|a p IH].
    + change ("" +:+ suffix) with suffix.
      destruct suffix; cbn [ends_with];
        by rewrite bool_decide_eq_true_2.
    + rewrite append_cons. simpl. rewrite IH. apply orb_true_r.
Qed.

Lemma has_non_dot_true (s : string) (a : ascii) :
  a ≠ "."%char → occurs a s = true → os_path.has_non_dot s = true.
Proof.
  intros Ha. induction s as [|b s IH]; [done|]. simpl.
  case_decide as Hb; [|done]. subst b.
  rewrite bool_decide_eq_false_2 by done. exact IH.
Qed.

Lemma has_non_dot_false (s : string) :
  (∀ a, occurs a s = true → a = "."%char) → os_path.has_non_dot s = false.
Proof.
  induction s as [|b s IH]; [done|]. intros Hdots. simpl.
  rewrite decide_True.
  - apply IH. intros a Ha. apply Hdots. simpl. by rewrite Ha, orb_true_r.
  - apply Hdots. simpl. by rewrite bool_decide_eq_true_2.
Qed.

(** A file name [stem.csv] is split at its last dot, unless [stem] is made
    of dots only: then the name has no extension. *)
Lemma splitext_csv (stem : string) :
  occurs "/" stem = false →
  os_path.splitext (stem +:+ ".csv")
  = if os_path.has_non_dot stem then (stem, ".csv")
    else (stem +:+ ".csv", "").
Proof.
  intros Hslash. unfold os_path.splitext, os_path.rfind.
  rewrite (rfind_from_absent "/") by (by rewrite occurs_app, Hslash).
  rewrite rfind_from_app.
  destruct (rfind_from_present "." ".csv" (0 + Z.of_nat (String.length stem))
              (os_path.rfind_from "." stem 0 (-1)) eq_refl) as [-> _].
  change (os_path.rfind ".csv" ".") with 0.
  rewrite decide_True by lia.
  replace (Z.to_nat (-1 + 1)) with 0%nat by lia.
  replace (Z.to_nat (0 + Z.of_nat (String.length stem) + 0 - (-1 + 1)))
    with (String.length stem) by lia.
  replace (Z.to_nat (0 + Z.of_nat (String.length stem) + 0))
    with (String.length stem) by lia.
  cbn [os_path.str_drop]. rewrite str_take_app.
  destruct (os_path.has_non_dot stem); [|done].
  f_equal. rewrite <- (Nat.add_0_r (String.length stem)).
  apply str_drop_app.
Qed.

(** The base name of a file in a directory is the file's name. *)
Lemma basename_in_dir (dir name : string) :
  dir = "" ∨ (∃ d, dir = d +:+ "/") →
  occurs "/" name = false →
  os_path.basename (dir +:+ name) = name.
Proof.
  intros [->|[d ->]] Hname.
  - by apply basename_absent.
  - rewrite append_assoc, basename_after_sep. by apply basename_absent.
Qed.

(** A path ends in the extension that [splitext] finds in its base
    name. *)
Lemma extension_is_suffix (dataset : string) :
  ∃ p, dataset
       = p +:+ (os_path.splitext (os_path.basename dataset)).2.
Proof.
  exists (os_path.str_take
            (Z.to_nat (os_path.rfind dataset "/" + 1)) dataset
          +:+ (os_path.splitext (os_path.basename dataset)).1).
  rewrite append_assoc, splitext_join. unfold os_path.basename.
  by rewrite str_take_drop.
Qed.

(** A path with the supported extension is handed to [read_csv]. *)
Lemma get_file_loader_csv_run `{Externals} (dataset : string) (w : world) :
  (os_path.splitext (os_path.basename dataset)).2 = ".csv" →
  DataProcessController.get_file_loader dataset w
  = (match read_csv dataset with
     | Ok df =>
         Ok (Some (df, (os_path.splitext (os_path.basename dataset)).1))
     | Raise e => Raise e
     end, w).
Proof.
  unfold DataProcessController.get_file_loader.
  destruct (os_path.splitext (os_path.basename dataset)) as [stem ext].
  simpl. intros ->. rewrite bool_decide_eq_true_2 by done.
  rewrite bind_run. unfold lift. by destruct (read_csv dataset).
Qed.

(** C8. [get_file_loader] on every path.  A path that does not end in
    [.csv] is never read: an error is logged and [None] is returned,
    nothing is raised.  A path [dir ++ stem ++ ".csv"], where [dir] is
    empty or ends in [/] and [stem] is a file name (no [/] in it) with a
    character other than the dot, is handed to [read_csv], and the answer
    is the parsed table together with [stem], the base name without its
    extension; only an exception of [read_csv] is raised.  When [stem] is
    made of dots only (the hidden file [.csv]), the name has no extension
    for [os.path.splitext] and the path is refused like the first.  In
    general the decision is taken on the extension that [os.path.splitext]
    finds in the base name. *)
Theorem get_file_loader_spec `{Externals} (dataset : string) (w : world) :
  let refused :=
    (Ok None, logged ERROR "The selected file type is not supported" w) in
  let loaded file_name :=
    (match read_csv dataset with
     | Ok df => Ok (Some (df, file_name))
     | Raise e => Raise e
     end, w) in
  let file_name := (os_path.splitext (os_path.basename dataset)).1 in
  let file_extension := (os_path.splitext (os_path.basename dataset)).2 in
  ((∀ p, dataset ≠ p +:+ ".csv") →
     DataProcessController.get_file_loader dataset w = refused)
  ∧ (∀ dir stem,
       dataset = dir +:+ stem +:+ ".csv" →
       dir = "" ∨ (∃ d, dir = d +:+ "/") →
       occurs "/" stem = false →
       ((∃ a, a ≠ "."%char ∧ occurs a stem = true) →
          DataProcessController.get_file_loader dataset w = loaded stem)
       ∧ ((∀ a, occurs a stem = true → a = "."%char) →
            DataProcessController.get_file_loader dataset w = refused))
  ∧ (file_extension ≠ ".csv" →
       DataProcessController.get_file_loader dataset w = refused)
  ∧ (file_extension = ".csv" →
       os_path.basename dataset = file_name +:+ ".csv"
       ∧ DataProcessController.get_file_loader dataset w = loaded file_name).
Proof.
  intros refused loaded file_name file_extension.
  assert (file_extension ≠ ".csv" →
          DataProcessController.get_file_loader dataset w = refused)
    as Hrefuse.
  { subst file_name file_extension refused. intros Hext.
    unfold DataProcessController.get_file_loader.
    destruct (os_path.splitext (os_path.basename dataset)) as [stem ext].
    simpl in *. by rewrite bool_decide_eq_false_2. }
  split_and!.
  - intros Hsuffix. apply Hrefuse. subst file_extension. intros Hext.
    destruct (extension_is_suffix dataset) as [p Hp].
    rewrite Hext in Hp. by apply (Hsuffix p).
  - intros dir stem Hpath Hdir Hstem.
    assert (os_path.basename dataset = stem +:+ ".csv") as Hbase.
    { rewrite Hpath. apply basename_in_dir; [done|].
      by rewrite occurs_app, Hstem. }
    split.
    + intros (a & Ha & Hocc).
      subst loaded. rewrite get_file_loader_csv_run.
      * by rewrite Hbase, splitext_csv, (has_non_dot_true stem a).
      * by rewrite Hbase, splitext_csv, (has_non_dot_true stem a).
    + intros Hdots. apply Hrefuse. subst file_extension.
      by rewrite Hbase, splitext_csv, has_non_dot_false.
  - exact Hrefuse.
  - intros Hext. split; [|by apply get_file_loader_csv_run].
    rewrite <- Hext. subst file_name file_extension.
    by rewrite splitext_join.
Qed.

(** The dataset of the sample installation is loaded under the name
    [dataset]; a text file, an extension in capitals and the hidden file
    [.csv] are refused. *)
Lemma get_file_loader_spec_witness :
  @DataProcessController.get_file_loader sample_externals
    "assets/database/csv/dataset.csv" empty_world
  = (Ok (Some (sample_frame, "dataset")), empty_world)
  ∧ @DataProcessController.get_file_loader sample_externals "data.txt"
      empty_world
    = (Ok None,
       logged ERROR "The selected file type is not supported" empty_world)
  ∧ @DataProcessController.get_file_loader sample_externals
      "assets/database/csv/cars.CSV" empty_world
    = (Ok None,
       logged ERROR "The selected file type is not supported" empty_world)
  ∧ @DataProcessController.get_file_loader sample_externals
      "assets/database/csv/.csv" empty_world
    = (Ok None,
       logged ERROR "The selected file type is not supported" empty_world).
Proof.
  split_and!.
  - apply (proj1 (proj2 (@get_file_loader_spec sample_externals
                           "assets/database/csv/dataset.csv" empty_world))
             "assets/database/csv/" "dataset" eq_refl).
    + right. by exists "assets/database/csv".
    + reflexivity.
    + exists "d"%char. split; [discriminate|reflexivity].
  - apply (proj1 (@get_file_loader_spec sample_externals "data.txt"
                    empty_world)).
    intros p Hp.
    assert (ends_with ".csv" "data.txt" = true) as Hends
      by (apply ends_with_spec; by exists p).
    discriminate Hends.
  - apply (proj1 (@get_file_loader_spec sample_externals
                    "assets/database/csv/cars.CSV" empty_world)).
    intros p Hp.
    assert (ends_with ".csv" "assets/database/csv/cars.CSV" = true) as Hends
      by (apply ends_with_spec; by exists p).
    discriminate Hends.
  - apply (proj1 (proj2 (@get_file_loader_spec sample_externals
                           "assets/database/csv/.csv" empty_world))
             "assets/database/csv/" "" eq_refl).
    + right. by exists "assets/database/csv".
    + reflexivity.
    + intros a Ha. discriminate Ha.
Defined.

(** The same paths, by running the code. *)
Lemma get_file_loader_examples :
  @DataProcessController.get_file_loader sample_externals "data.txt" empty_world
  = (Ok None,
     logged ERROR "The selected file type is not supported" empty_world)
  ∧ @DataProcessController.get_file_loader sample_externals
      "assets/database/csv/dataset.csv" empty_world
    = (Ok (Some (sample_frame, "dataset")), empty_world)
  ∧ @DataProcessController.get_file_loader sample_externals
      "assets/database/csv/.csv" empty_world
    = (Ok None,
       logged ERROR "The selected file type is not supported" empty_world)
  ∧ @DataProcessController.get_file_loader sample_externals
      "assets/database/csv/cars.CSV" empty_world
    = (Ok None,
       logged ERROR "The selected file type is not supported" empty_world).
Proof. split_and!; reflexivity. Qed.

(** ** The embedding-provider factory *)

(** An identifier outside the enumeration: a warning, and [None]. *)
Lemma create_unsupported `{Externals} (self : LLMProviderFactory.t)
    (provider : string) (w : world) :
  provider ≠ LLMEnums_OPENAI → provider ≠ LLMEnums_GROQ →
  LLMProviderFactory.create self provider w
  = (Ok None, logged WARNING ("Unsupported provider: " +:+ provider) w).
Proof.
  intros H1 H2. unfold LLMProviderFactory.create.
  by rewrite !bool_decide_eq_false_2.
Qed.

(** The two paths that take an API key check it. *)
Lemma create_missing_key `{Externals} (config : Settings) (w : world) :
  (falsy_str (OPENAI_API_KEY config) = true →
   LLMProviderFactory.create
     {| LLMProviderFactory.config := config;
        LLMProviderFactory.azure := false |} LLMEnums_OPENAI w
   = (Ok None, logged ERROR "Missing OpenAI API key in configuration." w))
  ∧ (LLMEnums_GROQ ≠ LLMEnums_OPENAI →
     falsy_str (GROQ_API_KEY config) = true →
     ∀ azure,
       LLMProviderFactory.create
         {| LLMProviderFactory.config := config;
            LLMProviderFactory.azure := azure |} LLMEnums_GROQ w
       = (Ok None, logged ERROR "Missing Groq API key in configuration." w)).
Proof.
  unfold LLMProviderFactory.create. simpl. split.
  - intros ->. by rewrite bool_decide_eq_true_2.
  - intros Hne -> azure.
    rewrite bool_decide_eq_false_2 by done.
    by rewrite bool_decide_eq_true_2.
Qed.

(** In Azure mode no credential is looked at: the answer is whatever the
    constructor makes of the configuration, and nothing is logged. *)
Lemma create_azure `{Externals} (config : Settings) (w : world) :
  LLMProviderFactory.create
    {| LLMProviderFactory.config := config; LLMProviderFactory.azure := true |}
    LLMEnums_OPENAI w
  = (match construct
             (OpenAIProvider_azure (AZURE_OPENAI_API_KEY config)
                (API_VERSION config) (AZURE_OPENAI_ENDPOINT config)
                (LLMProviderFactory.defaults_of config)) with
     | Ok c => Ok (Some c)
     | Raise e => Raise e
     end, w).
Proof.
  unfold LLMProviderFactory.create. simpl.
  rewrite bool_decide_eq_true_2 by done.
  rewrite bind_run. unfold lift. by destruct (construct _).
Qed.

(** C9. With a configuration that holds no credential at all, the factory
    in Azure mode builds an OpenAI provider from the absent Azure key,
    endpoint and API version and logs nothing; in direct-key mode, on the
    same configuration, it logs the missing key and answers [None]. *)
Theorem create_azure_unchecked :
  @LLMProviderFactory.create sample_externals
    {| LLMProviderFactory.config := bare_settings;
       LLMProviderFactory.azure := true |} "OPENAI" empty_world
  = (Ok (Some (OpenAIProvider_azure None None None
                 (LLMProviderFactory.defaults_of bare_settings), None)),
     empty_world)
  ∧ @LLMProviderFactory.create sample_externals
      {| LLMProviderFactory.config := bare_settings;
         LLMProviderFactory.azure := false |} "OPENAI" empty_world
    = (Ok None,
       logged ERROR "Missing OpenAI API key in configuration." empty_world).
Proof. split; reflexivity. Qed.

(** ** Steps that only log *)

Lemma quiet_refl (w : world) : quiet w w.
Proof. by split_and!. Qed.

Lemma quiet_trans (w1 w2 w3 : world) : quiet w1 w2 → quiet w2 w3 → quiet w1 w3.
Proof.
  intros (? & ? & ? & ?) (? & ? & ? & ?). split_and!; congruence.
Qed.

Lemma quiet_logged (l : level) (t : string) (w : world) : quiet w (logged l t w).
Proof. by split_and!. Qed.

Lemma create_quiet `{Externals} (self : LLMProviderFactory.t)
    (provider : string) (w : world) r w' :
  LLMProviderFactory.create self provider w = (r, w') → quiet w w'.
Proof.
  unfold LLMProviderFactory.create.
  assert (∀ call,
    (c ← lift (construct call); mret (Some c)) w = (r, w') → quiet w w')
    as Hbuild.
  { intros call. rewrite bind_run. unfold lift.
    destruct (construct call); intros Hrun; inversion Hrun; apply quiet_refl. }
  assert (∀ l t, (logger l t;; mret None) w = (r, w') → quiet w w') as Hlog.
  { intros l t Hrun. inversion Hrun. apply quiet_logged. }
  repeat case_bool_decide; repeat case_match; eauto.
Qed.

Ltac end_of_run :=
  let Hrun := fresh "Hrun" in
  simpl; unfold raise, ret, mret, M_ret, logger; simpl;
  intros Hrun; inversion Hrun; subst;
  eauto using quiet_refl, quiet_logged, quiet_trans.

Lemma init_quiet `{Externals} (w : world) r w' :
  DataProcessController.__init__ w = (r, w') → quiet w w'.
Proof.
  unfold DataProcessController.__init__. rewrite bind_run. unfold lift at 1.
  destruct get_settings as [settings|e]; [|end_of_run].
  rewrite bind_run.
  destruct (LLMProviderFactory.create _ _ w) as [[[c|]|e] w1] eqn:Hc;
    apply create_quiet in Hc.
  - rewrite bind_run. unfold lift.
    destruct (set_embedding_model _ _); end_of_run.
  - end_of_run.
  - end_of_run.
Qed.

Lemma get_file_loader_quiet `{Externals} (dataset : string) (w : world) r w' :
  DataProcessController.get_file_loader dataset w = (r, w') → quiet w w'.
Proof.
  unfold DataProcessController.get_file_loader.
  destruct (os_path.splitext _) as [stem ext].
  case_bool_decide.
  - rewrite bind_run. unfold lift. destruct (read_csv dataset); end_of_run.
  - rewrite bind_run. end_of_run.
Qed.

(** ** Indexing *)

(** C10. On a Qdrant store, [index_into_vector_db] in re-embed mode always
    returns [None]: it makes no request to the store, which stays as it
    was, and ends by logging an error.  [create_collection] is called
    without the [embedding_size] that Qdrant's provider requires, so the
    run cannot get past it. *)
Theorem qdrant_reindex_returns_none `{Externals} (self : RAGController.t)
    (w : world) :
  RAGController.vectordb_client self = Qdrant →
  RAGController.em self = true →
  ∃ w' e,
    RAGController.index_into_vector_db self w = (Ok None, w')
    ∧ quiet w w'
    ∧ last (logs w')
      = Some (Log ERROR ("Error during vector DB indexing: " +:+ exn_text e))
    ∧ (∀ w0, VectorDBInterface.create_collection
               (RAGController.vectordb_client self)
               (COLLECTION_NAME (RAGController.app_settings self)) None true w0
             = (Raise (Exn TypeError
                  "create_collection() missing 1 required positional argument: 'embedding_size'"),
                w0)).
Proof.
  intros Hq Hem. unfold RAGController.index_into_vector_db.
  rewrite Hem, Hq. simpl. unfold try_except.
  assert (∀ e w1, quiet w w1 →
    ∃ w' e',
      (logger ERROR ("Error during vector DB indexing: " +:+ exn_text e);;
       mret None) w1 = (Ok (@None collection_info), w')
      ∧ quiet w w'
      ∧ last (logs w')
        = Some (Log ERROR ("Error during vector DB indexing: "
                           +:+ exn_text e'))
      ∧ (∀ w0 : world,
           QdrantDBProvider.create_collection
             (COLLECTION_NAME (RAGController.app_settings self)) None true w0
           = (Raise (Exn TypeError
                "create_collection() missing 1 required positional argument: 'embedding_size'"),
              w0))) as Hhandler.
  { intros e w1 Hw1. eexists _, e. split; [reflexivity|]. split_and!.
    - eauto using quiet_trans, quiet_logged.
    - simpl. by rewrite last_snoc.
    - done. }
  rewrite bind_run.
  destruct (DataProcessController.__init__ w) as [[pc|e] w1] eqn:Hinit;
    apply init_quiet in Hinit; [|by apply Hhandler].
  rewrite bind_run.
  destruct (DataProcessController.get_file_loader _ w1) as [[loaded|e] w2]
    eqn:Hload; apply get_file_loader_quiet in Hload;
    [|apply Hhandler; eauto using quiet_trans].
  assert (quiet w w2) as Hw2 by eauto using quiet_trans.
  rewrite bind_run.
  destruct loaded as [[df file_name]|]; [|by apply Hhandler].
  simpl. rewrite bind_run.
  unfold DataProcessController.prepare_data_for_injection, lift.
  destruct (DataProcessController.rows_loop _ _ _ _ _)
    as [[[[docs metadatas] ids] embeddings]|e]; [|by apply Hhandler].
  rewrite bind_run.
  exact (Hhandler
           (Exn TypeError
              "create_collection() missing 1 required positional argument: 'embedding_size'")
           w2 Hw2).
Qed.

(** The sample installation on Qdrant: the dataset is loaded and embedded,
    then the call of [create_collection] fails. *)
Lemma qdrant_reindex_returns_none_witness :
  @RAGController.index_into_vector_db sample_externals (sample_rag Qdrant true)
    empty_world
  = (Ok None,
     logged ERROR
       "Error during vector DB indexing: create_collection() missing 1 required positional argument: 'embedding_size'"
       empty_world)
  ∧ ∃ w' e,
      @RAGController.index_into_vector_db sample_externals
        (sample_rag Qdrant true) (cars_world Qdrant []) = (Ok None, w')
      ∧ quiet (cars_world Qdrant []) w'
      ∧ last (logs w')
        = Some (Log ERROR ("Error during vector DB indexing: " +:+ exn_text e)).
Proof.
  split; [reflexivity|].
  destruct (@qdrant_reindex_returns_none sample_externals
              (sample_rag Qdrant true) (cars_world Qdrant []) eq_refl eq_refl)
    as (w' & e & Hrun & Hquiet & Hlast & _).
  exists w', e. split; [exact Hrun|]. split; [exact Hquiet | exact Hlast].
Defined.

(** ** What a re-index leaves in the collection *)

Lemma healthy_after_batches self name texts vectors metadata record_ids b j m w :
  healthy w →
  healthy (after_batches self name texts vectors metadata record_ids b j m w).
Proof. unfold healthy. simpl. apply Forall_drop. Qed.

Lemma persist_lookup self name (s : gmap string collection) (c : collection)
    (bs : list (list point)) :
  s !! name = Some c →
  persist self name s bs !! name
  = Some (Collection (cconfig c)
            (foldl (match self with
                    | Chroma => chromadb.add_points
                    | Qdrant => qdrant_client.upsert_points
                    end) (cpoints c) bs)).
Proof.
  revert s c. induction bs as [|pts bs IH]; intros s c Hs; simpl.
  - rewrite Hs. by destruct c.
  - erewrite IH.
    2:{ unfold store_batch. by rewrite lookup_alter, decide_True, Hs. }
    done.
Qed.

Lemma add_points_concat (stored : list point) (bs : list (list point)) :
  foldl chromadb.add_points stored bs = chromadb.add_points stored (concat bs).
Proof.
  revert stored. induction bs as [|pts bs IH]; intros stored; simpl; [done|].
  rewrite IH. unfold chromadb.add_points. by rewrite foldl_app.
Qed.

(** Records with ids that are new and distinct are all appended. *)
Lemma add_points_fresh (stored new : list point) :
  NoDup (pid <$> (stored ++ new)) →
  chromadb.add_points stored new = stored ++ new.
Proof.
  revert stored. induction new as [|p new IH]; intros stored Hnd; simpl.
  - by rewrite app_nil_r.
  - unfold chromadb.add_points. simpl. unfold chromadb.add_point at 2.
    rewrite decide_False.
    + fold (chromadb.add_points (stored ++ [p]) new).
      rewrite IH; rewrite <- app_assoc; done.
    + rewrite fmap_app in Hnd. apply NoDup_app in Hnd as (_ & Hd & _).
      intros Hin. apply (Hd _ Hin). simpl. left.
Qed.

Lemma zip_points_ids (documents : list string)
    (metadatas : list (gmap string string)) (ids : list point_id)
    (embeddings : list embedding) :
  length documents = length ids → length metadatas = length ids →
  length embeddings = length ids →
  pid <$> chromadb.zip_points documents metadatas ids embeddings = ids.
Proof.
  unfold chromadb.zip_points. revert documents metadatas embeddings.
  induction ids as [|i ids IH]; intros [|d ds] [|m ms] [|e es] Hd Hm He;
    simplify_eq/=; [done|].
  f_equal. by apply IH.
Qed.

Lemma row_ids_distinct (j n : nat) :
  NoDup (IdStr <$> ((λ i : nat, "id" +:+ pretty i) <$> seq j n)).
Proof.
  apply NoDup_fmap_2; [by intros ?? [=]|].
  apply NoDup_fmap_2; [|apply NoDup_seq].
  intros x y Hxy. apply (inj (String.app "id")) in Hxy.
  by apply (inj pretty) in Hxy.
Qed.

Lemma chroma_get_collection_info_run (n : string) (w : world) (c : collection) :
  healthy w →
  store w !! n = Some c →
  ChromaDBProvider.get_collection_info n w
  = (Ok (ChromaInfo n (length (cpoints c)) (cconfig c)),
     after (ChromaCount n) (after (ChromaGetCollection n) w)).
Proof.
  intros Hh Hc. unfold ChromaDBProvider.get_collection_info, try_except.
  rewrite bind_run, chroma_get_collection_run.
  rewrite healthy_next_fault, Hc by done.
  rewrite bind_run, chroma_count_run.
  rewrite healthy_next_fault by auto using healthy_after.
  simpl. by rewrite Hc.
Qed.

(** One re-index on Chroma, from any fault-free store. *)
Lemma chroma_reindex_run `{Externals} (self : RAGController.t)
    (pc : DataProcessController.t) (df : DataFrame) (w : world) :
  RAGController.vectordb_client self = Chroma →
  RAGController.em self = true →
  (∀ w0, DataProcessController.__init__ w0 = (Ok pc, w0)) →
  (os_path.splitext (os_path.basename (RAGController.data_csv self))).2
    = ".csv" →
  read_csv (RAGController.data_csv self) = Ok df →
  well_formed df →
  embeddable (DataProcessController.client pc) df →
  healthy w →
  ∃ w',
    RAGController.index_into_vector_db self w
    = (Ok (Some (ChromaInfo (COLLECTION_NAME (RAGController.app_settings self))
                   (length (cells df))
                   (ChromaMetadata
                      {[ "hnsw:space" := ChromaDBProvider.distance_method ]}))),
       w')
    ∧ healthy w'
    ∧ (length ∘ cpoints)
        <$> (store w' !! COLLECTION_NAME (RAGController.app_settings self))
      = Some (length (cells df)).
Proof.
  intros Hc Hem Hinit Hext Hread Hwf Hemb Hh.
  set (name := COLLECTION_NAME (RAGController.app_settings self)).
  unfold RAGController.index_into_vector_db,
    VectorDBInterface.default_batch_size. rewrite Hem, Hc. simpl.
  fold name. unfold try_except.
  rewrite bind_run, Hinit.
  pose proof (get_file_loader_csv_run (RAGController.data_csv self) w Hext)
    as Hloaded.
  rewrite Hread in Hloaded.
  rewrite bind_run, Hloaded. rewrite bind_run. simpl.
  set (file_name := (os_path.splitext _).1).
  destruct (prepare_data_for_injection_run pc df file_name w Hwf Hemb)
    as (es & Hes & Hprep).
  rewrite bind_run, Hprep.
  set (docs := serialized (columns df) <$> cells df).
  set (metadatas := replicate (length (cells df)) _).
  set (ids := (λ i : nat, "id" +:+ pretty i) <$> seq 0 (length (cells df))).
  destruct (create_collection_reset_run Chroma name None w Hh I)
    as (w2 & Hcreate & _ & Hstore & _ & Hh2).
  simpl in Hcreate.
  rewrite bind_run, Hcreate.
  assert (same_lengths docs es (Some metadatas) (Some (IdStr <$> ids)))
    as Hlen.
  { subst docs metadatas ids. split_and!.
    - rewrite length_fmap. symmetry. by eapply Forall2_length.
    - intros l [= <-]. by rewrite ?length_replicate, ?length_fmap.
    - intros l [= <-]. by rewrite ?length_fmap, ?length_seq. }
  assert (store w2 !! name = Some (fresh_collection Chroma None)) as Hs2
    by (by rewrite Hstore, lookup_insert_eq).
  rewrite bind_run.
  rewrite (chroma_insert_many_ok name docs es (Some metadatas)
             (Some (IdStr <$> ids)) 50 ltac:(lia) Hlen w2);
    [|by apply healthy_next_fault|by eexists|].
  2:{ intros i _ Hbad. unfold healthy in Hh2.
      apply list_elem_of_lookup_2 in Hbad.
      assert (true ∈ faults w2) as Hin.
      { destruct (faults w2); [set_solver|]. simpl in Hbad. set_solver. }
      rewrite Forall_forall in Hh2. by apply Hh2 in Hin. }
  set (w3 := after_batches _ _ _ _ _ _ _ _ _ _).
  assert (healthy w3) as Hh3
    by (apply healthy_after_batches; auto using healthy_after).
  set (recs := records Chroma docs es (Some metadatas) (Some (IdStr <$> ids))).
  assert (pid <$> recs = IdStr <$> ids) as Hids.
  { subst recs. simpl. apply zip_points_ids; simpl.
    - subst docs ids. by rewrite ?length_fmap, ?length_seq.
    - subst metadatas ids.
      by rewrite ?length_replicate, ?length_fmap, ?length_seq.
    - subst ids. rewrite ?length_fmap, ?length_seq.
      symmetry. by eapply Forall2_length. }
  assert (length recs = length (cells df)) as Hrecs.
  { rewrite <- (length_fmap pid), Hids. subst ids.
    by rewrite ?length_fmap, ?length_seq. }
  assert (store w3 !! name
          = Some (Collection
                    (ChromaMetadata
                       {[ "hnsw:space" := ChromaDBProvider.distance_method ]})
                    recs)) as Hs3.
  { subst w3. cbn [store after_batches after].
    fold recs.
    replace (length docs) with (length recs)
      by (subst docs; by rewrite Hrecs, length_fmap).
    fold (batches (Z.to_nat 50) recs).
    erewrite persist_lookup by exact Hs2. simpl.
    rewrite add_points_concat, concat_batches by lia.
    rewrite add_points_fresh; [done|].
    simpl. rewrite Hids. apply row_ids_distinct. }
  clearbody w3.
  rewrite bind_run. unfold logger at 1. rewrite bind_run.
  rewrite (chroma_get_collection_info_run name _ _ (healthy_logged _ _ _ Hh3)
             Hs3).
  rewrite bind_run. unfold logger at 1.
  cbn [cpoints cconfig]. rewrite Hrecs.
  eexists. split; [reflexivity|]. split.
  - apply healthy_logged. by repeat apply healthy_after.
  - cbn [store logged after]. rewrite Hs3. simpl. by rewrite Hrecs.
Qed.

(** C7. On a Chroma store whose client does not fault, with a dataset file
    that [read_csv] parses to a table of [r] rows, all of which the
    embedding client embeds: two re-index runs in a row each return the
    collection info with count [r], and after each of them the collection
    holds [r] documents. *)
Theorem reindex_twice `{Externals} (self : RAGController.t)
    (pc : DataProcessController.t) (df : DataFrame) (w : world) :
  RAGController.vectordb_client self = Chroma →
  RAGController.em self = true →
  (∀ w0, DataProcessController.__init__ w0 = (Ok pc, w0)) →
  (os_path.splitext (os_path.basename (RAGController.data_csv self))).2
    = ".csv" →
  read_csv (RAGController.data_csv self) = Ok df →
  well_formed df →
  embeddable (DataProcessController.client pc) df →
  healthy w →
  let name := COLLECTION_NAME (RAGController.app_settings self) in
  let r := length (cells df) in
  ∃ metadata w1 w2,
    RAGController.index_into_vector_db self w
      = (Ok (Some (ChromaInfo name r metadata)), w1)
    ∧ (length ∘ cpoints) <$> (store w1 !! name) = Some r
    ∧ RAGController.index_into_vector_db self w1
      = (Ok (Some (ChromaInfo name r metadata)), w2)
    ∧ (length ∘ cpoints) <$> (store w2 !! name) = Some r.
Proof.
  intros Hc Hem Hinit Hext Hread Hwf Hemb Hh name r.
  destruct (chroma_reindex_run self pc df w Hc Hem Hinit Hext Hread Hwf Hemb Hh)
    as (w1 & Hrun1 & Hh1 & Hcount1).
  destruct (chroma_reindex_run self pc df w1 Hc Hem Hinit Hext Hread Hwf Hemb
              Hh1) as (w2 & Hrun2 & _ & Hcount2).
  by eexists _, w1, w2.
Qed.

(** The three-row dataset of the specification, indexed twice on Chroma. *)
Lemma reindex_twice_witness :
  ∃ metadata w1 w2,
    @RAGController.index_into_vector_db sample_externals
      (sample_rag Chroma true) empty_world
      = (Ok (Some (ChromaInfo "cars" 3 metadata)), w1)
    ∧ (length ∘ cpoints) <$> (store w1 !! "cars") = Some 3%nat
    ∧ @RAGController.index_into_vector_db sample_externals
        (sample_rag Chroma true) w1
      = (Ok (Some (ChromaInfo "cars" 3 metadata)), w2)
    ∧ (length ∘ cpoints) <$> (store w2 !! "cars") = Some 3%nat.
Proof.
  assert (well_formed sample_frame) as Hwf.
  { split_and!; [|by repeat constructor|done].
    apply NoDup_cons. split; [|apply NoDup_singleton].
    by intros ?%list_elem_of_singleton. }
  assert (@embeddable sample_externals
            (DataProcessController.client sample_process_controller)
            sample_frame) as Hemb.
  { intros row _. by eexists. }
  assert (healthy empty_world) as Hh by constructor.
  exact (@reindex_twice sample_externals (sample_rag Chroma true)
           sample_process_controller sample_frame empty_world
           eq_refl eq_refl (λ w0, eq_refl) eq_refl eq_refl Hwf Hemb Hh).
Defined.

(** * Further properties *)

(** ** Requests that may fault *)

Lemma is_collection_existed_step self n w :
  VectorDBInterface.is_collection_existed self n w =
    (if next_fault w then Raise (Exn ClientError "client request failed")
     else Ok (bool_decide (is_Some (store w !! n))),
     after (exists_call self n) w).
Proof.
  destruct self; simpl.
  - apply chroma_is_collection_existed_run.
  - apply qdrant_is_collection_existed_run.
Qed.

(** The deletion request of either client, on a name that is there. *)
Lemma client_delete_step self n w :
  is_Some (store w !! n) →
  match self with
  | Chroma => chromadb.delete_collection n
  | Qdrant => qdrant_client.delete_collection n
  end w =
    if next_fault w then
      (Raise (Exn ClientError "client request failed"),
       after (delete_call self n) w)
    else
      (Ok tt, with_store (delete n (store w)) (after (delete_call self n) w)).
Proof.
  intros [c Hc]. destruct self; simpl.
  - unfold chromadb.delete_collection. unfold_monad.
    destruct (next_fault w); [done|]. simpl. by rewrite Hc.
  - unfold qdrant_client.delete_collection. unfold_monad.
    by destruct (next_fault w).
Qed.

Lemma delete_collection_unfold self n :
  VectorDBInterface.delete_collection self n =
    (existed ← VectorDBInterface.is_collection_existed self n;
     if existed : bool then
       match self with
       | Chroma => chromadb.delete_collection n
       | Qdrant => qdrant_client.delete_collection n
       end
     else mret tt).
Proof. by destruct self. Qed.

(** ** Deleting *)

(** X1. On a client that does not fault, [delete_collection] of either
    provider removes the collection of that name and no other; on a name
    that is not there it only asks whether it exists.  Deleting a second
    time changes nothing. *)
Theorem delete_collection_idempotent (self : vectordb_client) (n : string)
    (w : world) :
  healthy w →
  ∃ w1 w2,
    VectorDBInterface.delete_collection self n w = (Ok tt, w1)
    ∧ VectorDBInterface.delete_collection self n w1 = (Ok tt, w2)
    ∧ store w1 = delete n (store w)
    ∧ store w2 = store w1
    ∧ calls w2 = calls w1 ++ [exists_call self n]
    ∧ (store w !! n = None → calls w1 = calls w ++ [exists_call self n])
    ∧ (is_Some (store w !! n) →
       calls w1 = calls w ++ [exists_call self n; delete_call self n]).
Proof.
  intros Hh.
  pose proof (delete_collection_run self n w Hh) as Hrun1.
  set (w1 := if bool_decide _ then _ else _) in Hrun1.
  assert (healthy w1) as Hh1.
  { subst w1. case_bool_decide; auto using healthy_after, healthy_with_store. }
  assert (store w1 = delete n (store w)) as Hs1.
  { subst w1. case_bool_decide as Hex; simpl; [done|].
    symmetry. apply delete_id. by apply eq_None_not_Some. }
  pose proof (delete_collection_run self n w1 Hh1) as Hrun2.
  rewrite bool_decide_eq_false_2 in Hrun2
    by (rewrite Hs1, lookup_delete_eq; by intros [? ?]).
  exists w1, (after (exists_call self n) w1). split_and!; try done.
  - intros Hn. subst w1.
    by rewrite bool_decide_eq_false_2 by (rewrite Hn; by intros [? ?]).
  - intros Hn. subst w1. rewrite bool_decide_eq_true_2 by done.
    simpl. by rewrite <- app_assoc.
Qed.

Lemma delete_collection_idempotent_witness :
  ∃ w1 w2,
    VectorDBInterface.delete_collection Chroma "cars" (cars_world Chroma [])
      = (Ok tt, w1)
    ∧ VectorDBInterface.delete_collection Chroma "cars" w1 = (Ok tt, w2)
    ∧ store w1 = ∅ ∧ store w2 = ∅.
Proof.
  assert (healthy (cars_world Chroma [])) as Hh by constructor.
  destruct (delete_collection_idempotent Chroma "cars" (cars_world Chroma []) Hh)
    as (w1 & w2 & H1 & H2 & Hs1 & Hs2 & _).
  exists w1, w2. split; [exact H1|]. split; [exact H2|].
  rewrite Hs2, Hs1. split; reflexivity.
Defined.

(** ** A reset is not atomic *)

(** X2. [create_collection] with [do_reset] on a name that is there: when
    the existence check and the deletion go through and the next request
    of the client faults, the call raises and the collection is gone, not
    replaced. *)
Theorem create_collection_reset_interrupted (self : vectordb_client)
    (n : string) (embedding_size : option Z) (w : world) :
  size_supplied self embedding_size →
  is_Some (store w !! n) →
  faults w !! 0%nat ≠ Some true →
  faults w !! 1%nat ≠ Some true →
  faults w !! 2%nat = Some true →
  ∃ w',
    VectorDBInterface.create_collection self n embedding_size true w
      = (Raise (Exn ClientError "client request failed"), w')
    ∧ store w' = delete n (store w)
    ∧ store w' !! n = None
    ∧ calls w' =
        calls w ++ [exists_call self n; delete_call self n; exists_call self n].
Proof.
  intros Hsz Hex H0 H1 H2.
  rewrite create_collection_unfold by done.
  rewrite bind_run, delete_collection_unfold, bind_run.
  rewrite is_collection_existed_step, next_fault_false by done.
  rewrite bool_decide_eq_true_2 by done.
  rewrite client_delete_step by done.
  rewrite next_fault_false by (simpl; by rewrite lookup_tail_S).
  rewrite bind_run, is_collection_existed_step.
  rewrite (proj2 (next_fault_lookup _)) by (simpl; by rewrite !lookup_tail_S).
  eexists. split; [reflexivity|]. simpl. split_and!; [done| |].
  - apply lookup_delete_eq.
  - by rewrite <- !app_assoc.
Qed.

Lemma create_collection_reset_interrupted_witness :
  ∃ w',
    VectorDBInterface.create_collection Qdrant "cars" (Some 2) true
      (cars_world Qdrant [false; false; true])
      = (Raise (Exn ClientError "client request failed"), w')
    ∧ store w' = ∅.
Proof.
  assert (size_supplied Qdrant (Some 2)) as Hsz by (by eexists).
  assert (is_Some (store (cars_world Qdrant [false; false; true]) !! "cars"))
    as Hex by (by eexists).
  destruct (create_collection_reset_interrupted Qdrant "cars" (Some 2)
              (cars_world Qdrant [false; false; true]) Hsz Hex
              ltac:(discriminate) ltac:(discriminate) eq_refl)
    as (w' & Hrun & Hs & _).
  exists w'. split; [exact Hrun|]. rewrite Hs. reflexivity.
Defined.

(** ** Reading *)

Lemma keeps_store_ret {A} (a : A) : keeps_store (mret a : M A).
Proof. by intros w. Qed.

Lemma keeps_store_raise {A} (e : exn) : keeps_store (raise e : M A).
Proof. by intros w. Qed.

Lemma keeps_store_lift {A} (r : result A) : keeps_store (lift r).
Proof. by intros w. Qed.

Lemma keeps_store_logger (l : level) (t : string) : keeps_store (logger l t).
Proof. by intros w. Qed.

Lemma keeps_store_request (c : call) : keeps_store (request c).
Proof. by intros w. Qed.

Lemma keeps_store_get_store : keeps_store get_store.
Proof. by intros w. Qed.

Lemma keeps_store_bind {A B} (m : M A) (k : A → M B) :
  keeps_store m → (∀ a, keeps_store (k a)) → keeps_store (m ≫= k).
Proof.
  intros Hm Hk w. rewrite bind_run. specialize (Hm w).
  destruct (m w) as [[a|e] w1]; simpl in *; [|done].
  by rewrite Hk.
Qed.

Lemma keeps_store_try_except {A} (body : M A) (handler : exn → M A) :
  keeps_store body → (∀ e, keeps_store (handler e)) →
  keeps_store (try_except body handler).
Proof.
  intros Hb Hh w. unfold try_except. specialize (Hb w).
  destruct (body w) as [[a|e] w1]; simpl in *; [done|].
  by rewrite Hh.
Qed.

Lemma keeps_store_missing {A} (n : string) :
  keeps_store (missing_collection n : M A).
Proof. by intros w. Qed.

Ltac keeps_store :=
  repeat first
    [ apply keeps_store_ret | apply keeps_store_raise | apply keeps_store_lift
    | apply keeps_store_logger | apply keeps_store_request
    | apply keeps_store_get_store | apply keeps_store_missing
    | apply keeps_store_try_except | apply keeps_store_bind
    | match goal with
      | |- ∀ _, _ => intros ?
      | |- keeps_store (match ?x with _ => _ end) => destruct x
      | |- keeps_store (if ?x then _ else _) => destruct x
      end ].

Lemma is_collection_existed_keeps_store self n :
  keeps_store (VectorDBInterface.is_collection_existed self n).
Proof.
  destruct self; simpl.
  - unfold ChromaDBProvider.is_collection_existed, chromadb.list_collections.
    keeps_store.
  - unfold QdrantDBProvider.is_collection_existed,
      qdrant_client.collection_exists. keeps_store.
Qed.

Lemma get_collection_info_keeps_store self n :
  keeps_store (VectorDBInterface.get_collection_info self n).
Proof.
  destruct self; simpl.
  - unfold ChromaDBProvider.get_collection_info, chromadb.get_collection,
      chromadb.count. keeps_store.
  - unfold QdrantDBProvider.get_collection_info, qdrant_client.get_collection.
    keeps_store.
Qed.

Lemma search_by_vector_keeps_store `{Externals} self n v limit :
  keeps_store (VectorDBInterface.search_by_vector self n v limit).
Proof.
  destruct self; simpl.
  - unfold ChromaDBProvider.search_by_vector, chromadb.get_collection,
      chromadb.query. keeps_store.
  - unfold QdrantDBProvider.search_by_vector, qdrant_client.search.
    keeps_store.
Qed.

(** X3. Whatever the client does, faults included, the reading operations
    of either provider ([is_collection_existed], [get_collection_info],
    [search_by_vector]) and the retrieval of the controller leave every
    collection as it was. *)
Theorem reading_keeps_the_store `{Externals} (self : vectordb_client)
    (rag : RAGController.t) (n query : string) (v : embedding) (limit : Z)
    (w : world) :
  store (VectorDBInterface.is_collection_existed self n w).2 = store w
  ∧ store (VectorDBInterface.get_collection_info self n w).2 = store w
  ∧ store (VectorDBInterface.search_by_vector self n v limit w).2 = store w
  ∧ store (RAGController.search_vector_db_collection rag query limit w).2
    = store w.
Proof.
  split_and!.
  - apply is_collection_existed_keeps_store.
  - apply get_collection_info_keeps_store.
  - apply search_by_vector_keeps_store.
  - revert w. unfold RAGController.search_vector_db_collection.
    apply keeps_store_try_except; [|keeps_store].
    apply keeps_store_bind; [keeps_store|]. intros vec.
    destruct (falsy vec); [keeps_store|].
    apply keeps_store_bind; [apply search_by_vector_keeps_store|].
    keeps_store.
Qed.

Lemma chroma_get_collection_info_answers (n : string) (w : world) :
  ∃ info w', ChromaDBProvider.get_collection_info n w = (Ok info, w').
Proof.
  unfold ChromaDBProvider.get_collection_info, try_except.
  match goal with |- context [match ?m with _ => _ end] => destruct m as [[info|e] w1] end;
    by eexists _, _.
Qed.

Lemma qdrant_get_collection_info_missing (n : string) (w : world) :
  store w !! n = None →
  ∃ e, QdrantDBProvider.get_collection_info n w
       = (Raise e, after (QdrantGetCollection n) w).
Proof.
  intros Hn. unfold QdrantDBProvider.get_collection_info,
    qdrant_client.get_collection.
  rewrite !bind_run. unfold request.
  destruct (next_fault w); [by eexists|].
  rewrite bind_run. unfold get_store. simpl. rewrite Hn. by eexists.
Qed.

(** X4. Chroma's [get_collection_info] never raises: on a name that is not
    there it logs one error and answers the empty dict, and when its two
    requests go through on a collection it answers the name, the number of
    stored documents and the metadata, logging nothing.  Qdrant's has no
    handler: on a name that is not there it raises. *)
Theorem get_collection_info_spec (n : string) (w : world) :
  (∃ info w',
     ChromaDBProvider.get_collection_info n w = (Ok info, w')
     ∧ (store w !! n = None →
        info = EmptyInfo ∧ ∃ line, logs w' = logs w ++ [Log ERROR line])
     ∧ (∀ c, store w !! n = Some c →
        faults w !! 0%nat ≠ Some true → faults w !! 1%nat ≠ Some true →
        info = ChromaInfo n (length (cpoints c)) (cconfig c)
        ∧ logs w' = logs w))
  ∧ (store w !! n = None →
     ∃ e, QdrantDBProvider.get_collection_info n w
          = (Raise e, after (QdrantGetCollection n) w)).
Proof.
  split.
  - unfold ChromaDBProvider.get_collection_info, try_except.
    rewrite bind_run, chroma_get_collection_run.
    destruct (next_fault w) eqn:Hf.
    + eexists _, _. split; [reflexivity|]. split.
      * intros _. split; [done|]. by eexists.
      * intros c Hc H0. by apply next_fault_lookup in Hf.
    + destruct (store w !! n) as [c|] eqn:Hc.
      * rewrite bind_run, chroma_count_run. simpl. rewrite Hc.
        destruct (next_fault (after (ChromaGetCollection n) w)) eqn:Hf2.
        -- eexists _, _. split; [reflexivity|]. split; [done|].
           intros c' _ _ H1. apply next_fault_lookup in Hf2. simpl in Hf2.
           by rewrite lookup_tail_S in Hf2.
        -- eexists _, _. split; [reflexivity|]. split; [done|].
           by intros c' [= <-] _ _.
      * eexists _, _. split; [reflexivity|]. split; [|done].
        intros _. split; [done|]. by eexists.
  - apply qdrant_get_collection_info_missing.
Qed.

(** X5. In read-only mode [index_into_vector_db] embeds nothing and leaves
    the store as it was; it answers the collection info on Chroma whatever
    happens, and raises on Qdrant when the collection is not there. *)
Theorem index_read_only `{Externals} (self : RAGController.t) (w : world) :
  RAGController.em self = false →
  ∃ r w',
    RAGController.index_into_vector_db self w = (r, w')
    ∧ store w' = store w
    ∧ (RAGController.vectordb_client self = Chroma → ∃ info, r = Ok (Some info))
    ∧ (RAGController.vectordb_client self = Qdrant →
       store w !! COLLECTION_NAME (RAGController.app_settings self) = None →
       ∃ e, r = Raise e).
Proof.
  intros Hem. unfold RAGController.index_into_vector_db. rewrite Hem. simpl.
  rewrite bind_run.
  pose proof (get_collection_info_keeps_store
                (RAGController.vectordb_client self)
                (COLLECTION_NAME (RAGController.app_settings self)) w) as Hkeep.
  destruct (VectorDBInterface.get_collection_info _ _ w) as [[info|e] w1]
    eqn:Hrun; simpl in Hkeep.
  - eexists _, _. split; [reflexivity|]. split_and!; [done|by eexists|].
    intros Hq Hn. rewrite Hq in Hrun. simpl in Hrun.
    destruct (qdrant_get_collection_info_missing _ _ Hn) as [e He].
    congruence.
  - eexists _, _. split; [reflexivity|]. split_and!; [done| |by eexists].
    intros Hc. rewrite Hc in Hrun. simpl in Hrun.
    destruct (chroma_get_collection_info_answers
                (COLLECTION_NAME (RAGController.app_settings self)) w)
      as (info & w' & Hok). congruence.
Qed.

Lemma index_read_only_witness :
  ∃ r w',
    @RAGController.index_into_vector_db sample_externals
      (sample_rag Qdrant false) empty_world = (r, w')
    ∧ store w' = store empty_world
    ∧ (Qdrant = Chroma → ∃ info, r = Ok (Some info))
    ∧ (Qdrant = Qdrant →
       store empty_world !! "cars" = None → ∃ e, r = Raise e).
Proof.
  exact (@index_read_only sample_externals (sample_rag Qdrant false)
           empty_world eq_refl).
Defined.

(** ** Batch sizes that give no batch *)

Lemma py_range_nonpositive (n : nat) (batch_size : Z) :
  batch_size ≤ 0 →
  py_range 0 (Z.of_nat n) batch_size =
    if decide (batch_size = 0)
    then Raise (Exn ValueError "range() arg 3 must not be zero")
    else Ok [].
Proof.
  intros Hb. unfold py_range. case_decide; [done|].
  rewrite decide_False by lia. by rewrite decide_False by lia.
Qed.

(** X6. [insert_many] with a batch size that is not positive stores
    nothing.  Qdrant's does not touch its client at all: it raises the
    [ValueError] of [range] on 0 and answers [True] on a negative size,
    whatever it was given and whether or not the collection exists.
    Chroma's only fetches the collection and never raises: it answers
    [True] exactly when the size is negative and the fetch succeeded. *)
Theorem insert_many_no_batch (name : string) (texts : list string)
    (vectors : list embedding) (metadata : option (list (gmap string string)))
    (record_ids : option (list point_id)) (batch_size : Z) (w : world) :
  batch_size ≤ 0 →
  QdrantDBProvider.insert_many name texts vectors metadata record_ids
    batch_size w
  = (if decide (batch_size = 0)
     then Raise (Exn ValueError "range() arg 3 must not be zero")
     else Ok true, w)
  ∧ ∃ r w',
      ChromaDBProvider.insert_many name texts vectors metadata record_ids
        batch_size w = (Ok r, w')
      ∧ store w' = store w
      ∧ calls w' = calls w ++ [ChromaGetCollection name]
      ∧ (r = true ↔
         batch_size < 0 ∧ next_fault w = false ∧ is_Some (store w !! name)).
Proof.
  intros Hb. split.
  - unfold QdrantDBProvider.insert_many. rewrite bind_run. unfold lift.
    rewrite py_range_nonpositive by done. by case_decide.
  - unfold ChromaDBProvider.insert_many, try_except.
    rewrite bind_run, chroma_get_collection_run.
    destruct (next_fault w) eqn:Hf.
    { eexists _, _. split; [reflexivity|]. split_and!; [done|done|].
      split; [done|]. by intros (_ & ? & _). }
    destruct (store w !! name) as [c|] eqn:Hc.
    2:{ eexists _, _. split; [reflexivity|]. split_and!; [done|done|].
        split; [done|]. by intros (_ & _ & [? ?]). }
    rewrite bind_run. unfold lift. rewrite py_range_nonpositive by done.
    case_decide as Hz.
    + eexists _, _. split; [reflexivity|]. split_and!; [done|done|].
      split; [done|]. intros (? & _). lia.
    + eexists _, _. split; [reflexivity|]. split_and!; [done|done|].
      split; [|done]. intros _. split_and!; [lia|done|by eexists].
Qed.

Lemma insert_many_no_batch_witness :
  QdrantDBProvider.insert_many "cars" five_texts five_vectors None None (-1)
    empty_world
  = (Ok true, empty_world)
  ∧ ∃ r w',
      ChromaDBProvider.insert_many "cars" five_texts five_vectors None None
        (-1) empty_world = (Ok r, w')
      ∧ store w' = store empty_world
      ∧ calls w' = calls empty_world ++ [ChromaGetCollection "cars"]
      ∧ (r = true ↔
         -1 < 0 ∧ next_fault empty_world = false
         ∧ is_Some (store empty_world !! "cars")).
Proof.
  exact (insert_many_no_batch "cars" five_texts five_vectors None None (-1)
           empty_world ltac:(lia)).
Defined.

(** ** Fewer vectors than texts *)

Lemma for_each_raises {A} (xs : list A) (body : A → M unit) (x : A) :
  x ∈ xs →
  (∀ w, ∃ e w', body x w = (Raise e, w')) →
  ∀ w, ∃ e w', for_each xs body w = (Raise e, w').
Proof.
  intros Hx Hbad. induction xs as [|y xs IH]; intros w.
  { by apply elem_of_nil in Hx. }
  simpl. rewrite bind_run.
  destruct (body y w) as [[[]|e] w1] eqn:Hy; [|by eexists _, _].
  apply elem_of_cons in Hx as [->|Hx]; [|by apply IH].
  destruct (Hbad w) as (e & w' & He). congruence.
Qed.

Lemma length_batch {A} (b k : nat) (l : list A) :
  length (batch b k l) = (b `min` (length l - k * b))%nat.
Proof. unfold batch. by rewrite length_take, length_drop. Qed.

(** The batch in which the vectors run out: it exists, and it has more
    texts than vectors. *)
Lemma short_batch (b n lv : nat) :
  (0 < b)%nat → (lv < n)%nat →
  let k := (lv / b)%nat in
  (k < batch_count n b)%nat
  ∧ (b `min` (lv - k * b) < b `min` (n - k * b))%nat.
Proof.
  intros Hb Hlv k.
  pose proof (Nat.Div0.mul_div_le lv b) as Hle.
  pose proof (Nat.mul_succ_div_gt lv b ltac:(lia)) as Hgt.
  fold k in Hle, Hgt.
  pose proof (batch_count_covers n b Hb) as Hcov.
  split; [nia|lia].
Qed.

Lemma chroma_add_unequal (h : chromadb.handle) (documents : list string)
    (metadatas : list (gmap string string)) (ids : list point_id)
    (embeddings : list embedding) (w : world) :
  length embeddings ≠ length documents →
  ∃ e w', chromadb.add h documents metadatas ids embeddings w = (Raise e, w').
Proof.
  intros Hne. unfold chromadb.add. rewrite bind_run. unfold request.
  destruct (next_fault w); [by eexists _, _|].
  rewrite bool_decide_eq_false_2 by lia. by eexists _, _.
Qed.

Lemma collect_raise {A} (rs : list (result A)) (e : exn) :
  collect rs = Raise e → Raise e ∈ rs.
Proof.
  induction rs as [|[a|e'] rs IH]; simpl; [done| |].
  - destruct (collect rs); simpl; [done|].
    intros [= ->]. right. by apply IH.
  - intros [= ->]. left.
Qed.

Lemma collect_ok {A} (rs : list (result A)) (l : list A) :
  collect rs = Ok l → rs = Ok <$> l.
Proof.
  revert l. induction rs as [|[a|e'] rs IH]; intros l; simpl.
  - by intros [= <-].
  - destruct (collect rs) as [l'|]; simpl; [|done].
    intros [= <-]. simpl. f_equal. by apply IH.
  - done.
Qed.

(** [batch_records] raises nothing but the [IndexError] of a list that is
    too short, and does raise it when there are fewer vectors than
    texts. *)
Lemma batch_records_raise (ts : list string) (vs : list embedding)
    (ms : list (option (gmap string string))) (ids : list point_id) (e : exn) :
  QdrantDBProvider.batch_records ts vs ms ids = Raise e →
  e = Exn IndexError "list index out of range".
Proof.
  intros Hr. apply collect_raise, list_elem_of_fmap in Hr as (x & Hx & _).
  unfold py_index in Hx.
  destruct (ids !! x); simpl in Hx; [|congruence].
  destruct (vs !! x); simpl in Hx; [|congruence].
  destruct (ts !! x); simpl in Hx; [|congruence].
  destruct (ms !! x); simpl in Hx; [|congruence].
  done.
Qed.

Lemma batch_records_short (ts : list string) (vs : list embedding)
    (ms : list (option (gmap string string))) (ids : list point_id) :
  (length vs < length ts)%nat →
  QdrantDBProvider.batch_records ts vs ms ids
  = Raise (Exn IndexError "list index out of range").
Proof.
  intros Hlen.
  destruct (QdrantDBProvider.batch_records ts vs ms ids) as [l|e] eqn:Hr.
  - exfalso. apply collect_ok in Hr.
    apply (f_equal (λ l, l !! length vs)) in Hr.
    rewrite !list_lookup_fmap, lookup_seq_lt in Hr by done. simpl in Hr.
    unfold py_index in Hr.
    destruct (ids !! length vs); simpl in Hr; [|by destruct (l !! _)].
    rewrite (lookup_ge_None_2 vs) in Hr by done. simpl in Hr.
    by destruct (l !! _).
  - f_equal. by eapply batch_records_raise.
Qed.

Lemma upload_batches_short (name : string) (texts : list string)
    (vectors : list embedding) (metadata : list (option (gmap string string)))
    (record_ids : list point_id) (batch_size : Z) (starts : list Z) (i : Z) :
  i ∈ starts →
  (length (py_slice vectors i (i + batch_size))
   < length (py_slice texts i (i + batch_size)))%nat →
  ∀ w, ∃ r w',
    QdrantDBProvider.upload_batches name texts vectors metadata record_ids
      batch_size starts w = (r, w')
    ∧ (r = Ok false ∨ r = Raise (Exn IndexError "list index out of range")).
Proof.
  intros Hi Hshort. induction starts as [|j starts IH]; intros w.
  { by apply elem_of_nil in Hi. }
  cbn [QdrantDBProvider.upload_batches]. rewrite bind_run. unfold lift at 1.
  destruct (QdrantDBProvider.batch_records _ _ _ _) as [recs|e] eqn:Hrecs.
  2:{ apply batch_records_raise in Hrecs as ->. eexists _, _.
      split; [reflexivity|by right]. }
  rewrite bind_run. unfold try_except at 1.
  match goal with
  | |- context [(qdrant_client.upload_records ?n ?r ≫= ?k) w] =>
      destruct ((qdrant_client.upload_records n r ≫= k) w)
        as [[[]|e] w1] eqn:Hup
  end.
  - cbn [fst snd]. apply elem_of_cons in Hi as [->|Hi]; [|by apply IH].
    by rewrite batch_records_short in Hrecs.
  - rewrite bind_run in Hup.
    destruct (qdrant_client.upload_records _ _ w) as [[[]|?] ?]; done.
  - simpl. eexists _, _. split; [reflexivity|by left].
Qed.

(** X7. When [insert_many] is given fewer vectors than texts (and a
    positive batch size), neither provider reports success, whatever else
    it is given and whatever the client does: Chroma's answers [False],
    Qdrant's answers [False] or raises the [IndexError] of its list
    comprehension to the caller. *)
Theorem insert_many_too_few_vectors (name : string) (texts : list string)
    (vectors : list embedding) (metadata : option (list (gmap string string)))
    (record_ids : option (list point_id)) (batch_size : Z) (w : world) :
  0 < batch_size →
  (length vectors < length texts)%nat →
  (∃ w',
     ChromaDBProvider.insert_many name texts vectors metadata record_ids
       batch_size w = (Ok false, w'))
  ∧ (∃ r w',
       QdrantDBProvider.insert_many name texts vectors metadata record_ids
         batch_size w = (r, w')
       ∧ (r = Ok false
          ∨ r = Raise (Exn IndexError "list index out of range"))).
Proof.
  intros Hb Hlv.
  set (b := Z.to_nat batch_size).
  set (k := (length vectors / b)%nat).
  destruct (short_batch b (length texts) (length vectors)
              ltac:(subst b; lia) Hlv) as [Hk Hmin].
  fold k in Hk, Hmin.
  assert ((0 + Z.of_nat k * batch_size)
          ∈ (λ k : nat, 0 + Z.of_nat k * batch_size)
              <$> seq 0 (batch_count (length texts) b)) as Hin.
  { apply list_elem_of_fmap. exists k. split; [done|].
    apply elem_of_seq. lia. }
  assert (length (py_slice vectors (0 + Z.of_nat k * batch_size)
                    (0 + Z.of_nat k * batch_size + batch_size))
          < length (py_slice texts (0 + Z.of_nat k * batch_size)
                      (0 + Z.of_nat k * batch_size + batch_size)))%nat
    as Hshort.
  { rewrite !py_slice_batch by done. by rewrite !length_batch. }
  split.
  - unfold ChromaDBProvider.insert_many, try_except.
    rewrite bind_run, chroma_get_collection_run.
    destruct (next_fault w); [by eexists|].
    destruct (store w !! name) as [c|]; [|by eexists].
    rewrite bind_run. unfold lift at 1.
    rewrite py_range_batches by done. rewrite bind_run.
    edestruct (for_each_raises _
                 (ChromaDBProvider.add_batch
                    {| chromadb.h_name := name;
                       chromadb.h_metadata := cconfig c |}
                    texts vectors
                    (default (replicate (length texts) ∅) metadata)
                    (default ((λ i : nat, IdStr (pretty i))
                                <$> seq 0 (length texts)) record_ids)
                    batch_size) _ Hin) as (e & w' & ->).
    + intros w0. unfold ChromaDBProvider.add_batch.
      apply chroma_add_unequal. lia.
    + by eexists.
  - unfold QdrantDBProvider.insert_many. rewrite bind_run. unfold lift at 1.
    rewrite py_range_batches by done.
    by eapply upload_batches_short.
Qed.

Lemma insert_many_too_few_vectors_witness :
  (∃ w',
     ChromaDBProvider.insert_many "cars" five_texts [sample_vector] None None
       2 (cars_world Chroma []) = (Ok false, w'))
  ∧ (∃ r w',
       QdrantDBProvider.insert_many "cars" five_texts [sample_vector] None
         None 2 (cars_world Qdrant []) = (r, w')
       ∧ (r = Ok false
          ∨ r = Raise (Exn IndexError "list index out of range"))).
Proof.
  split.
  - apply (insert_many_too_few_vectors "cars" five_texts [sample_vector] None
             None 2 (cars_world Chroma [])); [lia | simpl; lia].
  - apply (insert_many_too_few_vectors "cars" five_texts [sample_vector] None
             None 2 (cars_world Qdrant [])); [lia | simpl; lia].
Defined.

(** ** Inserting only adds *)

Global Instance only_adds_refl self name : Reflexive (only_adds self name).
Proof.
  intros s. split; [done|]. destruct (s !! name) as [c|] eqn:Hc; [|done].
  by exists c.
Qed.

Global Instance only_adds_trans self name : Transitive (only_adds self name).
Proof.
  intros s1 s2 s3 [Ho1 Hn1] [Ho2 Hn2]. split.
  - intros n Hn. by rewrite Ho2, Ho1.
  - destruct (s1 !! name) as [c1|].
    + destruct Hn1 as (c2 & Hc2 & Hcfg2 & Hpre2). rewrite Hc2 in Hn2.
      destruct Hn2 as (c3 & Hc3 & Hcfg3 & Hpre3).
      exists c3. split_and!; [done|congruence|].
      intros Hself. by etrans; [apply Hpre2|apply Hpre3].
    + by rewrite Hn1 in Hn2.
Qed.

Global Instance only_adds_preorder self name : PreOrder (only_adds self name).
Proof. split; apply _. Qed.

Section along.
Context (R : relation (gmap string collection)) `{!PreOrder R}.

Lemma along_keeps {A} (m : M A) : keeps_store m → along R m.
Proof. intros Hm w. by rewrite Hm. Qed.

Lemma along_bind {A B} (m : M A) (k : A → M B) :
  along R m → (∀ a, along R (k a)) → along R (m ≫= k).
Proof.
  intros Hm Hk w. rewrite bind_run. specialize (Hm w).
  destruct (m w) as [[a|e] w1]; simpl in *; [|done].
  etrans; [exact Hm|apply Hk].
Qed.

Lemma along_try_except {A} (body : M A) (handler : exn → M A) :
  along R body → (∀ e, keeps_store (handler e)) →
  along R (try_except body handler).
Proof.
  intros Hb Hh w. unfold try_except. specialize (Hb w).
  destruct (body w) as [[a|e] w1]; simpl in *; [done|].
  by rewrite Hh.
Qed.

Lemma along_for_each {A} (xs : list A) (body : A → M unit) :
  (∀ x, along R (body x)) → along R (for_each xs body).
Proof.
  intros Hbody. induction xs as [|x xs IH].
  - intros w. simpl. reflexivity.
  - simpl. by apply along_bind.
Qed.

End along.

Lemma add_points_prefix (stored new : list point) :
  stored `prefix_of` chromadb.add_points stored new.
Proof.
  revert stored. induction new as [|p new IH]; intros stored; [done|].
  simpl. etrans; [|apply IH]. unfold chromadb.add_point.
  case_decide; [done|]. by apply prefix_app_r.
Qed.

Lemma chroma_add_only_adds (self : vectordb_client) (h : chromadb.handle)
    (documents : list string) (metadatas : list (gmap string string))
    (ids : list point_id) (embeddings : list embedding) :
  along (only_adds self (chromadb.h_name h))
    (chromadb.add h documents metadatas ids embeddings).
Proof.
  intros w. unfold chromadb.add. rewrite bind_run. unfold request.
  destruct (next_fault w); [reflexivity|].
  destruct (negb _); [reflexivity|].
  rewrite bind_run. unfold get_store. simpl.
  destruct (store w !! chromadb.h_name h) as [c|] eqn:Hc; simpl.
  - split.
    + intros n Hn. by rewrite lookup_insert_ne.
    + rewrite Hc. eexists. rewrite lookup_insert_eq.
      split_and!; [done|done|]. intros _. apply add_points_prefix.
  - split; [done|]. by rewrite Hc.
Qed.

Lemma upload_records_only_adds (name : string) (records : list point) :
  along (only_adds Qdrant name) (qdrant_client.upload_records name records).
Proof.
  intros w. unfold qdrant_client.upload_records. rewrite bind_run.
  unfold request. destruct (next_fault w); [reflexivity|].
  rewrite bind_run. unfold get_store. simpl.
  destruct (store w !! name) as [c|] eqn:Hc; simpl.
  - split.
    + intros n Hn. by rewrite lookup_insert_ne.
    + rewrite Hc. eexists. rewrite lookup_insert_eq. by split_and!.
  - split; [done|]. by rewrite Hc.
Qed.

(** What follows [get_collection] works on the collection of that name. *)
Lemma along_get_collection (R : relation (gmap string collection))
    `{!PreOrder R} {B} (n : string) (k : chromadb.handle → M B) :
  (∀ cfg, along R (k {| chromadb.h_name := n; chromadb.h_metadata := cfg |})) →
  along R (chromadb.get_collection n ≫= k).
Proof.
  intros Hk w. rewrite bind_run, chroma_get_collection_run.
  destruct (next_fault w); [reflexivity|].
  destruct (store w !! n) as [c|]; [|reflexivity].
  apply (Hk (cconfig c) (after (ChromaGetCollection n) w)).
Qed.

Lemma upload_batches_only_adds (name : string) (texts : list string)
    (vectors : list embedding) (metadata : list (option (gmap string string)))
    (record_ids : list point_id) (batch_size : Z) (starts : list Z) :
  along (only_adds Qdrant name)
    (QdrantDBProvider.upload_batches name texts vectors metadata record_ids
       batch_size starts).
Proof.
  induction starts as [|i starts IH].
  - intros w. reflexivity.
  - cbn [QdrantDBProvider.upload_batches].
    apply along_bind; [apply _|apply along_keeps; [apply _|keeps_store]|].
    intros recs. apply along_bind; [apply _| |].
    + apply along_try_except; [apply _| |keeps_store].
      apply along_bind; [apply _|apply upload_records_only_adds|].
      intros []. apply along_keeps; [apply _|keeps_store].
    + intros [|]; [exact IH|]. apply along_keeps; [apply _|keeps_store].
Qed.

Lemma keeps_store_draw_uuid `{Externals} : keeps_store draw_uuid.
Proof. by intros w. Qed.

(** X8. Whatever they are given and whatever the client does, [insert_one]
    and [insert_many] of either provider create and delete no collection,
    leave every other collection as it was and keep the configuration of
    the one they write to; on Chroma the records that were stored stay
    where they are, new ones only come after them. *)
Theorem insert_only_adds `{Externals} (self : vectordb_client)
    (name text : string) (vector : embedding)
    (md : option (gmap string string)) (record_id : option string)
    (texts : list string) (vectors : list embedding)
    (metadata : option (list (gmap string string)))
    (record_ids : option (list point_id)) (batch_size : Z) (w : world) :
  only_adds self name (store w)
    (store (VectorDBInterface.insert_one self name text vector md record_id
              w).2)
  ∧ only_adds self name (store w)
      (store (VectorDBInterface.insert_many self name texts vectors metadata
                record_ids batch_size w).2).
Proof.
  split; revert w; destruct self; simpl.
  - unfold ChromaDBProvider.insert_one.
    apply along_bind; [apply _| |].
    { apply along_keeps; [apply _|].
      apply (is_collection_existed_keeps_store Chroma). }
    intros [|]; simpl; [|apply along_keeps; [apply _|keeps_store]].
    apply along_try_except; [apply _| |keeps_store].
    apply along_get_collection; [apply _|]. intros cfg.
    apply along_bind; [apply _| |].
    { apply along_keeps; [apply _|].
      destruct record_id; [keeps_store|apply keeps_store_draw_uuid]. }
    intros rid. apply along_bind; [apply _| |].
    { apply (chroma_add_only_adds Chroma
               {| chromadb.h_name := name; chromadb.h_metadata := cfg |}). }
    intros []. apply along_keeps; [apply _|keeps_store].
  - unfold QdrantDBProvider.insert_one.
    apply along_bind; [apply _| |].
    { apply along_keeps; [apply _|].
      apply (is_collection_existed_keeps_store Qdrant). }
    intros [|]; simpl; [|apply along_keeps; [apply _|keeps_store]].
    apply along_try_except; [apply _| |keeps_store].
    apply along_bind; [apply _|apply upload_records_only_adds|].
    intros []. apply along_keeps; [apply _|keeps_store].
  - unfold ChromaDBProvider.insert_many.
    apply along_try_except; [apply _| |keeps_store].
    apply along_get_collection; [apply _|]. intros cfg.
    apply along_bind; [apply _|apply along_keeps; [apply _|keeps_store]|].
    intros starts. apply along_bind; [apply _| |].
    { apply along_for_each; [apply _|]. intros i.
      unfold ChromaDBProvider.add_batch.
      apply (chroma_add_only_adds Chroma
               {| chromadb.h_name := name; chromadb.h_metadata := cfg |}). }
    intros []. apply along_keeps; [apply _|keeps_store].
  - unfold QdrantDBProvider.insert_many.
    apply along_bind; [apply _|apply along_keeps; [apply _|keeps_store]|].
    intros starts. apply upload_batches_only_adds.
Qed.

(** ** One record into Chroma *)

Lemma chroma_add_run (h : chromadb.handle) (documents : list string)
    (metadatas : list (gmap string string)) (ids : list point_id)
    (embeddings : list embedding) (c : collection) (w : world) :
  length documents = length ids →
  length metadatas = length ids →
  length embeddings = length ids →
  store w !! chromadb.h_name h = Some c →
  next_fault w = false →
  chromadb.add h documents metadatas ids embeddings w =
    (Ok tt,
     with_store
       (<[chromadb.h_name h :=
            Collection (cconfig c)
              (chromadb.add_points (cpoints c)
                 (chromadb.zip_points documents metadatas ids embeddings))]>
          (store w))
       (after (ChromaAdd (chromadb.h_name h) documents metadatas ids
                 embeddings) w)).
Proof.
  intros H1 H2 H3 Hc Hf. unfold chromadb.add. rewrite bind_run.
  unfold request. rewrite Hf.
  rewrite bool_decide_eq_true_2 by done. simpl.
  rewrite bind_run. unfold get_store. simpl. by rewrite Hc.
Qed.

Lemma chroma_add_refused (h : chromadb.handle) (documents : list string)
    (metadatas : list (gmap string string)) (ids : list point_id)
    (embeddings : list embedding) (w : world) :
  next_fault w = true →
  chromadb.add h documents metadatas ids embeddings w =
    (Raise (Exn ClientError "client request failed"),
     after (ChromaAdd (chromadb.h_name h) documents metadatas ids embeddings)
       w).
Proof.
  intros Hf. unfold chromadb.add. rewrite bind_run. unfold request.
  by rewrite Hf.
Qed.

(** X9. [insert_one] of Chroma's provider on a collection that exists, when
    the listing and the fetch go through.  It makes three requests: list,
    fetch, and an add that carries the text, the vector, the id it was
    given or else a freshly drawn one, and the metadata it was given or
    else the empty dict.  It never raises.  If the client refuses the add
    (as the real client does with an empty metadata dict), the answer is
    [False], one error is logged and nothing is stored.  If the client
    accepts it and the metadata was given and is not empty, the answer is
    [True], nothing is logged, and the record is stored after those already
    there, unless its id is taken: then nothing is stored either. *)
Theorem chroma_insert_one_stores `{Externals} (name text : string)
    (vector : embedding) (md : option (gmap string string))
    (record_id : option string) (c : collection) (w : world) :
  store w !! name = Some c →
  faults w !! 0%nat ≠ Some true →
  faults w !! 1%nat ≠ Some true →
  let rid := IdStr (default (uuid4 (uuids w)) record_id) in
  ∃ r w',
    ChromaDBProvider.insert_one name text vector md record_id w = (Ok r, w')
    ∧ calls w'
      = calls w ++ [ChromaListCollections; ChromaGetCollection name;
                    ChromaAdd name [text] [default ∅ md] [rid] [vector]]
    ∧ uuids w' = match record_id with
                 | Some _ => uuids w
                 | None => S (uuids w)
                 end
    ∧ (faults w !! 2%nat = Some true →
       r = false
       ∧ store w' = store w
       ∧ ∃ line, logs w' = logs w ++ [Log ERROR line])
    ∧ (faults w !! 2%nat ≠ Some true →
       ∀ m, md = Some m → m ≠ ∅ →
       r = true
       ∧ logs w' = logs w
       ∧ store w' !! name
         = Some (Collection (cconfig c)
                   (if decide (rid ∈ pid <$> cpoints c) then cpoints c
                    else cpoints c ++ [Point rid text vector (Some m)]))).
Proof.
  intros Hc Hf0 Hf1 rid. unfold ChromaDBProvider.insert_one.
  rewrite bind_run, chroma_is_collection_existed_run.
  rewrite next_fault_false by done.
  rewrite bool_decide_eq_true_2 by (by eexists). simpl.
  unfold try_except. rewrite bind_run, chroma_get_collection_run.
  rewrite next_fault_false by (simpl; by rewrite lookup_tail_S).
  cbn [store after]. rewrite Hc. rewrite bind_run.
  set (h := {| chromadb.h_name := name; chromadb.h_metadata := cconfig c |}).
  assert (∀ w2 : world,
    store w2 = store w →
    faults w2 = tail (tail (faults w)) →
    calls w2 = calls w ++ [ChromaListCollections; ChromaGetCollection name] →
    logs w2 = logs w →
    ∃ r w',
      (let (r, w') :=
         (chromadb.add h [text] [default ∅ md] [rid] [vector];; mret true) w2
       in match r with
          | Ok a => (Ok a, w')
          | Raise e =>
              (logger ERROR ("Error while inserting record: " +:+ exn_text e);;
               mret false) w'
          end) = (Ok r, w')
      ∧ calls w'
        = calls w ++ [ChromaListCollections; ChromaGetCollection name;
                      ChromaAdd name [text] [default ∅ md] [rid] [vector]]
      ∧ uuids w' = uuids w2
      ∧ (faults w !! 2%nat = Some true →
         r = false
         ∧ store w' = store w
         ∧ ∃ line, logs w' = logs w ++ [Log ERROR line])
      ∧ (faults w !! 2%nat ≠ Some true →
         ∀ m, md = Some m → m ≠ ∅ →
         r = true
         ∧ logs w' = logs w
         ∧ store w' !! name
           = Some (Collection (cconfig c)
                     (if decide (rid ∈ pid <$> cpoints c) then cpoints c
                      else cpoints c ++ [Point rid text vector (Some m)]))))
    as Hadd.
  { intros w2 Hs2 Hfs2 Hcalls2 Hlogs2.
    assert (next_fault w2 = true ↔ faults w !! 2%nat = Some true) as Hnext.
    { rewrite next_fault_lookup, Hfs2. by rewrite !lookup_tail_S. }
    rewrite bind_run.
    destruct (next_fault w2) eqn:Hf2.
    - rewrite chroma_add_refused by done.
      eexists _, _. split; [reflexivity|].
      cbn [calls uuids logs store logged after].
      split_and!; [by rewrite Hcalls2, <- app_assoc|done| |].
      + intros _. split_and!; [done|done|]. rewrite Hlogs2. by eexists.
      + intros Hno. destruct Hno. by apply Hnext.
    - rewrite (chroma_add_run h _ _ _ _ c) by (try done; by rewrite Hs2).
      eexists _, _. split; [reflexivity|].
      cbn [calls uuids logs store with_store after].
      split_and!; [by rewrite Hcalls2, <- app_assoc|done| |].
      + intros Hyes. apply Hnext in Hyes. discriminate Hyes.
      + intros _ m -> Hm. split_and!; [done|done|].
        by rewrite lookup_insert_eq. }
  destruct record_id as [r|].
  - unfold mret at 1, M_ret at 1, ret at 1. cbv beta iota.
    destruct (Hadd (after (ChromaGetCollection name)
                      (after ChromaListCollections w)))
      as (b & w' & Hrun & Hcalls & Huuids & Hrest);
      [done|done|simpl; by rewrite <- app_assoc|done|].
    exists b, w'. split; [exact Hrun|]. split; [exact Hcalls|].
    split; [exact Huuids|exact Hrest].
  - unfold draw_uuid at 1. cbv beta iota.
    match goal with
    | |- context [(_ ≫= _) ?w2] =>
        destruct (Hadd w2) as (b & w' & Hrun & Hcalls & Huuids & Hrest);
          [done|done|simpl; by rewrite <- app_assoc|done|]
    end.
    exists b, w'. split; [exact Hrun|]. split; [exact Hcalls|].
    split; [exact Huuids|exact Hrest].
Qed.

(** A record with a source as metadata goes in; a record without metadata
    is refused by the client, whose third request then faults. *)
Lemma chroma_insert_one_stores_witness :
  (∃ w',
     @ChromaDBProvider.insert_one sample_externals "cars" "t1" sample_vector
       (Some {[ "source" := "dataset" ]}) (Some "a") (cars_world Chroma [])
     = (Ok true, w')
     ∧ store w' !! "cars"
       = Some (Collection (cconfig (fresh_collection Chroma (Some 2)))
                 [Point (IdStr "a") "t1" sample_vector
                    (Some {[ "source" := "dataset" ]})])
     ∧ logs w' = [])
  ∧ (∃ w' line,
       @ChromaDBProvider.insert_one sample_externals "cars" "t1" sample_vector
         None (Some "a") (cars_world Chroma [false; false; true])
       = (Ok false, w')
       ∧ calls w'
         = [ChromaListCollections; ChromaGetCollection "cars";
            ChromaAdd "cars" ["t1"] [∅] [IdStr "a"] [sample_vector]]
       ∧ store w' = store (cars_world Chroma [false; false; true])
       ∧ logs w' = [Log ERROR line]).
Proof.
  split.
  - destruct (@chroma_insert_one_stores sample_externals "cars" "t1"
                sample_vector (Some {[ "source" := "dataset" ]}) (Some "a")
                (fresh_collection Chroma (Some 2)) (cars_world Chroma [])
                eq_refl ltac:(discriminate) ltac:(discriminate))
      as (r & w' & Hrun & _ & _ & _ & Hok).
    destruct (Hok ltac:(discriminate) _ eq_refl) as (-> & Hlogs & Hstore).
    { intros Hempty.
      apply (f_equal (λ m : gmap string string, m !! "source")) in Hempty.
      discriminate Hempty. }
    exists w'. split; [exact Hrun|]. split; [exact Hstore|exact Hlogs].
  - destruct (@chroma_insert_one_stores sample_externals "cars" "t1"
                sample_vector None (Some "a")
                (fresh_collection Chroma (Some 2))
                (cars_world Chroma [false; false; true])
                eq_refl ltac:(discriminate) ltac:(discriminate))
      as (r & w' & Hrun & Hcalls & _ & Hrefused & _).
    destruct (Hrefused eq_refl) as (-> & Hstore & line & Hlogs).
    exists w', line. split; [exact Hrun|]. split; [exact Hcalls|].
    split; [exact Hstore|exact Hlogs].
Defined.

(** ** Listing *)

(** X10. When the client answers, [list_all_collections] of either provider
    lists every stored name once and nothing else, changes nothing, and
    agrees with [is_collection_existed]: a name is listed exactly when the
    existence check on the same store answers [True]. *)
Theorem listed_iff_existed (self : vectordb_client) (n : string) (w : world) :
  next_fault w = false →
  ∃ l w1 w2,
    match self with
    | Chroma => ChromaDBProvider.list_all_collections
    | Qdrant => QdrantDBProvider.list_all_collections
    end w = (Ok l, w1)
    ∧ store w1 = store w
    ∧ NoDup l
    ∧ (∀ m, m ∈ l ↔ is_Some (store w !! m))
    ∧ VectorDBInterface.is_collection_existed self n w
      = (Ok (bool_decide (n ∈ l)), w2).
Proof.
  intros Hf.
  assert (∀ m, m ∈ (map_to_list (store w)).*1 ↔ is_Some (store w !! m)) as Hl.
  { intros m. rewrite list_elem_of_fmap. split.
    - intros ([k c] & -> & Hkc). apply elem_of_map_to_list in Hkc. by eexists.
    - intros [c Hc]. exists (m, c). split; [done|].
      by apply elem_of_map_to_list. }
  exists ((map_to_list (store w)).*1).
  destruct self; simpl.
  - unfold ChromaDBProvider.list_all_collections, chromadb.list_collections.
    rewrite chroma_is_collection_existed_run.
    rewrite !bind_run. unfold request. rewrite Hf. simpl.
    eexists _, _. split_and!; [done|done|apply NoDup_fst_map_to_list|done|].
    do 2 f_equal. apply bool_decide_ext. by rewrite Hl.
  - unfold QdrantDBProvider.list_all_collections, qdrant_client.get_collections.
    rewrite qdrant_is_collection_existed_run.
    rewrite !bind_run. unfold request. rewrite Hf. simpl.
    eexists _, _. split_and!; [done|done|apply NoDup_fst_map_to_list|done|].
    do 2 f_equal. apply bool_decide_ext. by rewrite Hl.
Qed.

Lemma listed_iff_existed_witness :
  ∃ l w1 w2,
    QdrantDBProvider.list_all_collections (cars_world Qdrant []) = (Ok l, w1)
    ∧ store w1 = store (cars_world Qdrant [])
    ∧ NoDup l
    ∧ (∀ m, m ∈ l ↔ is_Some (store (cars_world Qdrant []) !! m))
    ∧ VectorDBInterface.is_collection_existed Qdrant "cars"
        (cars_world Qdrant []) = (Ok (bool_decide ("cars" ∈ l)), w2).
Proof.
  exact (listed_iff_existed Qdrant "cars" (cars_world Qdrant []) eq_refl).
Defined.

(** ** A re-index that fails early *)

Lemma preparation_quiet `{Externals} (self : RAGController.t) (w : world) r w' :
  preparation self w = (r, w') → quiet w w'.
Proof.
  unfold preparation. rewrite bind_run.
  destruct (DataProcessController.__init__ w) as [[pc|e] w1] eqn:Hinit;
    apply init_quiet in Hinit; [|by intros [= <- <-]].
  rewrite bind_run.
  destruct (DataProcessController.get_file_loader _ w1) as [[loaded|e] w2]
    eqn:Hload; apply get_file_loader_quiet in Hload;
    [|intros [= <- <-]; eauto using quiet_trans].
  rewrite bind_run.
  destruct loaded as [[df file_name]|]; simpl;
    [|intros [= <- <-]; eauto using quiet_trans].
  unfold DataProcessController.prepare_data_for_injection, lift.
  intros [= <- <-]. eauto using quiet_trans.
Qed.

(** X11. A re-index touches the store only once the dataset is loaded and
    every row is embedded: when one of the steps before [create_collection]
    raises (no embedding client, a file that is not a [.csv], a file that
    cannot be read, a row that cannot be embedded), [index_into_vector_db]
    logs that error and answers [None], having made no request to the
    vector store, whose collections are all as they were. *)
Theorem reindex_fails_before_reset `{Externals} (self : RAGController.t)
    (e : exn) (w : world) :
  RAGController.em self = true →
  (preparation self w).1 = Raise e →
  ∃ w',
    RAGController.index_into_vector_db self w = (Ok None, w')
    ∧ quiet w w'
    ∧ last (logs w')
      = Some (Log ERROR ("Error during vector DB indexing: " +:+ exn_text e)).
Proof.
  intros Hem Hprep.
  destruct (preparation self w) as [r wp] eqn:Hrun. simpl in Hprep. subst r.
  pose proof (preparation_quiet _ _ _ _ Hrun) as Hquiet.
  exists (logged ERROR ("Error during vector DB indexing: " +:+ exn_text e) wp).
  split_and!.
  - revert Hrun.
    unfold RAGController.index_into_vector_db, preparation.
    rewrite Hem. simpl. unfold try_except. rewrite !bind_run.
    destruct (DataProcessController.__init__ w) as [[pc|e1] w1];
      [|by intros [= <- <-]].
    rewrite !bind_run.
    destruct (DataProcessController.get_file_loader _ w1) as [[loaded|e2] w2];
      [|by intros [= <- <-]].
    rewrite !bind_run.
    destruct loaded as [[df file_name]|]; simpl; [|by intros [= <- <-]].
    rewrite bind_run.
    destruct (DataProcessController.prepare_data_for_injection pc df file_name
                w2) as [[[[[docs metadatas] ids] embeddings]|e3] w3];
      [done|by intros [= <- <-]].
  - eauto using quiet_trans, quiet_logged.
  - simpl. by rewrite last_snoc.
Qed.

(** A dataset that is not a [.csv]: unpacking the [None] of the loader is
    what fails. *)
Lemma reindex_fails_before_reset_witness :
  ∃ w',
    @RAGController.index_into_vector_db sample_externals
      (sample_rag_on "assets/database/csv/dataset.txt" Chroma)
      (cars_world Chroma []) = (Ok None, w')
    ∧ quiet (cars_world Chroma []) w'
    ∧ last (logs w')
      = Some (Log ERROR
                "Error during vector DB indexing: cannot unpack non-iterable NoneType object").
Proof.
  exact (@reindex_fails_before_reset sample_externals
           (sample_rag_on "assets/database/csv/dataset.txt" Chroma)
           (Exn TypeError "cannot unpack non-iterable NoneType object")
           (cars_world Chroma []) eq_refl eq_refl).
Defined.

(** ** A re-index whose ingestion fails *)

Lemma index_after_preparation `{Externals} (self : RAGController.t)
    (docs : list string) (metadatas : list (gmap string string))
    (ids : list string) (embeddings : list embedding) (w w0 : world) :
  RAGController.em self = true →
  preparation self w = (Ok (docs, metadatas, ids, embeddings), w0) →
  RAGController.index_into_vector_db self w
  = try_except
      (VectorDBInterface.create_collection (RAGController.vectordb_client self)
         (COLLECTION_NAME (RAGController.app_settings self)) None true;;
       VectorDBInterface.insert_many (RAGController.vectordb_client self)
         (COLLECTION_NAME (RAGController.app_settings self)) docs embeddings
         (Some metadatas) (Some (IdStr <$> ids))
         VectorDBInterface.default_batch_size;;
       logger INFO "Data is stored in the vector database.";;
       vectordb_info ←
         VectorDBInterface.get_collection_info
           (RAGController.vectordb_client self)
           (COLLECTION_NAME (RAGController.app_settings self));
       logger INFO ("Vector DB Info: "
                    +:+ RAGController.repr_info vectordb_info);;
       mret (Some vectordb_info))
      (λ e,
       logger ERROR ("Error during vector DB indexing: " +:+ exn_text e);;
       mret None) w0.
Proof.
  intros Hem. unfold RAGController.index_into_vector_db, preparation.
  rewrite Hem. simpl. unfold try_except. rewrite !bind_run.
  destruct (DataProcessController.__init__ w) as [[pc|e1] w1]; [|done].
  rewrite !bind_run.
  destruct (DataProcessController.get_file_loader _ w1) as [[loaded|e2] w2];
    [|done].
  rewrite !bind_run.
  destruct loaded as [[df file_name]|]; simpl; [|done].
  rewrite bind_run. by intros ->.
Qed.

Lemma chroma_insert_many_answers (n : string) (texts : list string)
    (vectors : list embedding) (metadata : option (list (gmap string string)))
    (record_ids : option (list point_id)) (batch_size : Z) (w : world) :
  ∃ b w',
    ChromaDBProvider.insert_many n texts vectors metadata record_ids
      batch_size w = (Ok b, w')
    ∧ logs w `prefix_of` logs w'
    ∧ (next_fault w = true →
       store w' = store w
       ∧ Log ERROR "Error while inserting batch: client request failed"
           ∈ logs w').
Proof.
  unfold ChromaDBProvider.insert_many, try_except.
  rewrite bind_run, chroma_get_collection_run.
  destruct (next_fault w).
  { eexists _, _. split; [reflexivity|]. simpl.
    split; [by apply prefix_app_r|]. intros _. split; [done|].
    apply elem_of_app. right. left. }
  destruct (store w !! n) as [c|].
  2:{ eexists _, _. split; [reflexivity|]. simpl.
      split; [by apply prefix_app_r|done]. }
  rewrite bind_run. unfold lift at 1.
  destruct (py_range _ _ _) as [starts|e].
  2:{ eexists _, _. split; [reflexivity|]. simpl.
      split; [by apply prefix_app_r|done]. }
  rewrite bind_run.
  set (body := ChromaDBProvider.add_batch _ _ _ _ _ _).
  assert (∀ starts w1, logs w1 `prefix_of` logs (for_each starts body w1).2)
    as Hloop.
  { intros l. induction l as [|i l IH]; intros w1; [done|].
    simpl. rewrite bind_run.
    assert (logs (body i w1).2 = logs w1) as Hlogs.
    { subst body. unfold ChromaDBProvider.add_batch, chromadb.add.
      rewrite bind_run. unfold request. destruct (next_fault w1); [done|].
      destruct (negb _); [done|]. rewrite bind_run. unfold get_store. simpl.
      by destruct (store w1 !! _). }
    destruct (body i w1) as [[[]|e] w2]; simpl in *.
    - rewrite <- Hlogs. apply IH.
    - by rewrite Hlogs. }
  pose proof (Hloop starts (after (ChromaGetCollection n) w)) as Hpre.
  destruct (for_each starts body _) as [[[]|e] w2]; simpl in Hpre.
  - eexists _, _. split; [reflexivity|]. by split.
  - eexists _, _. split; [reflexivity|]. simpl.
    split; [|done]. by apply prefix_app_r.
Qed.

Lemma chroma_get_collection_info_logs (n : string) (w : world) :
  ∃ info w',
    ChromaDBProvider.get_collection_info n w = (Ok info, w')
    ∧ logs w `prefix_of` logs w'.
Proof.
  unfold ChromaDBProvider.get_collection_info, try_except.
  rewrite bind_run, chroma_get_collection_run.
  destruct (next_fault w).
  { eexists _, _. split; [reflexivity|]. by apply prefix_app_r. }
  destruct (store w !! n) as [c|].
  2:{ eexists _, _. split; [reflexivity|]. by apply prefix_app_r. }
  rewrite bind_run, chroma_count_run.
  destruct (next_fault _).
  { eexists _, _. split; [reflexivity|]. by apply prefix_app_r. }
  simpl. destruct (store w !! n).
  - by eexists _, _.
  - eexists _, _. split; [reflexivity|]. by apply prefix_app_r.
Qed.

(** X12. On Chroma, once the data is prepared and the collection created, a
    re-index cannot fail any more: whatever [insert_many] answers, its
    answer is dropped, ["Data is stored in the vector database."] is logged
    and a collection info is returned.  In particular, when the request
    that opens the ingestion faults, nothing is stored and the run still
    reports the data as stored. *)
Theorem chroma_reindex_ignores_failed_ingestion `{Externals}
    (self : RAGController.t) (docs : list string)
    (metadatas : list (gmap string string)) (ids : list string)
    (embeddings : list embedding) (created : bool) (w w0 w1 : world) :
  RAGController.vectordb_client self = Chroma →
  RAGController.em self = true →
  preparation self w = (Ok (docs, metadatas, ids, embeddings), w0) →
  ChromaDBProvider.create_collection
    (COLLECTION_NAME (RAGController.app_settings self)) None true w0
  = (Ok created, w1) →
  ∃ info w',
    RAGController.index_into_vector_db self w = (Ok (Some info), w')
    ∧ Log INFO "Data is stored in the vector database." ∈ logs w'
    ∧ (next_fault w1 = true →
       store w' = store w1
       ∧ Log ERROR "Error while inserting batch: client request failed"
           ∈ logs w').
Proof.
  intros Hc Hem Hprep Hcreate.
  rewrite (index_after_preparation self docs metadatas ids embeddings w w0)
    by done.
  rewrite Hc. simpl. unfold try_except. rewrite bind_run, Hcreate.
  rewrite bind_run.
  destruct (chroma_insert_many_answers
              (COLLECTION_NAME (RAGController.app_settings self)) docs
              embeddings (Some metadatas) (Some (IdStr <$> ids))
              VectorDBInterface.default_batch_size w1)
    as (b & w2 & -> & Hlogs2 & Hfault).
  rewrite bind_run. unfold logger at 1. rewrite bind_run.
  destruct (chroma_get_collection_info_logs
              (COLLECTION_NAME (RAGController.app_settings self))
              (logged INFO "Data is stored in the vector database." w2))
    as (info & w3 & Hinfo & Hlogs3).
  pose proof (get_collection_info_keeps_store Chroma
                (COLLECTION_NAME (RAGController.app_settings self))
                (logged INFO "Data is stored in the vector database." w2))
    as Hkeep.
  simpl in Hkeep. rewrite Hinfo in *. simpl in Hkeep.
  eexists _, _. split; [reflexivity|]. simpl.
  assert (∀ x, x ∈ logs w2 ++ [Log INFO "Data is stored in the vector database."]
               → x ∈ logs w3 ++ [Log INFO ("Vector DB Info: "
                                           +:+ RAGController.repr_info info)])
    as Hin.
  { intros x Hx. apply elem_of_app. left.
    destruct Hlogs3 as [l ->]. apply elem_of_app. by left. }
  split.
  - apply Hin, elem_of_app. right. left.
  - intros Hf. destruct (Hfault Hf) as [Hs He]. split; [congruence|].
    apply Hin, elem_of_app. by left.
Qed.

(** The sample installation with a client that faults on the fifth request,
    the one that fetches the collection for the ingestion. *)
Lemma chroma_reindex_ignores_failed_ingestion_witness :
  ∃ info w',
    @RAGController.index_into_vector_db sample_externals
      (sample_rag Chroma true)
      (cars_world Chroma [false; false; false; false; true])
    = (Ok (Some info), w')
    ∧ Log INFO "Data is stored in the vector database." ∈ logs w'
    ∧ store w' !! "cars" = Some (fresh_collection Chroma None).
Proof.
  edestruct (@chroma_reindex_ignores_failed_ingestion sample_externals
               (sample_rag Chroma true) _ _ _ _ _
               (cars_world Chroma [false; false; false; false; true]) _ _
               eq_refl eq_refl eq_refl eq_refl)
    as (info & w' & Hrun & Hlog & Hfault).
  exists info, w'. split; [exact Hrun|]. split; [exact Hlog|].
  destruct (Hfault eq_refl) as [-> _]. reflexivity.
Defined.

(** ** A row that cannot be embedded *)

Lemma rows_loop_fail `{Externals} (self : DataProcessController.t)
    (cols : list string) (file_name : string)
    (pre post : list (list string)) (row : list string) (e : exn) (j : nat)
    (acc : DataProcessController.prepared) :
  NoDup cols →
  Forall (λ r, length r = length cols) (pre ++ [row]) →
  (∀ r, r ∈ pre →
     ∃ v, embed_text (DataProcessController.client self) (serialized cols r)
          = Ok v) →
  embed_text (DataProcessController.client self) (serialized cols row)
    = Raise e →
  DataProcessController.rows_loop self cols file_name
    (zip (seq j (length (pre ++ row :: post))) (pre ++ row :: post)) acc
  = Raise e.
Proof.
  intros Hnd. revert j acc.
  induction pre as [|r pre IH]; intros j [[[docs metadatas] ids] embeddings]
    Hlen Hpre Hrow.
  - simpl in Hlen. apply Forall_cons in Hlen as [Hlen _]. simpl in *.
    rewrite row_text_ok by done. simpl. by rewrite Hrow.
  - simpl in Hlen. apply Forall_cons in Hlen as [Hr Hlen]. simpl in Hr.
    destruct (Hpre r) as [v Hv]; [left|].
    simpl. rewrite row_text_ok by done. simpl. rewrite Hv. simpl.
    apply IH; [done| |done]. intros r' Hr'. apply Hpre. by right.
Qed.

(** X13. [prepare_data_for_injection] returns nothing of what it has built
    when a row cannot be embedded: for a table as [read_csv] builds it, the
    exception that the embedding client raises on the first such row is
    raised to the caller, however many rows were embedded before it. *)
Theorem prepare_data_for_injection_fails `{Externals}
    (self : DataProcessController.t) (df : DataFrame) (file_name : string)
    (k : nat) (row : list string) (e : exn) (w : world) :
  well_formed df →
  cells df !! k = Some row →
  embed_text (DataProcessController.client self) (serialized (columns df) row)
    = Raise e →
  (∀ i r, (i < k)%nat → cells df !! i = Some r →
     ∃ v, embed_text (DataProcessController.client self)
            (serialized (columns df) r) = Ok v) →
  DataProcessController.prepare_data_for_injection self df file_name w
  = (Raise e, w).
Proof.
  intros (Hnd & Hlen & Hidx) Hk Hrow Hbefore.
  unfold DataProcessController.prepare_data_for_injection, lift.
  rewrite Hidx. rewrite <- (take_drop_middle _ _ _ Hk) at 1 2.
  f_equal. apply rows_loop_fail; [done| |  |done].
  - rewrite <- (take_drop_middle _ _ _ Hk) in Hlen.
    apply Forall_app in Hlen as [Hpre Hrest].
    apply Forall_app. split; [done|].
    apply Forall_cons in Hrest as [? _]. by constructor.
  - intros r Hr. apply list_elem_of_lookup in Hr as [i Hi].
    pose proof (lookup_lt_Some _ _ _ Hi) as Hlt.
    rewrite length_take in Hlt.
    rewrite lookup_take_lt in Hi by lia.
    apply (Hbefore i r); [lia|done].
Qed.

(** The second of three rows is refused. *)
Lemma prepare_data_for_injection_fails_witness :
  @DataProcessController.prepare_data_for_injection failing_externals
    failing_process_controller sample_frame "dataset" empty_world
  = (Raise (Exn ClientError "rate limit exceeded"), empty_world).
Proof.
  apply (@prepare_data_for_injection_fails failing_externals
           failing_process_controller sample_frame "dataset" 1
           ["Honda"; "2019"]).
  - split_and!; [|by repeat constructor|reflexivity].
    apply (bool_decide_unpack _). vm_compute. exact I.
  - reflexivity.
  - reflexivity.
  - intros [|i] r Hi Hr; [|lia]. injection Hr as <-. by eexists.
Defined.

(** ** Where the dataset is looked for *)

Lemma endswith_sep_split (p : string) :
  posixpath.endswith_sep p = true → ∃ p', p = p' +:+ "/".
Proof.
  induction p as [|a p IH]; [done|]. simpl. destruct p as [|b p].
  - intros ->%bool_decide_eq_true. by exists "".
  - intros Hp. destruct (IH Hp) as [p' ->]. by exists (String a p').
Qed.

Lemma endswith_sep_app (p q : string) :
  q ≠ "" → posixpath.endswith_sep (p +:+ q) = posixpath.endswith_sep q.
Proof.
  intros Hq. induction p as [|a p IH]; [done|]. rewrite append_cons.
  simpl. rewrite IH. destruct (p +:+ q) eqn:Hpq; [|done].
  destruct p; [done|by rewrite append_cons in Hpq].
Qed.

Lemma basename_join_step (path b : string) :
  os_path.basename (posixpath.join_step path b) = os_path.basename b.
Proof.
  unfold posixpath.join_step.
  destruct (posixpath.startswith_sep b); [done|].
  case_bool_decide as Hempty; simpl.
  { by subst path. }
  destruct (posixpath.endswith_sep path) eqn:Hend.
  - apply endswith_sep_split in Hend as [p' ->].
    rewrite append_assoc. apply basename_after_sep.
  - apply basename_after_sep.
Qed.

Lemma join_step_relative (path b : string) :
  posixpath.startswith_sep b = false →
  path ≠ "" → posixpath.endswith_sep path = false →
  posixpath.join_step path b = path +:+ "/" +:+ b.
Proof.
  intros Hb Hp He. unfold posixpath.join_step.
  by rewrite Hb, bool_decide_eq_false_2, He.
Qed.

Lemma database_dir_shape `{Externals} (__file__ : string) (w w' : world)
    (self : DatabaseController.t) :
  DatabaseController.__init__ __file__ w = (Ok self, w') →
  w' = w
  ∧ DatabaseController.database_dir self ≠ ""
  ∧ posixpath.endswith_sep (DatabaseController.database_dir self) = false.
Proof.
  unfold DatabaseController.__init__. rewrite bind_run. unfold lift.
  destruct get_settings as [settings|e]; [|done].
  intros [= <- <-]. split; [done|]. simpl.
  set (base := posixpath.dirname _).
  unfold posixpath.join_step. simpl.
  destruct (bool_decide (base = "") || posixpath.endswith_sep base).
  - split; [by destruct base|]. by rewrite endswith_sep_app.
  - split; [by destruct base|].
    change ("/" +:+ "assets/database") with "/assets/database".
    by rewrite endswith_sep_app.
Qed.

(** X14. For a data controller as its constructor builds it, wherever the
    sources are installed: the path of a dataset is the database directory
    followed by [/csv/] and the name, unless the name starts with [/], in
    which case the path is the name itself and the directory is left; the
    SQL path is built the same way under [/db_sql/].  The base name of the
    dataset path is that of the name, so [get_file_loader] refuses the path
    of every name whose extension is not [.csv]. *)
Theorem get_dataset_path_spec `{Externals} (__file__ db_name : string)
    (self : DatabaseController.t) (w w' w0 : world) :
  DatabaseController.__init__ __file__ w = (Ok self, w') →
  let dir := DatabaseController.database_dir self in
  DatabaseController.get_dataset_path self db_name
    = (if posixpath.startswith_sep db_name then db_name
       else dir +:+ "/csv/" +:+ db_name)
  ∧ DatabaseController.get_database_sql_path self db_name
    = (if posixpath.startswith_sep db_name then db_name
       else dir +:+ "/db_sql/" +:+ db_name)
  ∧ os_path.basename (DatabaseController.get_dataset_path self db_name)
    = os_path.basename db_name
  ∧ ((os_path.splitext (os_path.basename db_name)).2 ≠ ".csv" →
     DataProcessController.get_file_loader
       (DatabaseController.get_dataset_path self db_name) w0
     = (Ok None, logged ERROR "The selected file type is not supported" w0)).
Proof.
  intros Hinit dir.
  destruct (database_dir_shape _ _ _ _ Hinit) as (_ & Hne & Hend).
  fold dir in Hne, Hend.
  assert (∀ sub, sub ≠ "" → posixpath.startswith_sep sub = false →
            posixpath.endswith_sep sub = false →
            posixpath.join dir [sub; db_name]
            = if posixpath.startswith_sep db_name then db_name
              else dir +:+ "/" +:+ sub +:+ "/" +:+ db_name) as Hjoin.
  { intros sub Hsub Hstart Hsubend. unfold posixpath.join. simpl.
    rewrite (join_step_relative dir sub) by done.
    destruct (posixpath.startswith_sep db_name) eqn:Hdb.
    - unfold posixpath.join_step. by rewrite Hdb.
    - rewrite join_step_relative; [by rewrite !append_assoc|done| |].
      + by destruct dir.
      + change (dir +:+ "/" +:+ sub) with (dir +:+ String "/" sub).
        rewrite endswith_sep_app by done. simpl. by destruct sub. }
  assert (os_path.basename (DatabaseController.get_dataset_path self db_name)
          = os_path.basename db_name) as Hbase.
  { unfold DatabaseController.get_dataset_path, posixpath.join. simpl.
    apply basename_join_step. }
  split_and!.
  - unfold DatabaseController.get_dataset_path. fold dir.
    by rewrite Hjoin.
  - unfold DatabaseController.get_database_sql_path. fold dir.
    by rewrite Hjoin.
  - exact Hbase.
  - intros Hext. unfold DataProcessController.get_file_loader.
    rewrite Hbase.
    destruct (os_path.splitext (os_path.basename db_name)) as [stem ext].
    simpl in Hext. by rewrite bool_decide_eq_false_2.
Qed.

Lemma get_dataset_path_spec_witness :
  DatabaseController.get_dataset_path sample_database_controller "cars.csv"
    = "/app/src/assets/database/csv/cars.csv"
  ∧ DatabaseController.get_dataset_path sample_database_controller
      "/etc/passwd" = "/etc/passwd"
  ∧ @DataProcessController.get_file_loader sample_externals
      (DatabaseController.get_dataset_path sample_database_controller
         "cars.xlsx") empty_world
    = (Ok None,
       logged ERROR "The selected file type is not supported" empty_world).
Proof.
  pose proof (λ db, @get_dataset_path_spec sample_externals
                      "/app/src/controllers/DatabaseController.py" db
                      sample_database_controller empty_world empty_world
                      empty_world eq_refl) as Hspec.
  split_and!.
  - exact (proj1 (Hspec "cars.csv")).
  - exact (proj1 (Hspec "/etc/passwd")).
  - apply (Hspec "cars.xlsx"). discriminate.
Defined.

(** ** The query handed to the database *)

Lemma fenced_app_l (p q : SQL_AgentController.text) :
  fenced (p ++ q) = false → fenced p = false.
Proof.
  assert (∀ (s t pre : SQL_AgentController.text),
            SQL_AgentController.startswith (s ++ t) pre = false →
            SQL_AgentController.startswith s pre = false) as Hstart.
  { intros s t pre. revert s. induction pre as [|c pre IH]; intros [|a s];
      simpl; try done.
    intros [?|?]%andb_false_iff; apply andb_false_iff; auto. }
  induction p as [|a p IH]; [done|].
  cbn [app fenced]. intros [Hs Hf]%orb_false_elim.
  apply orb_false_intro; [|by apply IH].
  by apply (Hstart (a :: p) q).
Qed.

Lemma fenced_infix (pre post : SQL_AgentController.text) :
  fenced (pre ++ fence ++ post) = true.
Proof.
  induction pre as [|a pre IH]; [done|].
  cbn [app fenced]. rewrite IH. apply orb_true_r.
Qed.

Lemma fenced_lstrip (s : SQL_AgentController.text) :
  fenced s = false → fenced (SQL_AgentController.lstrip s) = false.
Proof.
  induction s as [|a s IH]; [done|]. intros Hs.
  cbn [SQL_AgentController.lstrip].
  destruct (SQL_AgentController.isspace a); [|done].
  apply IH. cbn [fenced] in Hs. by apply orb_false_elim in Hs as [_ ?].
Qed.

Lemma rstrip_split (s : SQL_AgentController.text) :
  ∃ ws, s = SQL_AgentController.rstrip s ++ ws.
Proof.
  induction s as [|a s [ws IH]]; [by exists []|].
  cbn [SQL_AgentController.rstrip].
  destruct (SQL_AgentController.rstrip s) as [|b r].
  - destruct (SQL_AgentController.isspace a).
    + by exists (a :: s).
    + exists s. simpl in *. by f_equal.
  - exists ws. simpl in *. by f_equal.
Qed.

(** Right after a backquote that opens no fence, the rest of the text does
    not begin with two backquotes, nor does what [replace] makes of it. *)
Lemma startswith_cons (a p : N) (s pre : SQL_AgentController.text) :
  SQL_AgentController.startswith (a :: s) (p :: pre)
  = ((a =? p)%N && SQL_AgentController.startswith s pre).
Proof. done. Qed.

Lemma remove_fence_two (s : SQL_AgentController.text) :
  SQL_AgentController.startswith s [96; 96]%N = false →
  SQL_AgentController.startswith (SQL_AgentController.remove fence 0 s)
    [96; 96]%N = false.
Proof.
  change fence with [96; 96; 96]%N.
  destruct s as [|x [|y t]]; [done| |].
  - intros _. destruct (x =? 96)%N eqn:Hx;
      do 2 (cbn; rewrite ?Hx); done.
  - intros Hxy. cbn in Hxy.
    destruct (x =? 96)%N eqn:Hx, (y =? 96)%N eqn:Hy; try done;
      do 3 (cbn; rewrite ?Hx, ?Hy); done.
Qed.

Lemma remove_fence_clean (skip : nat) (s : SQL_AgentController.text) :
  fenced (SQL_AgentController.remove fence skip s) = false.
Proof.
  revert skip. induction s as [|a s IH]; intros skip; [done|].
  cbn [SQL_AgentController.remove]. destruct skip as [|k]; [|apply IH].
  destruct (SQL_AgentController.startswith (a :: s) fence) eqn:Hstart;
    [apply IH|].
  cbn [fenced]. rewrite IH, orb_false_r.
  revert Hstart. change fence with [96; 96; 96]%N.
  rewrite !(startswith_cons _ 96).
  destruct (a =? 96)%N; [|done]. rewrite !andb_true_l.
  apply remove_fence_two.
Qed.

Lemma remove_sublist (old : SQL_AgentController.text) (skip : nat)
    (s : SQL_AgentController.text) :
  SQL_AgentController.remove old skip s `sublist_of` s.
Proof.
  revert skip. induction s as [|a s IH]; intros skip; [done|].
  cbn [SQL_AgentController.remove]. destruct skip as [|k].
  - destruct (SQL_AgentController.startswith _ _).
    + by apply sublist_cons.
    + by apply sublist_skip.
  - by apply sublist_cons.
Qed.

Lemma strip_sublist (s : SQL_AgentController.text) :
  SQL_AgentController.strip s `sublist_of` s.
Proof.
  unfold SQL_AgentController.strip.
  trans (SQL_AgentController.lstrip s).
  - destruct (rstrip_split (SQL_AgentController.lstrip s)) as [ws Hws].
    rewrite Hws at 2. by apply sublist_inserts_r.
  - induction s as [|a s IH]; [done|]. cbn [SQL_AgentController.lstrip].
    destruct (SQL_AgentController.isspace a); [by apply sublist_cons|done].
Qed.

Lemma lstrip_head (s : SQL_AgentController.text) (c : N) :
  head (SQL_AgentController.lstrip s) = Some c →
  SQL_AgentController.isspace c = false.
Proof.
  induction s as [|a s IH]; [done|]. cbn [SQL_AgentController.lstrip].
  destruct (SQL_AgentController.isspace a) eqn:Ha; [done|].
  by intros [= <-].
Qed.

Lemma rstrip_head (s : SQL_AgentController.text) :
  head (SQL_AgentController.rstrip s) = head s
  ∨ SQL_AgentController.rstrip s = [].
Proof.
  destruct s as [|a s]; [by left|]. cbn [SQL_AgentController.rstrip].
  destruct (SQL_AgentController.rstrip s).
  - destruct (SQL_AgentController.isspace a); [by right|by left].
  - by left.
Qed.

Lemma rstrip_last (s : SQL_AgentController.text) (c : N) :
  last (SQL_AgentController.rstrip s) = Some c →
  SQL_AgentController.isspace c = false.
Proof.
  induction s as [|a s IH]; [done|]. cbn [SQL_AgentController.rstrip].
  destruct (SQL_AgentController.rstrip s) as [|b r].
  - destruct (SQL_AgentController.isspace a) eqn:Ha; [done|].
    by intros [= <-].
  - intros Hl. apply IH. by rewrite last_cons_cons in Hl.
Qed.

(** X15. What [remove_markdown] hands on never holds a markdown fence
    [```], has no white space at either end, and is obtained from the text
    of the model by deleting characters only. *)
Theorem remove_markdown_clean (sql_text : SQL_AgentController.text) :
  let query := SQL_AgentController.remove_markdown sql_text in
  (∀ pre post, query ≠ pre ++ fence ++ post)
  ∧ (∀ c, head query = Some c → SQL_AgentController.isspace c = false)
  ∧ (∀ c, last query = Some c → SQL_AgentController.isspace c = false)
  ∧ query `sublist_of` sql_text.
Proof.
  intros query. subst query. unfold SQL_AgentController.remove_markdown.
  cbn [foldl]. unfold SQL_AgentController.replace_by_empty.
  set (s1 := SQL_AgentController.remove _ 0 sql_text).
  set (s2 := SQL_AgentController.remove _ 0 s1).
  fold fence. split_and!.
  - intros pre post Heq.
    pose proof (remove_fence_clean 0 s2) as Hclean.
    apply fenced_lstrip in Hclean.
    destruct (rstrip_split
                (SQL_AgentController.lstrip
                   (SQL_AgentController.remove fence 0 s2))) as [ws Hws].
    rewrite Hws in Hclean. apply fenced_app_l in Hclean.
    unfold SQL_AgentController.strip in Heq. rewrite Heq in Hclean.
    by rewrite fenced_infix in Hclean.
  - intros c Hc. unfold SQL_AgentController.strip in Hc.
    destruct (rstrip_head
                (SQL_AgentController.lstrip
                   (SQL_AgentController.remove fence 0 s2))) as [Hh|Hnil].
    + rewrite Hh in Hc. by eapply lstrip_head.
    + by rewrite Hnil in Hc.
  - intros c. apply rstrip_last.
  - trans (SQL_AgentController.remove fence 0 s2); [apply strip_sublist|].
    trans s2; [apply remove_sublist|].
    trans s1; apply remove_sublist.
Qed.

(** ** Ids that are taken *)

Lemma add_points_taken (stored new : list point) :
  Forall (λ p, pid p ∈ pid <$> stored) new →
  chromadb.add_points stored new = stored.
Proof.
  induction 1 as [|p new Hp _ IH]; [done|].
  unfold chromadb.add_points in *. simpl.
  unfold chromadb.add_point at 2. by rewrite decide_True.
Qed.

Lemma store_batch_taken (name : string) (s : gmap string collection)
    (c : collection) (pts : list point) :
  s !! name = Some c →
  Forall (λ p, pid p ∈ pid <$> cpoints c) pts →
  store_batch Chroma name s pts = s.
Proof.
  intros Hc Hpts. unfold store_batch. apply map_eq. intros k.
  rewrite lookup_alter. case_decide as Hk; [|done]. subst k.
  rewrite Hc. simpl. rewrite add_points_taken by done. by destruct c.
Qed.

Lemma persist_taken (name : string) (s : gmap string collection)
    (c : collection) (bs : list (list point)) :
  s !! name = Some c →
  Forall (Forall (λ p, pid p ∈ pid <$> cpoints c)) bs →
  persist Chroma name s bs = s.
Proof.
  intros Hc. induction 1 as [|pts bs Hpts _ IH]; [done|].
  simpl. by rewrite (store_batch_taken name s c).
Qed.

(** X16. Chroma's [insert_many] never overwrites.  Take a call that the
    client accepts: the metadata is given and none of its dicts is empty,
    the ids of the call are distinct (the positional default ids ["0"],
    ["1"], ... of a call without [record_ids] always are), the lists are of
    one length, the batch size is positive, and the client does not fault.
    When every id of the call is already taken in the collection (as
    happens with the default ids after an earlier such call), it makes its
    requests, logs nothing and answers [True], and the store is exactly as
    it was: the new texts are dropped. *)
Theorem chroma_insert_many_taken_ids (name : string) (texts : list string)
    (vectors : list embedding) (metadata : list (gmap string string))
    (record_ids : option (list point_id)) (batch_size : Z) (c : collection)
    (w : world) :
  0 < batch_size →
  same_lengths texts vectors (Some metadata) record_ids →
  Forall (λ m, m ≠ ∅) metadata →
  NoDup (chroma_ids texts record_ids) →
  healthy w →
  store w !! name = Some c →
  Forall (λ i, i ∈ pid <$> cpoints c) (chroma_ids texts record_ids) →
  ∃ w',
    ChromaDBProvider.insert_many name texts vectors (Some metadata)
      record_ids batch_size w = (Ok true, w')
    ∧ store w' = store w
    ∧ logs w' = logs w
    ∧ calls w'
      = calls w ++ ChromaGetCollection name
          :: (batch_call Chroma name texts vectors (Some metadata) record_ids
                (Z.to_nat batch_size)
              <$> seq 0 (batch_count (length texts) (Z.to_nat batch_size))).
Proof.
  intros Hsize Hlen _ _ Hh Hc Htaken.
  rewrite (chroma_insert_many_ok name texts vectors (Some metadata) record_ids
             batch_size Hsize Hlen w);
    [|by apply healthy_next_fault|by eexists|].
  2:{ intros i _ Hbad. apply list_elem_of_lookup_2 in Hbad.
      assert (true ∈ faults w) as Hin.
      { destruct (faults w); [by apply elem_of_nil in Hbad|].
        simpl in Hbad. by right. }
      unfold healthy in Hh. rewrite Forall_forall in Hh.
      by apply Hh in Hin. }
  eexists. split; [reflexivity|]. split; [|split; [done|]].
  2:{ cbn [calls after_batches after]. by rewrite <- app_assoc. }
  cbn [store after_batches after].
  apply (persist_taken name (store w) c); [done|].
  apply Forall_fmap, Forall_forall. intros k _. simpl.
  unfold batch. apply Forall_take, Forall_drop.
  apply (Forall_fmap pid (λ i, i ∈ pid <$> cpoints c)).
  cbn [records]. rewrite zip_points_ids; [done| | |].
  - by rewrite (length_chroma_ids texts vectors (Some metadata) record_ids
                  Hlen).
  - rewrite (length_chroma_ids texts vectors (Some metadata) record_ids Hlen).
    by apply Hlen.
  - by rewrite (length_vectors texts vectors (Some metadata) record_ids Hlen),
      (length_chroma_ids texts vectors (Some metadata) record_ids Hlen).
Qed.

(** Two new texts with their source, no ids: the default ids are those of
    the two records in store. *)
Lemma chroma_insert_many_taken_ids_witness :
  ∃ w',
    ChromaDBProvider.insert_many "cars" ["t3"; "t4"]
      [sample_vector; sample_vector]
      (Some [{[ "source" := "dataset" ]}; {[ "source" := "dataset" ]}])
      None 50 ingested_world
    = (Ok true, w')
    ∧ store w' = store ingested_world
    ∧ logs w' = []
    ∧ calls w'
      = [ChromaGetCollection "cars";
         ChromaAdd "cars" ["t3"; "t4"]
           [{[ "source" := "dataset" ]}; {[ "source" := "dataset" ]}]
           [IdStr "0"; IdStr "1"] [sample_vector; sample_vector]].
Proof.
  assert ({[ "source" := "dataset" ]} ≠ (∅ : gmap string string)) as Hne.
  { intros Hempty.
    apply (f_equal (λ m : gmap string string, m !! "source")) in Hempty.
    discriminate Hempty. }
  destruct (chroma_insert_many_taken_ids "cars" ["t3"; "t4"]
              [sample_vector; sample_vector]
              [{[ "source" := "dataset" ]}; {[ "source" := "dataset" ]}]
              None 50
              (Collection
                 (ChromaMetadata
                    {[ "hnsw:space" := ChromaDBProvider.distance_method ]})
                 [Point (IdStr "0") "t1" sample_vector
                    (Some {[ "source" := "dataset" ]});
                  Point (IdStr "1") "t2" sample_vector
                    (Some {[ "source" := "dataset" ]})])
              ingested_world)
    as (w' & Hrun & Hstore & Hlogs & Hcalls).
  - lia.
  - split_and!; [done|by intros l [= <-]|done].
  - by repeat constructor.
  - apply (bool_decide_unpack _). vm_compute. exact I.
  - by constructor.
  - reflexivity.
  - repeat constructor.
  - exists w'. split; [exact Hrun|]. split; [exact Hstore|].
    split; [exact Hlogs|exact Hcalls].
Defined.

(** ** What the factory hands out *)

Lemma logged_changes_logs (l : level) (t : string) (w : world) :
  logs (logged l t w) ≠ logs w.
Proof.
  simpl. intros Heq. apply (f_equal length) in Heq.
  rewrite length_app in Heq. simpl in Heq. lia.
Qed.

(** X17. [LLMProviderFactory.create] touches nothing but the log.  It
    answers [None] exactly when it has logged a line.  It raises only what
    a provider's constructor raised.  A client it returns was built for
    the provider asked for: OpenAI in Azure mode with the Azure settings,
    OpenAI or Groq with their own key, which is then set and not empty. *)
Theorem create_spec `{Externals} (self : LLMProviderFactory.t)
    (provider : string) (w : world) :
  ∃ r w',
    LLMProviderFactory.create self provider w = (r, w')
    ∧ quiet w w'
    ∧ (r = Ok None ↔ logs w' ≠ logs w)
    ∧ (∀ e, r = Raise e → ∃ call, construct call = Raise e)
    ∧ (∀ c, r = Ok (Some c) →
       let config := LLMProviderFactory.config self in
       let defaults := LLMProviderFactory.defaults_of config in
       ∃ call,
         construct call = Ok c
         ∧ match call with
           | OpenAIProvider_azure key version endpoint d =>
               provider = LLMEnums_OPENAI
               ∧ LLMProviderFactory.azure self = true
               ∧ key = AZURE_OPENAI_API_KEY config
               ∧ version = API_VERSION config
               ∧ endpoint = AZURE_OPENAI_ENDPOINT config
               ∧ d = defaults
           | OpenAIProvider_key key d =>
               provider = LLMEnums_OPENAI
               ∧ LLMProviderFactory.azure self = false
               ∧ key = OPENAI_API_KEY config
               ∧ falsy_str key = false
               ∧ d = defaults
           | GroqProvider_key key d =>
               provider = LLMEnums_GROQ
               ∧ provider ≠ LLMEnums_OPENAI
               ∧ key = GROQ_API_KEY config
               ∧ falsy_str key = false
               ∧ d = defaults
           end).
Proof.
  assert (∀ call (P : provider_call → Prop), P call →
    ∃ r w',
      (c ← lift (construct call); mret (Some c)) w = (r, w')
      ∧ quiet w w'
      ∧ (r = Ok None ↔ logs w' ≠ logs w)
      ∧ (∀ e, r = Raise e → ∃ call, construct call = Raise e)
      ∧ (∀ c, r = Ok (Some c) → ∃ call, construct call = Ok c ∧ P call))
    as Hbuild.
  { intros call P HP. rewrite bind_run. unfold lift.
    destruct (construct call) as [c|e] eqn:Hcall.
    - eexists _, _. split; [reflexivity|].
      split_and!; [apply quiet_refl|done|done|].
      intros c' [= <-]. by exists call.
    - eexists _, _. split; [reflexivity|].
      split_and!; [apply quiet_refl|done| |done].
      intros e' [= <-]. by exists call. }
  assert (∀ l t (P : provider_call → Prop),
    ∃ r w',
      (logger l t;; mret None) w = (r, w')
      ∧ quiet w w'
      ∧ (r = Ok (@None llm_client) ↔ logs w' ≠ logs w)
      ∧ (∀ e, r = Raise e → ∃ call, construct call = Raise e)
      ∧ (∀ c, r = Ok (Some c) → ∃ call, construct call = Ok c ∧ P call))
    as Hlog.
  { intros l t P. eexists _, _. split; [reflexivity|].
    split_and!; [apply quiet_logged| |done|done].
    split; [intros _; apply logged_changes_logs|done]. }
  unfold LLMProviderFactory.create.
  case_bool_decide as Hopenai.
  - destruct (LLMProviderFactory.azure self) eqn:Hazure.
    + apply (Hbuild _ (λ call, match call with
                               | OpenAIProvider_azure _ _ _ _ => _
                               | _ => _ end)). by split_and!.
    + destruct (falsy_str (OPENAI_API_KEY _)) eqn:Hkey.
      * apply Hlog.
      * apply (Hbuild _ (λ call, match call with
                                 | OpenAIProvider_key _ _ => _
                                 | _ => _ end)). by split_and!.
  - case_bool_decide as Hgroq.
    + destruct (falsy_str (GROQ_API_KEY _)) eqn:Hkey.
      * apply Hlog.
      * apply (Hbuild _ (λ call, match call with
                                 | GroqProvider_key _ _ => _
                                 | _ => _ end)). by split_and!.
    + apply Hlog.
Qed.

(** ** What a re-index stores *)

Lemma preparation_run `{Externals} (self : RAGController.t)
    (pc : DataProcessController.t) (df : DataFrame) (w : world) :
  (∀ w0, DataProcessController.__init__ w0 = (Ok pc, w0)) →
  (os_path.splitext (os_path.basename (RAGController.data_csv self))).2
    = ".csv" →
  read_csv (RAGController.data_csv self) = Ok df →
  well_formed df →
  embeddable (DataProcessController.client pc) df →
  ∃ es,
    Forall2 (λ row e,
      embed_text (DataProcessController.client pc)
        (serialized (columns df) row) = Ok e) (cells df) es
    ∧ preparation self w
      = (Ok (serialized (columns df) <$> cells df,
             replicate (length (cells df))
               {[ "source" :=
                    (os_path.splitext
                       (os_path.basename (RAGController.data_csv self))).1 ]},
             (λ i : nat, "id" +:+ pretty i) <$> seq 0 (length (cells df)),
             es), w).
Proof.
  intros Hinit Hext Hread Hwf Hemb.
  destruct (prepare_data_for_injection_run pc df
              (os_path.splitext
                 (os_path.basename (RAGController.data_csv self))).1 w Hwf Hemb)
    as (es & Hes & Hprep).
  exists es. split; [done|].
  unfold preparation. rewrite bind_run, Hinit.
  pose proof (get_file_loader_csv_run (RAGController.data_csv self) w Hext)
    as Hloaded.
  rewrite Hread in Hloaded.
  rewrite bind_run, Hloaded. rewrite bind_run. simpl. exact Hprep.
Qed.

(** X18. On a Chroma store whose client does not fault, with a [.csv]
    dataset that [read_csv] parses and whose rows all embed, a re-index
    leaves in the collection exactly one record per row of the table, in
    row order and whatever the collection held before: row [i] is stored
    under the id [id<i>] with its text [col: value,\n ...], its embedding
    and the metadata [{"source": <file name without extension>}]. *)
Theorem chroma_reindex_content `{Externals} (self : RAGController.t)
    (pc : DataProcessController.t) (df : DataFrame) (w : world) :
  RAGController.vectordb_client self = Chroma →
  RAGController.em self = true →
  (∀ w0, DataProcessController.__init__ w0 = (Ok pc, w0)) →
  (os_path.splitext (os_path.basename (RAGController.data_csv self))).2
    = ".csv" →
  read_csv (RAGController.data_csv self) = Ok df →
  well_formed df →
  embeddable (DataProcessController.client pc) df →
  healthy w →
  let name := COLLECTION_NAME (RAGController.app_settings self) in
  let stem :=
    (os_path.splitext (os_path.basename (RAGController.data_csv self))).1 in
  ∃ info w' cfg pts,
    RAGController.index_into_vector_db self w = (Ok (Some info), w')
    ∧ store w' !! name = Some (Collection cfg pts)
    ∧ length pts = length (cells df)
    ∧ ∀ (i : nat) (row : list string),
        cells df !! i = Some row →
        ∃ e,
          pts !! i
          = Some (Point (IdStr ("id" +:+ pretty i))
                    (serialized (columns df) row) e
                    (Some {[ "source" := stem ]}))
          ∧ embed_text (DataProcessController.client pc)
              (serialized (columns df) row) = Ok e.
Proof.
  intros Hc Hem Hinit Hext Hread Hwf Hemb Hh name stem.
  destruct (preparation_run self pc df w Hinit Hext Hread Hwf Hemb)
    as (es & Hes & Hprep).
  fold stem in Hprep.
  set (docs := serialized (columns df) <$> cells df) in *.
  set (metadatas := replicate (length (cells df)) {[ "source" := stem ]}) in *.
  set (ids := (λ i : nat, "id" +:+ pretty i) <$> seq 0 (length (cells df)))
    in *.
  assert (length es = length (cells df)) as Hles
    by (symmetry; by eapply Forall2_length).
  rewrite (index_after_preparation self docs metadatas ids es w w) by done.
  rewrite Hc. fold name. cbn [VectorDBInterface.create_collection
    VectorDBInterface.insert_many VectorDBInterface.get_collection_info].
  unfold VectorDBInterface.default_batch_size, try_except.
  destruct (create_collection_reset_run Chroma name None w Hh I)
    as (w2 & Hcreate & _ & Hstore & _ & Hh2).
  simpl in Hcreate. rewrite bind_run, Hcreate.
  assert (same_lengths docs es (Some metadatas) (Some (IdStr <$> ids)))
    as Hlen.
  { subst docs metadatas ids. split_and!.
    - by rewrite length_fmap.
    - intros l [= <-]. by rewrite ?length_replicate, ?length_fmap.
    - intros l [= <-]. by rewrite ?length_fmap, ?length_seq. }
  assert (store w2 !! name = Some (fresh_collection Chroma None)) as Hs2
    by (by rewrite Hstore, lookup_insert_eq).
  rewrite bind_run.
  rewrite (chroma_insert_many_ok name docs es (Some metadatas)
             (Some (IdStr <$> ids)) 50 ltac:(lia) Hlen w2);
    [|by apply healthy_next_fault|by eexists|].
  2:{ intros i _ Hbad. apply list_elem_of_lookup_2 in Hbad.
      assert (true ∈ faults w2) as Hin.
      { destruct (faults w2); [by apply elem_of_nil in Hbad|].
        simpl in Hbad. by right. }
      unfold healthy in Hh2. rewrite Forall_forall in Hh2.
      by apply Hh2 in Hin. }
  set (w3 := after_batches _ _ _ _ _ _ _ _ _ _).
  assert (healthy w3) as Hh3
    by (apply healthy_after_batches; auto using healthy_after).
  set (recs := records Chroma docs es (Some metadatas) (Some (IdStr <$> ids))).
  assert (pid <$> recs = IdStr <$> ids) as Hids.
  { subst recs. simpl. apply zip_points_ids; simpl; subst docs metadatas ids;
      by rewrite ?length_replicate, ?length_fmap, ?length_seq. }
  assert (length recs = length (cells df)) as Hrecs.
  { rewrite <- (length_fmap pid), Hids. subst ids.
    by rewrite ?length_fmap, ?length_seq. }
  assert (store w3 !! name
          = Some (Collection
                    (ChromaMetadata
                       {[ "hnsw:space" := ChromaDBProvider.distance_method ]})
                    recs)) as Hs3.
  { subst w3. cbn [store after_batches after].
    fold recs.
    replace (length docs) with (length recs)
      by (subst docs; by rewrite Hrecs, length_fmap).
    fold (batches (Z.to_nat 50) recs).
    erewrite persist_lookup by exact Hs2. simpl.
    rewrite add_points_concat, concat_batches by lia.
    rewrite add_points_fresh; [done|].
    simpl. rewrite Hids. apply row_ids_distinct. }
  clearbody w3.
  rewrite bind_run. unfold logger at 1. rewrite bind_run.
  rewrite (chroma_get_collection_info_run name _ _ (healthy_logged _ _ _ Hh3)
             Hs3).
  rewrite bind_run. unfold logger at 1.
  eexists _, _, _, recs. split; [reflexivity|].
  split; [exact Hs3|]. split; [exact Hrecs|].
  intros i row Hrow.
  destruct (Forall2_lookup_l _ _ _ _ _ Hes Hrow) as (e & He & Hok).
  exists e. split; [|done].
  assert (i < length (cells df))%nat as Hi by (by eapply lookup_lt_Some).
  subst recs. cbn [records]. unfold chromadb.zip_points, chroma_metadata,
    chroma_ids. simpl.
  apply lookup_zip_with_Some.
  exists (serialized (columns df) row, {[ "source" := stem ]}),
    (IdStr ("id" +:+ pretty i), e).
  split; [done|]. split; apply lookup_zip_with_Some; eexists _, _;
    (split; [reflexivity|]); subst docs metadatas ids.
  - split; [by rewrite list_lookup_fmap, Hrow|by apply lookup_replicate_2].
  - split; [|done].
    by rewrite !list_lookup_fmap, lookup_seq_lt.
Qed.

(** The three-row dataset of the specification: what is in the collection
    after the run. *)
Lemma chroma_reindex_content_witness :
  ∃ info w' cfg pts e,
    @RAGController.index_into_vector_db sample_externals
      (sample_rag Chroma true) stocked_world = (Ok (Some info), w')
    ∧ store w' !! "cars" = Some (Collection cfg pts)
    ∧ length pts = 3%nat
    ∧ pts !! 1%nat
      = Some (Point (IdStr ("id" +:+ pretty 1%nat))
                (serialized ["make"; "year"] ["Honda"; "2019"]) e
                (Some {[ "source" := "dataset" ]})).
Proof.
  destruct (@chroma_reindex_content sample_externals (sample_rag Chroma true)
              sample_process_controller sample_frame stocked_world
              eq_refl eq_refl (λ w0, eq_refl) eq_refl eq_refl)
    as (info & w' & cfg & pts & Hrun & Hstore & Hlen & Hrows).
  - split_and!; [|by repeat constructor|reflexivity].
    apply (bool_decide_unpack _). vm_compute. exact I.
  - intros row Hrow. by eexists.
  - by constructor.
  - destruct (Hrows 1%nat ["Honda"; "2019"] eq_refl) as (e & H1 & _).
    exists info, w', cfg, pts, e.
    split; [exact Hrun|]. split; [exact Hstore|]. split; [exact Hlen|].
    exact H1.
Defined.

(** ** Ids that are taken, on Qdrant *)

Lemma upsert_points_concat (stored : list point) (bs : list (list point)) :
  foldl qdrant_client.upsert_points stored bs
  = qdrant_client.upsert_points stored (concat bs).
Proof.
  revert stored. induction bs as [|pts bs IH]; intros stored; simpl; [done|].
  rewrite IH. unfold qdrant_client.upsert_points. by rewrite foldl_app.
Qed.

(** After an upload the collection holds the uploaded records, and of the
    older ones those whose id was not uploaded. *)
Lemma upsert_points_elem (stored new : list point) (p : point) :
  NoDup (pid <$> new) →
  p ∈ qdrant_client.upsert_points stored new
  ↔ p ∈ new ∨ (p ∈ stored ∧ pid p ∉ pid <$> new).
Proof.
  revert stored. induction new as [|q new IH]; intros stored Hnd.
  - simpl. rewrite elem_of_nil. split; [|by intros [[]|[? _]]].
    intros Hp. right. split; [done|]. apply not_elem_of_nil.
  - rewrite fmap_cons in Hnd. apply NoDup_cons in Hnd as [Hq Hnd].
    unfold qdrant_client.upsert_points. cbn [foldl].
    fold (qdrant_client.upsert_points
            (qdrant_client.upsert_point stored q) new).
    rewrite IH by done. unfold qdrant_client.upsert_point.
    split.
    + intros [Hp|[Hin Hnew]]; [left; by right|].
      apply elem_of_app in Hin as [Hin|Hin].
      * apply list_elem_of_filter in Hin as [Hne Hin]. right.
        split; [done|]. rewrite fmap_cons.
        by intros [?|?]%elem_of_cons.
      * apply list_elem_of_singleton in Hin as ->. left. left.
    + intros [Hp|[Hp Hnot]].
      * apply elem_of_cons in Hp as [->|Hp]; [|by left].
        right. split; [|done]. apply elem_of_app. right.
        by apply list_elem_of_singleton.
      * rewrite fmap_cons in Hnot.
        apply not_elem_of_cons in Hnot as [Hne Hnew].
        right. split; [|done]. apply elem_of_app. left.
        by apply list_elem_of_filter.
Qed.

Lemma qdrant_points_ids (texts : list string) (vectors : list embedding)
    (metadata : list (option (gmap string string))) (ids : list point_id) :
  length texts = length ids → length vectors = length ids →
  length metadata = length ids →
  pid <$> qdrant_points texts vectors metadata ids = ids.
Proof.
  unfold qdrant_points. revert texts vectors metadata.
  induction ids as [|i ids IH]; intros [|t ts] [|v vs] [|m ms] Ht Hv Hm;
    simplify_eq/=; [done|].
  f_equal. by apply IH.
Qed.

(** X19. Qdrant's [insert_many] overwrites: on a client that does not
    fault, for a call whose ids are distinct (the positional default ids
    [0], [1], ... always are), it answers [True], and afterwards the
    collection holds every record of the call together with those older
    records whose id the call did not use; a record stored under one of the
    ids of the call is gone. *)
Theorem qdrant_insert_many_replaces (name : string) (texts : list string)
    (vectors : list embedding) (metadata : option (list (gmap string string)))
    (record_ids : option (list point_id)) (batch_size : Z) (c : collection)
    (w : world) :
  0 < batch_size →
  same_lengths texts vectors metadata record_ids →
  healthy w →
  store w !! name = Some c →
  NoDup (qdrant_ids texts record_ids) →
  ∃ w' pts,
    QdrantDBProvider.insert_many name texts vectors metadata record_ids
      batch_size w = (Ok true, w')
    ∧ store w' !! name = Some (Collection (cconfig c) pts)
    ∧ ∀ p, p ∈ pts
           ↔ p ∈ records Qdrant texts vectors metadata record_ids
             ∨ (p ∈ cpoints c ∧ pid p ∉ qdrant_ids texts record_ids).
Proof.
  intros Hsize Hlen Hh Hc Hnd.
  rewrite (qdrant_insert_many_ok name texts vectors metadata record_ids
             batch_size Hsize Hlen w); [|by eexists|].
  2:{ intros i _ Hbad. apply list_elem_of_lookup_2 in Hbad.
      unfold healthy in Hh. rewrite Forall_forall in Hh.
      by apply Hh in Hbad. }
  set (recs := records Qdrant texts vectors metadata record_ids).
  assert (pid <$> recs = qdrant_ids texts record_ids) as Hids.
  { subst recs. cbn [records]. apply qdrant_points_ids.
    - by rewrite (length_qdrant_ids texts vectors metadata record_ids Hlen).
    - by rewrite (length_vectors texts vectors metadata record_ids Hlen),
        (length_qdrant_ids texts vectors metadata record_ids Hlen).
    - by rewrite
        (length_qdrant_metadata texts vectors metadata record_ids Hlen),
        (length_qdrant_ids texts vectors metadata record_ids Hlen). }
  eexists _, _. split; [reflexivity|].
  cbn [store after_batches]. fold recs.
  replace (length texts) with (length recs)
    by (subst recs; by apply records_length).
  fold (batches (Z.to_nat batch_size) recs).
  rewrite (persist_lookup Qdrant name (store w) c) by done.
  rewrite upsert_points_concat, concat_batches by lia.
  split; [reflexivity|].
  intros p. rewrite <- Hids. apply upsert_points_elem. by rewrite Hids.
Qed.

Lemma qdrant_insert_many_replaces_witness :
  ∃ w' pts,
    QdrantDBProvider.insert_many "cars" ["t3"] [sample_vector] None None 50
      qdrant_stocked_world = (Ok true, w')
    ∧ store w' !! "cars"
      = Some (Collection (VectorParams 2 QdrantDBProvider.distance_method) pts)
    ∧ ∀ p, p ∈ pts
           ↔ p ∈ [Point (IdInt 0) "t3" sample_vector None]
             ∨ (p ∈ [Point (IdInt 0) "t1" sample_vector None;
                     Point (IdInt 1) "t2" sample_vector None]
                ∧ pid p ∉ [IdInt 0]).
Proof.
  apply (qdrant_insert_many_replaces "cars" ["t3"] [sample_vector] None None
           50
           (Collection (VectorParams 2 QdrantDBProvider.distance_method)
              [Point (IdInt 0) "t1" sample_vector None;
               Point (IdInt 1) "t2" sample_vector None])
           qdrant_stocked_world).
  - lia.
  - by split_and!.
  - by constructor.
  - reflexivity.
  - repeat constructor. apply not_elem_of_nil.
Defined.
